(** * PDF question answering backend: retrieval core and upload sessions

    A shallow embedding of the Express [/ask] route (the server with
    upload-session support), of [vectorStore.js] (page splitting, batched
    embedding, cosine scoring, top-K selection) and of the part of the React
    client that builds the request.

    Conventions of the embedding.
    - A JavaScript string is the list of its UTF-16 code units ([list N]).
    - A JavaScript number that carries a score or an embedding coordinate is
      modelled twice.  In [Ranker], and in the route that calls it, it is a
      real number: the arithmetic is exact, and rounding, infinities and NaN
      are not represented.  In [Doubles] it is an IEEE 754 double, computed
      with the operations of the processor; the order in which the ranking
      returns the pages is stated there.  Counters, indices and sizes are
      [nat].
    - Exceptions are explicit: a computation returns a value, throws an
      error, or runs out of the fuel given to a loop.
    - The disk is a finite map; the external services (PDF text extraction,
      embedding provider, chat completion, clock, random ids) are fields of
      a [World] record, indexed by the call site that consults them. *)

From Stdlib Require Import Reals Lra List Arith Lia Bool NArith ZArith Sorted Permutation.
From Stdlib Require String Ascii DecimalPos Floats.
From stdpp Require Import gmap list.
Import ListNotations.
Import String.StringSyntax.
Delimit Scope string_scope with string.

#[local] Open Scope nat_scope.

(* ===================================================================== *)
(** ** JavaScript strings *)
(* ===================================================================== *)

Module JsString.

Abbreviation jsstring := (list N).

(** String literal, for the constants of the source. *)
Definition js (s : String.string) : jsstring :=
  map Ascii.N_of_ascii (String.list_ascii_of_string s).

Arguments js s%_string.

(** [WhiteSpace] and [LineTerminator] of ECMAScript: what [\s] matches and
    what [trim] removes. *)
Definition isWhiteSpace (c : N) : bool :=
  ((9 <=? c) && (c <=? 13) || (c =? 32) || (c =? 160) || (c =? 5760)
   || (8192 <=? c) && (c <=? 8202) || (c =? 8232) || (c =? 8233)
   || (c =? 8239) || (c =? 8287) || (c =? 12288) || (c =? 65279))%N.

(** The form feed, ["\f"]. *)
Definition formFeed : N := 12%N.

Definition isDigit (c : N) : bool := ((48 <=? c) && (c <=? 57))%N.
Definition isUpper (c : N) : bool := ((65 <=? c) && (c <=? 90))%N.
Definition isLower (c : N) : bool := ((97 <=? c) && (c <=? 122))%N.

(** [Boolean(s)] on a string. *)
Definition truthy (s : jsstring) : bool :=
  match s with [] => false | _ :: _ => true end.

Fixpoint trimStart (s : jsstring) : jsstring :=
  match s with
  | [] => []
  | c :: s' => if isWhiteSpace c then trimStart s' else s
  end.

Definition trimEnd (s : jsstring) : jsstring := rev (trimStart (rev s)).

(** [s.trim()] *)
Definition trim (s : jsstring) : jsstring := trimEnd (trimStart s).

(** [s.includes(c)] for a one-character needle. *)
Definition includes (c : N) (s : jsstring) : bool := existsb (N.eqb c) s.

(** [s.split(sep)] for a one-character separator; [cur] is the segment
    read so far. *)
Fixpoint splitOn (sep : N) (s cur : jsstring) : list jsstring :=
  match s with
  | [] => [cur]
  | c :: s' =>
      if (c =? sep)%N then cur :: splitOn sep s' []
      else splitOn sep s' (cur ++ [c])
  end.

Definition split (sep : N) (s : jsstring) : list jsstring := splitOn sep s [].

(** [s.split(/\s+/)]: the separators are the maximal runs of white space;
    [inrun] tells that the previous code unit was white space. *)
Fixpoint splitRuns (s cur : jsstring) (inrun : bool) : list jsstring :=
  match s with
  | [] => [cur]
  | c :: s' =>
      if isWhiteSpace c then
        if inrun then splitRuns s' cur true
        else cur :: splitRuns s' [] true
      else splitRuns s' (cur ++ [c]) false
  end.

Definition splitWhitespace (s : jsstring) : list jsstring := splitRuns s [] false.

(** [arr.join(sep)] *)
Fixpoint join (sep : jsstring) (l : list jsstring) : jsstring :=
  match l with
  | [] => []
  | [x] => x
  | x :: l' => x ++ sep ++ join sep l'
  end.

(** [arr.slice(i, j)] for [0 <= i] and [0 <= j]. *)
Definition slice {A} (i j : nat) (l : list A) : list A := take (j - i) (drop i l).

(** [s.toLowerCase()], on the ASCII letters.  The one use in the source
    compares the result with the suffix [".pdf"]; no code unit outside
    ASCII lower-cases to one of its four characters. *)
Definition toLowerCase (s : jsstring) : jsstring :=
  map (fun c => if isUpper c then (c + 32)%N else c) s.

Fixpoint startsWith (p s : jsstring) : bool :=
  match p, s with
  | [], _ => true
  | a :: p', b :: s' => (a =? b)%N && startsWith p' s'
  | _ :: _, [] => false
  end.

(** [s.endsWith(p)] *)
Definition endsWith (s p : jsstring) : bool := startsWith (rev p) (rev s).

(** [String(n)] for a non-negative integer: its decimal digits. *)
Fixpoint digitsOf (u : Decimal.uint) : jsstring :=
  match u with
  | Decimal.Nil => []
  | Decimal.D0 d => 48%N :: digitsOf d
  | Decimal.D1 d => 49%N :: digitsOf d
  | Decimal.D2 d => 50%N :: digitsOf d
  | Decimal.D3 d => 51%N :: digitsOf d
  | Decimal.D4 d => 52%N :: digitsOf d
  | Decimal.D5 d => 53%N :: digitsOf d
  | Decimal.D6 d => 54%N :: digitsOf d
  | Decimal.D7 d => 55%N :: digitsOf d
  | Decimal.D8 d => 56%N :: digitsOf d
  | Decimal.D9 d => 57%N :: digitsOf d
  end.

Definition decimal (n : N) : jsstring := digitsOf (N.to_uint n).

End JsString.

Import JsString.

(* ===================================================================== *)
(** ** Computations that may throw *)
(* ===================================================================== *)

(** The errors thrown in [vectorStore.js] and in the route.  A wrapper
    such as [new Error("Embedding pages failed: " + String(e))] keeps its
    cause. *)
Inductive Err : Type :=
| ProviderCallFailed            (* "Embedding provider call failed: ..." *)
| UnexpectedBatchSize           (* "Provider returned unexpected batch embedding size" *)
| EmbeddingPagesFailed (cause : Err)
| EmbeddingQuestionFailed (cause : Err)
| ExtractionFailed              (* "PDF text extraction failed: ..." *)
| QuestionRequired              (* "Question string required." *)
| PdfParseFailed                (* every parser the route tries has failed *)
| FileNotFound                  (* ENOENT of the fs module *)
| LlamaFailed.                  (* the chat completion call has failed *)

Inductive comp (A : Type) : Type :=
| Ret (a : A)
| Throw (e : Err)
| OutOfFuel.

Arguments Ret {A} a.
Arguments Throw {A} e.
Arguments OutOfFuel {A}.

Definition bind {A B} (c : comp A) (k : A -> comp B) : comp B :=
  match c with
  | Ret a => k a
  | Throw e => Throw e
  | OutOfFuel => OutOfFuel
  end.

(** [try c catch (e) { throw wrap(e) }] *)
Definition rethrow {A} (wrap : Err -> Err) (c : comp A) : comp A :=
  match c with
  | Ret a => Ret a
  | Throw e => Throw (wrap e)
  | OutOfFuel => OutOfFuel
  end.

Notation "'let!' x ':=' c 'in' k" := (bind c (fun x => k))
  (at level 10, x name, c at level 100, k at level 200).

(* ===================================================================== *)
(** ** Text segmenter ([vectorSearchForPdfBuffer], "Split into pages") *)
(* ===================================================================== *)

Module Segmenter.

(** [fullText.split(/\s+/).filter(Boolean)] *)
Definition words (fullText : jsstring) : list jsstring :=
  filter (fun w => truthy w = true) (splitWhitespace fullText).

(** The chunking loop
    [for (let i = 0; i < words.length; i += chunkSizeWords) {
       pages.push(words.slice(i, i + chunkSizeWords).join(" "));
       if (pages.length >= maxPages) break; }]
    started at index [i] with [pages] already pushed. *)
Fixpoint chunkLoop (fuel : nat) (ws : list jsstring)
    (chunkSizeWords maxPages i : nat) (pages : list jsstring)
  : comp (list jsstring) :=
  if i <? length ws then
    let pages' := pages ++ [join (js " ") (slice i (i + chunkSizeWords) ws)] in
    if maxPages <=? length pages' then Ret pages'
    else
      match fuel with
      | 0 => OutOfFuel
      | S fuel' => chunkLoop fuel' ws chunkSizeWords maxPages (i + chunkSizeWords) pages'
      end
  else Ret pages.

(** The pages of a text.  Every pass of the loop that does not leave it
    has pushed fewer than [maxPages] pages, so [maxPages] is fuel enough. *)
Definition splitIntoPages (chunkSizeWords maxPages : nat) (fullText : jsstring)
  : comp (list jsstring) :=
  let! pages :=
    (if includes formFeed fullText then
       Ret (filter (fun p => truthy p = true) (map trim (split formFeed fullText)))
     else chunkLoop maxPages (words fullText) chunkSizeWords maxPages 0 []) in
  let pages := match pages with [] => [fullText] | _ :: _ => pages end in
  Ret (if maxPages <? length pages then slice 0 maxPages pages else pages).

(** The first [k] chunks of a word list: what the loop has pushed after
    [k] passes. *)
Definition chunks (ws : list jsstring) (chunkSizeWords k : nat) : list jsstring :=
  map (fun j => join (js " ") (slice (j * chunkSizeWords) (j * chunkSizeWords + chunkSizeWords) ws))
      (seq 0 k).

(** [ceil(n / c)] for [c >= 1]. *)
Definition ceilDiv (n c : nat) : nat := (n + c - 1) / c.

(** A text that is empty or made of white space only. *)
Definition blank (s : jsstring) : Prop := forallb isWhiteSpace s = true.

End Segmenter.

(** The vocabulary in which the pages of a text are described. *)
Module TextSpec.

(** A string without white space. *)
Definition noSpace (s : jsstring) : Prop :=
  forallb (fun c => negb (isWhiteSpace c)) s = true.

(** A word: not empty, no white space. *)
Definition isWord (s : jsstring) : Prop := s <> [] /\ noSpace s.

(** [wordsOfText s ws]: read from left to right, the text [s] is the
    words [ws], with white space before, between and after them.  Each
    word is a maximal run of code units that are not white space: what
    follows it is the end of the text or a white space. *)
Inductive wordsOfText : jsstring -> list jsstring -> Prop :=
| no_word (s : jsstring) :
    Segmenter.blank s -> wordsOfText s []
| next_word (gap w rest : jsstring) (ws : list jsstring) :
    Segmenter.blank gap ->
    isWord w ->
    match rest with [] => True | c :: _ => isWhiteSpace c = true end ->
    wordsOfText rest ws ->
    wordsOfText (gap ++ w ++ rest) (w :: ws).

(** A page of the form-feed branch: not empty, nothing to trim at either
    end, no form feed inside. *)
Definition cleanPage (p : jsstring) : Prop :=
  p <> [] /\ trim p = p /\ includes formFeed p = false.

End TextSpec.

(* ===================================================================== *)
(** ** Similarity ranker ([cosineSimilarity], "Score") *)
(* ===================================================================== *)

Module Ranker.

(** The ranker in exact arithmetic: the numbers are real numbers.  It
    tells what the formulas of the source compute; the rounding, the
    overflow and the NaN of the doubles are in [Doubles] below. *)

(** What an embedding slot can hold: an array of numbers, or any value for
    which [Array.isArray] is false ([undefined], an object, a number). *)
Inductive jsval : Type :=
| JArray (v : list R)
| JOther.

Definition isArray (x : jsval) : bool :=
  match x with JArray _ => true | JOther => false end.

(** [x.length] of an array. *)
Definition lengthOf (x : jsval) : nat :=
  match x with JArray v => length v | JOther => 0 end.

(** The three accumulators [dot], [na], [nb] after the loop of
    [cosineSimilarity] over two arrays of one length. *)
Definition cosineSums (a b : list R) : R * R * R :=
  fold_left
    (fun acc xy =>
       let '(dot, na, nb) := acc in
       let '(x, y) := xy in
       (dot + x * y, na + x * x, nb + y * y)%R)
    (combine a b) (0, 0, 0)%R.

Definition cosineSimilarity (a b : jsval) : R :=
  match a, b with
  | JArray a, JArray b =>
      if negb (length a =? length b) then 0%R
      else
        let '(dot, na, nb) := cosineSums a b in
        if Req_dec_T na 0 then 0%R
        else if Req_dec_T nb 0 then 0%R
        else (dot / (sqrt na * sqrt nb))%R
  | _, _ => 0%R
  end.

Record ScoredPage : Type := {
  pageNumber : nat;
  text : jsstring;
  score : R;
}.

(** [pages.map((text, idx) => ...)]: the score of page [idx] against the
    question embedding. *)
Definition scorePages (pages : list jsstring) (pageEmbeddings : list jsval)
    (qEmb : jsval) : list ScoredPage :=
  imap
    (fun idx text =>
       let emb := default JOther (pageEmbeddings !! idx) in
       {| pageNumber := idx + 1;
          text := text;
          score :=
            if isArray emb && isArray qEmb && (lengthOf emb =? lengthOf qEmb)
            then cosineSimilarity qEmb emb else 0%R |})
    pages.

(** The comparator [(a, b) => b.score - a.score]. *)
Definition comparefn (a b : ScoredPage) : R := (score b - score a)%R.

(** [Array.prototype.sort(comparefn)].  ECMAScript requires the sort to be
    stable; it is embedded as the stable insertion sort: an element moves
    behind the elements that the comparator puts before it
    ([comparefn(a, b) > 0]) and stays in front of the others. *)
Fixpoint insert (a : ScoredPage) (l : list ScoredPage) : list ScoredPage :=
  match l with
  | [] => [a]
  | b :: l' => if Rlt_dec 0 (comparefn a b) then b :: insert a l' else a :: l
  end.

Definition sort (l : list ScoredPage) : list ScoredPage := foldr insert [] l.

(** [scored.sort(...)] followed by
    [scored.slice(0, Math.min(topK, scored.length))]. *)
Definition topPagesOf (topK : nat) (scored : list ScoredPage) : list ScoredPage :=
  slice 0 (Nat.min topK (length scored)) (sort scored).

(** The ranker (the "Score" block): score every page, sort, keep the
    best [topK]. *)
Definition rank (pages : list jsstring) (pageEmbeddings : list jsval)
    (qEmb : jsval) (topK : nat) : list ScoredPage :=
  topPagesOf topK (scorePages pages pageEmbeddings qEmb).

(** The squared norm of a vector, and its dot product with another. *)
Definition normSq (v : list R) : R := foldr (fun x s => (x * x + s)%R) 0%R v.

Fixpoint dotProduct (a b : list R) : R :=
  match a, b with
  | x :: a', y :: b' => (x * y + dotProduct a' b')%R
  | _, _ => 0%R
  end.

(** [precedes a b]: [a] is ranked before [b], by the higher score and,
    among equal scores, by the smaller page number. *)
Definition precedes (a b : ScoredPage) : Prop :=
  (score b < score a)%R \/ (score b = score a /\ pageNumber a < pageNumber b).

(** [a] comes from an earlier page than [b]. *)
Definition earlier (a b : ScoredPage) : Prop := pageNumber a < pageNumber b.

End Ranker.

(* ===================================================================== *)
(** ** The ranker in double precision *)
(* ===================================================================== *)

(** The order of the doubles.  [key x] is the number that the double [x]
    stands for, counted in units of 2 ^ -1074 (the smallest positive
    double); the infinities lie beyond every finite double. *)
Module Binary64.
Import SpecFloat FloatOps.

Definition huge : Z := 2 ^ 2098.

Definition key (x : spec_float) : Z :=
  match x with
  | S754_zero _ => 0
  | S754_infinity s => cond_Zopp s huge
  | S754_nan => 0
  | S754_finite s m e => cond_Zopp s (Zpos m * 2 ^ (e + 1074))
  end.

Definition fkey (x : PrimFloat.float) : Z := key (Prim2SF x).

(** A double that is positive: a finite one, or the infinity. *)
Definition positive_sf (x : spec_float) : Prop :=
  x = S754_infinity false \/ exists m e, x = S754_finite false m e.

End Binary64.

(** [cosineSimilarity] and the "Score" block as JavaScript computes them:
    every number is an IEEE 754 double ([PrimFloat.float]), every operation
    rounds to nearest even, and a sum or a product that overflows is an
    infinity, from which [Infinity / Infinity] makes NaN.  An entry of an
    embedding stands for its value as a number, which is how the products
    of [cosineSimilarity] read it. *)
Module Doubles.
Import PrimFloat.

Inductive jsval : Type :=
| JArray (v : list float)
| JOther.

Definition isArray (x : jsval) : bool :=
  match x with JArray _ => true | JOther => false end.

Definition lengthOf (x : jsval) : nat :=
  match x with JArray v => length v | JOther => 0 end.

(** The accumulators [dot], [na], [nb] after the loop. *)
Definition cosineSums (a b : list float) : float * float * float :=
  fold_left
    (fun acc xy =>
       let '(dot, na, nb) := acc in
       let '(x, y) := xy in
       (dot + x * y, na + x * x, nb + y * y)%float)
    (combine a b) (0, 0, 0)%float.

(** [na === 0] is the equality of IEEE 754: NaN is not 0, and -0 is. *)
Definition cosineSimilarity (a b : jsval) : float :=
  match a, b with
  | JArray a, JArray b =>
      if negb (length a =? length b) then 0%float
      else
        let '(dot, na, nb) := cosineSums a b in
        if (na =? 0)%float || (nb =? 0)%float then 0%float
        else (dot / (sqrt na * sqrt nb))%float
  | _, _ => 0%float
  end.

Record ScoredPage : Type := {
  pageNumber : nat;
  text : jsstring;
  score : float;
}.

Definition scorePages (pages : list jsstring) (pageEmbeddings : list jsval)
    (qEmb : jsval) : list ScoredPage :=
  imap
    (fun idx text =>
       let emb := default JOther (pageEmbeddings !! idx) in
       {| pageNumber := idx + 1;
          text := text;
          score :=
            if isArray emb && isArray qEmb && (lengthOf emb =? lengthOf qEmb)
            then cosineSimilarity qEmb emb else 0%float |})
    pages.

(** The comparator [(a, b) => b.score - a.score]; it is NaN when one of
    the scores is NaN, and for two infinite scores of one sign. *)
Definition comparefn (a b : ScoredPage) : float := (score b - score a)%float.

(** [Array.prototype.sort(comparefn)], as the stable insertion sort: an
    element moves behind the elements [b] with [comparefn(a, b) > 0].  A
    comparator value that is NaN counts as 0, as ECMAScript prescribes: the
    two elements keep their order.  When the comparator is consistent
    every stable sort returns this order; when it is not (a score is NaN)
    ECMAScript leaves the order to the implementation. *)
Fixpoint insert (a : ScoredPage) (l : list ScoredPage) : list ScoredPage :=
  match l with
  | [] => [a]
  | b :: l' => if (0 <? comparefn a b)%float then b :: insert a l' else a :: l
  end.

Definition sort (l : list ScoredPage) : list ScoredPage := foldr insert [] l.

Definition topPagesOf (topK : nat) (scored : list ScoredPage) : list ScoredPage :=
  slice 0 (Nat.min topK (length scored)) (sort scored).

Definition rank (pages : list jsstring) (pageEmbeddings : list jsval)
    (qEmb : jsval) (topK : nat) : list ScoredPage :=
  topPagesOf topK (scorePages pages pageEmbeddings qEmb).

(** No score of the list is NaN. *)
Definition allNumbers (scored : list ScoredPage) : bool :=
  forallb (fun p => negb (is_nan (score p))) scored.

(** [precedes a b]: [a] is ranked before [b], by the higher score and,
    among equal scores, by the smaller page number. *)
Definition precedes (a b : ScoredPage) : Prop :=
  (score b <? score a)%float = true \/
  ((score b =? score a)%float = true /\ pageNumber a < pageNumber b).

Definition earlier (a b : ScoredPage) : Prop := pageNumber a < pageNumber b.

(** The same order, read on the keys of the scores. *)
Definition precedesByKey (a b : ScoredPage) : Prop :=
  (Binary64.fkey (score b) < Binary64.fkey (score a))%Z \/
  (Binary64.fkey (score b) = Binary64.fkey (score a) /\ pageNumber a < pageNumber b).

End Doubles.

(* ===================================================================== *)
(** ** The world outside the program *)
(* ===================================================================== *)

(** What [callProviderEmbeddings] returns for a batch, after
    [normalizeProviderResponse]. *)
Inductive BatchValue : Type :=
| NotAnArray
| ArrayOf (embeddings : list Ranker.jsval).

(** The external services, as seen during one request.  [None] stands for
    a call that throws.  The embedding calls are indexed by the position
    of the document in the request and, for a batch, by the page offset of
    the batch, so that the provider may answer each call in its own way. *)
Record World : Type := {
  (** [crypto.randomUUID()] (or the fallback built from the clock) *)
  randomUUID : jsstring;
  (** [fs.renameSync] refuses to move this stored file although it exists
      (a move across devices, for instance) *)
  renameFails : jsstring -> bool;
  (** one of the three PDF parsers the route tries reads the buffer *)
  pdfParse : list N -> bool;
  (** the text that [pdf-parse] extracts in [vectorSearchForPdfBuffer] *)
  extractText : list N -> option jsstring;
  (** [callProviderEmbeddings(batch)] *)
  embedBatch : nat -> nat -> list jsstring -> option BatchValue;
  (** [callProviderEmbeddings(question)] *)
  embedQuestion : nat -> jsstring -> option Ranker.jsval;
  (** [score.toFixed(4)] *)
  toFixed4 : R -> jsstring;
  (** the replacement of the page headers of a context by headers that
      name the document ([contextForLlama.replace(/--- Page .../g, ...)]) *)
  tagContext : jsstring -> jsstring -> jsstring;
  (** [askWithLlama(context, question)] *)
  askWithLlama : jsstring -> jsstring -> option jsstring;
}.

(* ===================================================================== *)
(** ** [vectorSearchForPdfBuffer] *)
(* ===================================================================== *)

Module VectorStore.
Import Ranker.

Record Options : Type := {
  topK : nat;
  chunkSizeWords : nat;
  maxPages : nat;
  excerptChars : nat;
  batchSize : nat;
}.

(** The defaults of the destructuring of [opts]. *)
Definition defaultOptions : Options :=
  {| topK := 5; chunkSizeWords := 300; maxPages := 400;
     excerptChars := 1500; batchSize := 8 |}.

(** [for (let k = 0; k < batchEmb.length; k++) pageEmbeddings[i + k] = batchEmb[k]].
    The indices written are inside the array: a batch that is stored has
    the length of a slice of the pages. *)
Fixpoint storeBatch (pageEmbeddings : list jsval) (i : nat) (batchEmb : list jsval)
  : list jsval :=
  match batchEmb with
  | [] => pageEmbeddings
  | e :: rest => storeBatch (<[i := e]> pageEmbeddings) (S i) rest
  end.

(** A returned batch that the loop refuses. *)
Definition checkBatch (batch : list jsstring) (res : option BatchValue)
  : comp (list jsval) :=
  match res with
  | None => Throw ProviderCallFailed
  | Some NotAnArray => Throw UnexpectedBatchSize
  | Some (ArrayOf batchEmb) =>
      if negb (length batchEmb =? length batch) then Throw UnexpectedBatchSize
      else Ret batchEmb
  end.

(** The provider fails on a batch: the call throws, or what it returns is
    not an array with one embedding per page of the batch. *)
Definition refused (batch : list jsstring) (res : option BatchValue) : Prop :=
  match res with
  | None => True
  | Some NotAnArray => True
  | Some (ArrayOf batchEmb) => length batchEmb <> length batch
  end.

(** The batch loop
    [for (let i = 0; i < pages.length; i += batchSize) {...}]
    of document [fi], entered at offset [i]. *)
Fixpoint embedLoop (fuel : nat) (w : World) (fi : nat) (pages : list jsstring)
    (batchSize i : nat) (pageEmbeddings : list jsval) : comp (list jsval) :=
  if i <? length pages then
    match fuel with
    | 0 => OutOfFuel
    | S fuel' =>
        let batch := slice i (i + batchSize) pages in
        let! batchEmb := checkBatch batch (embedBatch w fi i batch) in
        embedLoop fuel' w fi pages batchSize (i + batchSize)
          (storeBatch pageEmbeddings i batchEmb)
    end
  else Ret pageEmbeddings.

(** The whole "Embed pages in batches" block; with a batch size of at
    least one the loop makes at most [pages.length] passes. *)
Definition embedPages (w : World) (fi : nat) (pages : list jsstring) (batchSize : nat)
  : comp (list jsval) :=
  rethrow EmbeddingPagesFailed
    (embedLoop (length pages) w fi pages batchSize 0 (replicate (length pages) JOther)).

Definition quote : jsstring := [34%N].
Definition newline : jsstring := [10%N].

(** The instruction that opens the context of one document. *)
Definition instruction : jsstring :=
  js "You are an AI assistant. Synthesize a concise one-paragraph summary of the documents using ONLY the information in the provided page contexts."
  ++ newline ++
  js "Answer the user's question and for each fact or claim cite the page number in parentheses, e.g. "
  ++ quote ++ js "(Page 3)" ++ quote ++ js " or " ++ quote ++ js "(Doc: tst.pdf "
  ++ [226%N; 8364%N; 8221%N] ++ js " Page 3)" ++ quote ++ js "." ++ newline ++
  js "If the answer cannot be found in the provided pages, reply exactly: "
  ++ quote ++ js "Not found in the document." ++ quote.

(** [`--- Page n (score=s) ---\n excerpt \n`] *)
Definition contextPart (w : World) (excerptChars : nat) (p : ScoredPage) : jsstring :=
  js "--- Page " ++ decimal (N.of_nat (pageNumber p)) ++ js " (score="
  ++ toFixed4 w (score p) ++ js ") ---" ++ newline
  ++ slice 0 excerptChars (trim (text p)) ++ newline.

(** [vectorSearchForPdfBuffer(buffer, question, opts)] for the document of
    index [fi] in the request.  The test [!buffer] of the source never
    fires: what [readFileSync] returns is an object. *)
Definition vectorSearchForPdfBuffer (w : World) (fi : nat) (buffer : list N)
    (question : jsstring) (opts : Options) : comp (list ScoredPage * jsstring) :=
  if negb (truthy question) then Throw QuestionRequired
  else
    let! fullText :=
      match extractText w buffer with
      | Some t => Ret t
      | None => Throw ExtractionFailed
      end in
    let! pages := Segmenter.splitIntoPages (chunkSizeWords opts) (maxPages opts) fullText in
    let! pageEmbeddings := embedPages w fi pages (batchSize opts) in
    let! qEmb :=
      rethrow EmbeddingQuestionFailed
        (match embedQuestion w fi question with
         | Some v => Ret v
         | None => Throw ProviderCallFailed
         end) in
    let topPages := rank pages pageEmbeddings qEmb (topK opts) in
    let contextParts := map (contextPart w (excerptChars opts)) topPages in
    Ret (topPages, instruction ++ newline ++ newline ++ join newline contextParts).

End VectorStore.

(* ===================================================================== *)
(** ** Upload storage *)
(* ===================================================================== *)

Module Storage.

(** The two kinds of directory the route touches: [UPLOAD_DIR] and
    [path.join(UPLOAD_DIR, uploadId)].  An upload id is taken as one path
    component that names no file of [UPLOAD_DIR], as the generated ids
    are: different ids name different directories, none of them
    [UPLOAD_DIR] itself, and a path [path.join(UPLOAD_DIR, uploadId)]
    that exists is a directory.  An id sent by a client need not be of
    that kind ([.], [..], a path with separators, the name of an uploaded
    file): [RouteSpec.sessionId] tells the ids that are. *)
Inductive Dir : Type :=
| UploadDir
| SessionDir (uploadId : jsstring).

Record Path : Type := { dir : Dir; base : jsstring }.

(** The disk: the files of [UPLOAD_DIR] and, for each session directory
    that exists, its files; a file is its bytes. *)
Record Disk : Type := {
  uploadDir : gmap jsstring (list N);
  sessionDirs : gmap jsstring (gmap jsstring (list N));
}.

(** [fs.existsSync(path.join(UPLOAD_DIR, uploadId))] *)
Definition existsSync (d : Disk) (uploadId : jsstring) : bool :=
  match sessionDirs d !! uploadId with Some _ => true | None => false end.

(** [fs.mkdirSync(path.join(UPLOAD_DIR, uploadId), { recursive: true })] *)
Definition mkdirSync (d : Disk) (uploadId : jsstring) : Disk :=
  match sessionDirs d !! uploadId with
  | Some _ => d
  | None => {| uploadDir := uploadDir d;
               sessionDirs := <[uploadId := ∅]> (sessionDirs d) |}
  end.

(** [fs.readFileSync(p)]; [None] is ENOENT. *)
Definition readFileSync (d : Disk) (p : Path) : option (list N) :=
  match dir p with
  | UploadDir => uploadDir d !! base p
  | SessionDir id => entries ← sessionDirs d !! id; entries !! base p
  end.

(** Creating or replacing the file [p]; [None] when its directory is
    missing. *)
Definition writeFile (d : Disk) (p : Path) (data : list N) : option Disk :=
  match dir p with
  | UploadDir =>
      Some {| uploadDir := <[base p := data]> (uploadDir d);
              sessionDirs := sessionDirs d |}
  | SessionDir id =>
      entries ← sessionDirs d !! id;
      Some {| uploadDir := uploadDir d;
              sessionDirs := <[id := <[base p := data]> entries]> (sessionDirs d) |}
  end.

(** [fs.unlinkSync(p)] *)
Definition unlinkSync (d : Disk) (p : Path) : option Disk :=
  match readFileSync d p with
  | None => None
  | Some _ =>
      match dir p with
      | UploadDir =>
          Some {| uploadDir := delete (base p) (uploadDir d);
                  sessionDirs := sessionDirs d |}
      | SessionDir id =>
          entries ← sessionDirs d !! id;
          Some {| uploadDir := uploadDir d;
                  sessionDirs := <[id := delete (base p) entries]> (sessionDirs d) |}
      end
  end.

(** [fs.copyFileSync(src, dest)] *)
Definition copyFileSync (d : Disk) (src dest : Path) : option Disk :=
  data ← readFileSync d src; writeFile d dest data.

(** [fs.renameSync(src, dest)] when the system accepts the move. *)
Definition renameSync (d : Disk) (src dest : Path) : option Disk :=
  data ← readFileSync d src;
  d' ← unlinkSync d src;
  writeFile d' dest data.

(** [fs.readdirSync(path.join(UPLOAD_DIR, uploadId))], the directory
    being there with the files [entries]. *)
Definition readdirSync (entries : gmap jsstring (list N)) : list jsstring :=
  (map_to_list entries).*1.

End Storage.

(* ===================================================================== *)
(** ** The [/ask] route *)
(* ===================================================================== *)

Module Route.
Import Ranker VectorStore Storage.

(** A file part of the multipart request, with the value of [Date.now()]
    at the moment [multer] names it. *)
Record Part : Type := {
  partName : jsstring;
  partData : list N;
  partTime : N;
}.

(** The request: the file parts of field [pdf] and the text fields
    [uploadId] and [question] of the body. *)
Record Request : Type := {
  parts : list Part;
  bodyUploadId : option jsstring;
  bodyQuestion : option jsstring;
}.

(** A file object, as [multer] builds it and as the route rebuilds it for
    a follow-up. *)
Record File : Type := {
  originalname : jsstring;
  filename : jsstring;
  path : Path;
  size : nat;
  savedToUploadId : option jsstring;
}.

(** The characters that [/[^a-z0-9.\-_]/gi] leaves alone.  Without the
    [u] flag the [i] flag folds no code unit above 127 onto an ASCII
    letter. *)
Definition isSafe (c : N) : bool :=
  isLower c || isUpper c || isDigit c || (c =? 46)%N || (c =? 45)%N || (c =? 95)%N.

(** [file.originalname.replace(/[^a-z0-9.\-_]/gi, "_")] *)
Definition sanitize (s : jsstring) : jsstring :=
  map (fun c => if isSafe c then c else 95%N) s.

(** [`${Date.now()}_${safe}`] *)
Definition storageName (now : N) (originalname : jsstring) : jsstring :=
  decimal now ++ js "_" ++ sanitize originalname.

(** [upload.array("pdf")] with the disk storage: every part is written
    into [UPLOAD_DIR] under its storage name.  Two parts of one request
    with the same storage name are written here one after the other, the
    second replacing the first; what the streams of [multer] leave in
    that case is not modelled, and what is stated about the bytes of the
    stored files is stated for storage names that differ. *)
Fixpoint multerStore (d : Disk) (ps : list Part) : list File * Disk :=
  match ps with
  | [] => ([], d)
  | p :: rest =>
      let name := storageName (partTime p) (partName p) in
      let d1 := {| uploadDir := <[name := partData p]> (uploadDir d);
                   sessionDirs := sessionDirs d |} in
      let '(files, d2) := multerStore d1 rest in
      ({| originalname := partName p; filename := name;
          path := {| dir := UploadDir; base := name |};
          size := length (partData p); savedToUploadId := None |} :: files, d2)
  end.

(** [req.body && req.body.uploadId ? String(req.body.uploadId) : null] *)
Definition uploadIdFromClient (req : Request) : option jsstring :=
  match bodyUploadId req with
  | Some s => if truthy s then Some s else None
  | None => None
  end.

(** The body of the loop that moves an uploaded file: [renameSync], and
    when it throws, [copyFileSync] then [unlinkSync].  [None]: the
    fallback has thrown too; the disk is then as before. *)
Definition moveFile (w : World) (d : Disk) (f : File) (dest : Path) : option Disk :=
  match (if renameFails w (filename f) then None else renameSync d (path f) dest) with
  | Some d' => Some d'
  | None => d1 ← copyFileSync d (path f) dest; unlinkSync d1 (path f)
  end.

Definition moved (f : File) (uploadId : jsstring) : File :=
  {| originalname := originalname f; filename := filename f;
     path := {| dir := SessionDir uploadId; base := filename f |};
     size := size f; savedToUploadId := Some uploadId |}.

(** [for (const f of allFiles) {...}]: the files with their new paths, or
    the exception that left the loop, and the disk at that point. *)
Fixpoint moveAll (w : World) (d : Disk) (uploadId : jsstring) (files : list File)
  : comp (list File) * Disk :=
  match files with
  | [] => (Ret [], d)
  | f :: rest =>
      match moveFile w d f {| dir := SessionDir uploadId; base := filename f |} with
      | None => (Throw FileNotFound, d)
      | Some d1 =>
          let '(r, d2) := moveAll w d1 uploadId rest in
          (let! rest' := r in Ret (moved f uploadId :: rest'), d2)
      end
  end.

(** Lines 83 to 107: with files and no id from the client, take a new id,
    make its directory and move the files into it.  Returns the value of
    [uploadId] and the files. *)
Definition mintAndMove (w : World) (d : Disk) (allFiles : list File)
    (fromClient : option jsstring) : comp (option jsstring * list File) * Disk :=
  match allFiles, fromClient with
  | _ :: _, None =>
      let uploadId := randomUUID w in
      let d1 := if existsSync d uploadId then d else mkdirSync d uploadId in
      let '(r, d2) := moveAll w d1 uploadId allFiles in
      (let! files := r in Ret (Some uploadId, files), d2)
  | _, _ => (Ret (fromClient, allFiles), d)
  end.

(** [n.toLowerCase().endsWith(".pdf")] *)
Definition isPdfName (n : jsstring) : bool := endsWith (toLowerCase n) (js ".pdf").

Fixpoint dropDigits (s : jsstring) : jsstring :=
  match s with
  | [] => []
  | c :: s' => if isDigit c then dropDigits s' else s
  end.

(** [fname.replace(/^\d+_/, "")]: a leading run of digits followed by an
    underscore is removed. *)
Definition stripTimestamp (fname : jsstring) : jsstring :=
  match fname with
  | [] => []
  | c :: s' =>
      if isDigit c then
        match dropDigits s' with
        | 95%N :: rest => rest
        | _ => fname
        end
      else fname
  end.

(** The file object rebuilt from a stored name. *)
Definition storedFile (uploadId : jsstring) (entries : gmap jsstring (list N))
    (fname : jsstring) : File :=
  {| originalname := stripTimestamp fname; filename := fname;
     path := {| dir := SessionDir uploadId; base := fname |};
     size := length (default [] (entries !! fname)); savedToUploadId := None |}.

(** Lines 111 to 137: the files to process and the value of [uploadId]. *)
Definition resolveFiles (d : Disk) (allFiles : list File)
    (fromClient uploadId : option jsstring) : list File * option jsstring :=
  match allFiles, fromClient with
  | [], Some id =>
      match sessionDirs d !! id with
      | Some entries =>
          (map (storedFile id entries) (filter (fun n => isPdfName n = true) (readdirSync entries)),
           Some id)
      | None => ([], uploadId)
      end
  | _, _ => (allFiles, uploadId)
  end.

Record Source : Type := {
  sourceFilename : jsstring;
  sourcePages : list (nat * R);
}.

Inductive Response : Type :=
| Ok200 (answer : jsstring) (sources : list Source) (uploadId : option jsstring)
| Error400 (error : jsstring)
| Error500 (error : jsstring) (details : Err).

Definition noPdfMessage : jsstring :=
  js "No PDFs uploaded (field name must be 'pdf') or uploadId missing/invalid".

Definition noQuestionMessage : jsstring := js "No question provided".

Record PerDoc : Type := {
  docFilename : jsstring;
  docTopPages : list ScoredPage;
  docContext : jsstring;
}.

(** The body of the loop over the files, for the file of index [fi]:
    parse the PDF (three parsers in turn), then search it and tag the
    context with the name of the document. *)
Definition processFile (w : World) (d : Disk) (question : jsstring) (fi : nat)
    (file : File) : comp PerDoc :=
  match readFileSync d (path file) with
  | None => Throw FileNotFound
  | Some buffer =>
      if negb (pdfParse w buffer) then Throw PdfParseFailed
      else
        let! found := vectorSearchForPdfBuffer w fi buffer question defaultOptions in
        Ret {| docFilename := originalname file;
               docTopPages := found.1;
               docContext := tagContext w (originalname file) found.2 |}
  end.

(** How the loop over the files ends: with all documents processed, with a
    response already sent from the [catch] of the loop, or not at all. *)
Inductive LoopEnd : Type :=
| Processed (perDoc : list PerDoc)
| Replied (r : Response)
| Unfinished.

Fixpoint processFiles (w : World) (d : Disk) (question : jsstring) (fi : nat)
    (files : list File) (perDocTopPages : list PerDoc) : LoopEnd :=
  match files with
  | [] => Processed perDocTopPages
  | file :: rest =>
      match processFile w d question fi file with
      | Ret doc => processFiles w d question (S fi) rest (perDocTopPages ++ [doc])
      | Throw e =>
          Replied (Error500 (js "Error parsing/indexing file " ++ originalname file) e)
      | OutOfFuel => Unfinished
      end
  end.

(** The instruction of the combined prompt. *)
Definition instruction : jsstring :=
  js "You are an AI assistant. Use ONLY the information in the provided document page contexts."
  ++ newline ++
  js "Answer the user's question and for each fact or claim cite the document and page number in parentheses, e.g. "
  ++ quote ++ js "(Doc: invoice.pdf " ++ [8212%N] ++ js " Page 3)" ++ quote ++ js ". "
  ++ newline ++
  js "If the answer cannot be found in the provided pages, reply exactly: "
  ++ quote ++ js "Not found in the document." ++ quote.

Definition sourceOf (doc : PerDoc) : Source :=
  {| sourceFilename := docFilename doc;
     sourcePages := map (fun p => (pageNumber p, score p)) (docTopPages doc) |}.

(** [uploadId || null] *)
Definition orNull (uploadId : option jsstring) : option jsstring :=
  match uploadId with
  | Some s => if truthy s then Some s else None
  | None => None
  end.

(** The upload session manager (lines 79 to 137 of the handler): the
    documents of the request and the value of [uploadId], or the exception
    of a failed move; with the disk it leaves. *)
Definition resolveSession (w : World) (d : Disk) (allFiles : list File) (req : Request)
  : comp (list File * option jsstring) * Disk :=
  let fromClient := uploadIdFromClient req in
  let '(minted, d1) := mintAndMove w d allFiles fromClient in
  (let! m := minted in Ret (resolveFiles d1 m.2 fromClient m.1), d1).

(** The handler of [app.post("/ask", ...)], entered with the files that
    [multer] has stored.  It returns the response sent ([None] when a loop
    of the model runs out of fuel) and the disk it leaves. *)
Definition handler (w : World) (d : Disk) (allFiles : list File) (req : Request)
  : option Response * Disk :=
  let '(resolved, d1) := resolveSession w d allFiles req in
  match resolved with
  | Throw e => (Some (Error500 (js "Error processing request") e), d1)
  | OutOfFuel => (None, d1)
  | Ret (files, uploadId) =>
      match files with
      | [] => (Some (Error400 noPdfMessage), d1)
      | _ :: _ =>
          match bodyQuestion req with
          | None | Some [] => (Some (Error400 noQuestionMessage), d1)
          | Some question =>
              match processFiles w d1 question 0 files [] with
              | Replied r => (Some r, d1)
              | Unfinished => (None, d1)
              | Processed perDocTopPages =>
                  let combinedContext :=
                    instruction ++ newline ++ newline
                    ++ join (newline ++ newline) (map docContext perDocTopPages) in
                  match askWithLlama w combinedContext question with
                  | None => (Some (Error500 (js "LLM inference failed") LlamaFailed), d1)
                  | Some answer =>
                      (Some (Ok200 answer (map sourceOf perDocTopPages) (orNull uploadId)), d1)
                  end
              end
          end
      end
  end.

(** A request through the route: [multer] first, then the handler. *)
Definition ask (w : World) (d : Disk) (req : Request) : option Response * Disk :=
  let '(allFiles, d0) := multerStore d (parts req) in
  handler w d0 allFiles req.

(** The file object that [multer] builds for a part. *)
Definition uploaded (p : Part) : File :=
  {| originalname := partName p;
     filename := storageName (partTime p) (partName p);
     path := {| dir := UploadDir; base := storageName (partTime p) (partName p) |};
     size := length (partData p); savedToUploadId := None |}.

(** A file that sits in [UPLOAD_DIR] under its storage name. *)
Definition inUploadDir (f : File) : Prop :=
  path f = {| dir := UploadDir; base := filename f |}.

(** The four characters of [".pdf"], read backwards. *)
Definition fdpDot : jsstring := [102; 100; 112; 46]%N.

(** [toLowerCase] on one code unit. *)
Definition lower (c : N) : N := if isUpper c then (c + 32)%N else c.

(** One of the characters of [".pdf"]. *)
Definition pdfChar (x : N) : Prop := x = 102%N \/ x = 100%N \/ x = 112%N \/ x = 46%N.

End Route.

(* ===================================================================== *)
(** ** The client ([handleSend] of [App.jsx]) *)
(* ===================================================================== *)

Module Client.
Import Route.

Definition fallbackQuestion : jsstring := js "Summarize the uploaded files.".

(** The form that [handleSend] posts for the text [input] of the
    composer, the selected [files] and the [uploadId] kept from an
    earlier answer; [None] when nothing is sent. *)
Definition handleSend (input : jsstring) (files : list Part)
    (uploadId : option jsstring) : option Request :=
  let question := trim input in
  let uploadId := orNull uploadId in
  match uploadId with
  | None =>
      if negb (truthy question) && (length files =? 0) then None
      else Some {| parts := files; bodyUploadId := None;
                   bodyQuestion :=
                     Some (if truthy question then question else fallbackQuestion) |}
  | Some id =>
      Some {| parts := []; bodyUploadId := Some id;
              bodyQuestion :=
                Some (if truthy question then question else fallbackQuestion) |}
  end.

End Client.

(* ===================================================================== *)
(** ** Sample requests *)
(* ===================================================================== *)

Module Demo.
Import Ranker Storage Route.

(** Two pages, ["Alpha"] and ["Beta"], separated by a form feed. *)
Definition twoPages : jsstring := js "Alpha" ++ [formFeed] ++ js "Beta".

(** Nine pages: more than one batch of eight. *)
Definition ninePages : jsstring :=
  js "p1" ++ [formFeed] ++ js "p2" ++ [formFeed] ++ js "p3" ++ [formFeed] ++
  js "p4" ++ [formFeed] ++ js "p5" ++ [formFeed] ++ js "p6" ++ [formFeed] ++
  js "p7" ++ [formFeed] ++ js "p8" ++ [formFeed] ++ js "p9".

(** A world in which every service answers. *)
Definition world : World :=
  {| randomUUID := js "3f2b8c1e-0000-4000-8000-000000000001";
     renameFails := fun _ => false;
     pdfParse := fun _ => true;
     extractText := fun _ => Some twoPages;
     embedBatch := fun _ _ batch => Some (ArrayOf (map (fun _ => JArray [1%R]) batch));
     embedQuestion := fun _ _ => Some (JArray [1%R]);
     toFixed4 := fun _ => js "1.0000";
     tagContext := fun _ context => context;
     askWithLlama := fun _ _ => Some (js "Not found in the document.") |}.

(** The same world, but the embedding provider raises on the second
    batch of a document of nine pages. *)
Definition failingWorld : World :=
  {| randomUUID := randomUUID world;
     renameFails := renameFails world;
     pdfParse := pdfParse world;
     extractText := fun _ => Some ninePages;
     embedBatch := fun fi i batch => if i =? 8 then None else embedBatch world fi i batch;
     embedQuestion := embedQuestion world;
     toFixed4 := toFixed4 world;
     tagContext := tagContext world;
     askWithLlama := askWithLlama world |}.

(** The same world, but the provider returns one embedding for every
    batch, whatever the number of pages in it. *)
Definition shortWorld : World :=
  {| randomUUID := randomUUID world;
     renameFails := renameFails world;
     pdfParse := pdfParse world;
     extractText := extractText world;
     embedBatch := fun _ _ _ => Some (ArrayOf [JArray [1%R]]);
     embedQuestion := embedQuestion world;
     toFixed4 := toFixed4 world;
     tagContext := tagContext world;
     askWithLlama := askWithLlama world |}.

Definition emptyDisk : Disk := {| uploadDir := ∅; sessionDirs := ∅ |}.

Definition report : Part :=
  {| partName := js "my report.pdf"; partData := js "%PDF-1.4"; partTime := 1700000000000%N |}.

Definition question : jsstring := js "what is in the document".

(** A first request: one file, a question, no upload id. *)
Definition firstUpload : Request :=
  {| parts := [report]; bodyUploadId := None; bodyQuestion := Some question |}.

(** One file and an empty question. *)
Definition emptyQuestionUpload : Request :=
  {| parts := [report]; bodyUploadId := None; bodyQuestion := Some [] |}.

(** One file sent together with an upload id. *)
Definition uploadWithId : Request :=
  {| parts := [report]; bodyUploadId := Some (js "abc"); bodyQuestion := Some question |}.

(** A follow-up: no file, the id of an earlier answer. *)
Definition followUp (uploadId : jsstring) : Request :=
  {| parts := []; bodyUploadId := Some uploadId; bodyQuestion := Some question |}.

(** A session directory that holds a PDF, a PDF in upper case and a text
    file. *)
Definition mixedDisk : Disk :=
  {| uploadDir := ∅;
     sessionDirs :=
       {[ js "abc" :=
            {[ js "17_a.pdf" := js "%PDF"; js "18_B.PDF" := js "%PDF";
               js "19_notes.txt" := js "hello" ]} ]} |}.

End Demo.

(** Sample embeddings for the ranker in double precision. *)
Module DoubleDemo.
Import PrimFloat Doubles.

Definition pages : list jsstring := [js "p1"; js "p2"; js "p3"].

Definition question : jsval := JArray [10; 0]%float.

(** The first and the third page have the direction of the question,
    the second is at a right angle to it. *)
Definition aligned : list jsval :=
  [JArray [1; 0]; JArray [0; 1]; JArray [2; 0]]%float.

(** The second page has the coordinate 1e308 (the double
    0x1.1ccf385ebc8ap+1023), whose square is beyond the largest
    double. *)
Definition overflowing : list jsval :=
  [JArray [1; 1]; JArray [0x1.1ccf385ebc8ap+1023; 0]; JArray [1; 0]]%float.

End DoubleDemo.

(* ===================================================================== *)
(** ** Vocabulary of the further properties *)
(* ===================================================================== *)

Module RouteSpec.
Import Ranker Route.

(** The errors that the processing of one document can throw. *)
Definition documentError (e : Err) : Prop :=
  match e with
  | FileNotFound | PdfParseFailed | QuestionRequired | ExtractionFailed
  | EmbeddingPagesFailed _ | EmbeddingQuestionFailed _ => True
  | ProviderCallFailed | UnexpectedBatchSize | LlamaFailed => False
  end.

(** A well-formed entry of the [sources] of an answer: between one and
    five pages, no page twice, page numbers from 1. *)
Definition wellFormedSource (s : Source) : Prop :=
  1 <= length (sourcePages s) <= 5 /\
  NoDup (map fst (sourcePages s)) /\
  Forall (fun ps => 1 <= ps.1) (sourcePages s).

(** An upload id that is one path component: no separator, no NUL, not
    a dot segment.  For such an id [path.join(UPLOAD_DIR, id)] is the
    entry [id] of [UPLOAD_DIR]. *)
Definition plainName (id : jsstring) : bool :=
  forallb (fun c => negb ((c =? 0) || (c =? 47) || (c =? 92))%N) id
  && negb (bool_decide (id = js ".")) && negb (bool_decide (id = js "..")).

(** An upload id that can name nothing but a session directory: one
    path component that is not the name of a file of [UPLOAD_DIR].
    These are the ids for which [Storage.existsSync] and
    [Route.resolveFiles] are the calls of the source: for another id
    [path.join(UPLOAD_DIR, id)] may be a file, [UPLOAD_DIR] itself or a
    path outside of it. *)
Definition sessionId (d : Storage.Disk) (id : jsstring) : Prop :=
  plainName id = true /\ Storage.uploadDir d !! id = None.

(** The upload id that the client sends, when it sends one, is a
    session id. *)
Definition clientSessionId (d : Storage.Disk) (req : Request) : Prop :=
  match uploadIdFromClient req with
  | Some id => sessionId d id
  | None => True
  end.

(** No document can be resolved for a request without files: there is no
    upload id, or no directory of that id, or no name ending in .pdf in
    it. *)
Definition nothingStored (d : Storage.Disk) (req : Request) : Prop :=
  match uploadIdFromClient req with
  | None => True
  | Some id =>
      match Storage.sessionDirs d !! id with
      | None => True
      | Some entries => forall n, is_Some (entries !! n) -> isPdfName n = false
      end
  end.

End RouteSpec.

(* ===================================================================== *)
(** ** The embedding provider ([normalizeProviderResponse],
       [callProviderEmbeddings]) *)
(* ===================================================================== *)

Module Provider.

(** A JavaScript value of the kind a provider response is made of. *)
Inductive jsv : Type :=
| VUndefined
| VNull
| VBool (b : bool)
| VNumber (r : R)
| VString (s : jsstring)
| VArray (items : list jsv)
| VObject (fields : list (jsstring * jsv)).

(** [Array.isArray(v)] *)
Definition isArrayV (v : jsv) : bool :=
  match v with VArray _ => true | _ => false end.

(** [typeof v === "number"] *)
Definition isNumberV (v : jsv) : bool :=
  match v with VNumber _ => true | _ => false end.

(** [typeof v === "object"]: objects, arrays and [null]. *)
Definition isObjectType (v : jsv) : bool :=
  match v with VNull | VArray _ | VObject _ => true | _ => false end.

(** [Boolean(v)] *)
Definition truthyV (v : jsv) : bool :=
  match v with
  | VUndefined | VNull => false
  | VBool b => b
  | VNumber r => if Req_dec_T r 0 then false else true
  | VString s => truthy s
  | VArray _ | VObject _ => true
  end.

(** The value of an own property of an object, [undefined] when it has
    none of that name. *)
Fixpoint lookupField (name : jsstring) (fields : list (jsstring * jsv)) : jsv :=
  match fields with
  | [] => VUndefined
  | (k, v) :: rest => if bool_decide (k = name) then v else lookupField name rest
  end.

(** [v.name] for one of the names [data], [result], [embedding]: a
    TypeError ([None]) on [null] and [undefined], [undefined] on a value
    that is not an object. *)
Definition getField (name : jsstring) (v : jsv) : option jsv :=
  match v with
  | VUndefined | VNull => None
  | VObject fields => Some (lookupField name fields)
  | _ => Some VUndefined
  end.

(** [v?.name] *)
Definition optField (name : jsstring) (v : jsv) : jsv :=
  match v with
  | VObject fields => lookupField name fields
  | _ => VUndefined
  end.

(** [v[0]] on the items of an array. *)
Definition index0 (items : list jsv) : jsv := default VUndefined (head items).

(** The items of an array, none for another value. *)
Definition itemsOf (v : jsv) : list jsv :=
  match v with VArray items => items | _ => [] end.

(** [d => d.embedding || d] *)
Definition embeddingOr (d : jsv) : option jsv :=
  e ← getField (js "embedding") d; Some (if truthyV e then e else d).

(** [list[0]?.embedding || list[0]] *)
Definition firstEmbeddingOr (list : list jsv) : jsv :=
  let x := index0 list in
  let e := optField (js "embedding") x in
  if truthyV e then e else x.

(** [normalizeProviderResponse(res, isArrayInput)]; [None] when it throws
    (a TypeError on the way, or "Unexpected embedding provider response
    shape"). *)
Definition normalizeProviderResponse (res : jsv) (isArrayInput : bool) : option jsv :=
  match res with
  | VArray items =>
      let first := index0 items in
      if isArrayV first && isNumberV (index0 (itemsOf first)) then
        Some (if isArrayInput then res else first)
      else if isObjectType first then
        emb ← getField (js "embedding") first;
        if isArrayV emb then
          if isArrayInput then VArray <$> mapM (getField (js "embedding")) items
          else Some emb
        else None
      else if negb isArrayInput && isNumberV first then Some res
      else None
  | VObject fields =>
      match lookupField (js "data") fields with
      | VArray list =>
          if isArrayInput then VArray <$> mapM embeddingOr list
          else Some (firstEmbeddingOr list)
      | _ =>
          match lookupField (js "result") fields with
          | VArray list =>
              if isArrayInput then VArray <$> mapM embeddingOr list
              else Some (firstEmbeddingOr list)
          | _ =>
              match lookupField (js "embedding") fields with
              | VArray e => Some (if isArrayInput then VArray [VArray e] else VArray e)
              | _ => None
              end
          end
      end
  | _ => None
  end.

(** [callProviderEmbeddings(inputs)] for the response [response] of
    [client.featureExtraction] ([None]: the call throws); [isArray] is
    [Array.isArray(inputs)].  Every exception is rethrown as "Embedding
    provider call failed". *)
Definition callProviderEmbeddings (response : option jsv) (isArray : bool) : comp jsv :=
  match response with
  | None => Throw ProviderCallFailed
  | Some res =>
      match normalizeProviderResponse res isArray with
      | Some v => Ret v
      | None => Throw ProviderCallFailed
      end
  end.

(** The list that a response carries: the response itself, its [data] or
    its [result]. *)
Definition providerList (res : jsv) : option (list jsv) :=
  match res with
  | VArray items => Some items
  | VObject fields =>
      match lookupField (js "data") fields with
      | VArray list => Some list
      | _ =>
          match lookupField (js "result") fields with
          | VArray list => Some list
          | _ => None
          end
      end
  | _ => None
  end.

End Provider.

(* ===================================================================== *)
(** * Properties *)
(* ===================================================================== *)

(** ** Text segmenter *)

Module SegmenterFacts.
Import Segmenter TextSpec.

Lemma chunks_length ws c k : length (chunks ws c k) = k.
Proof. unfold chunks. by rewrite length_map, length_seq. Qed.

Lemma chunks_S ws c k :
  chunks ws c (S k) =
  chunks ws c k ++ [join (js " ") (slice (k * c) (k * c + c) ws)].
Proof. unfold chunks. by rewrite seq_S, map_app. Qed.

Lemma chunks_lookup ws c k j :
  j < k ->
  chunks ws c k !! j = Some (join (js " ") (slice (j * c) (j * c + c) ws)).
Proof.
  intros Hj. unfold chunks. rewrite list_lookup_fmap.
  rewrite lookup_seq_lt by done. reflexivity.
Qed.

(** The loop index [k * c] is inside the word list exactly while fewer
    than [ceil(n / c)] chunks have been pushed. *)
Lemma index_lt_iff_ceil n c k :
  1 <= c -> (k * c < n <-> k < ceilDiv n c).
Proof.
  intros Hc. unfold ceilDiv. split; intros H.
  - apply Nat.div_le_lower_bound; [lia | nia].
  - assert (c * S k <= n + c - 1) as H'.
    { etransitivity; [apply Nat.mul_le_mono_l, H |].
      apply Nat.Div0.mul_div_le. }
    nia.
Qed.

(** The loop, started after [k] passes, returns the first
    [min(ceil(n / c), max(1, maxPages))] chunks. *)
Lemma chunkLoop_chunks ws c maxPages fuel k :
  1 <= c ->
  k = 0 \/ k < maxPages ->
  k <= ceilDiv (length ws) c ->
  maxPages <= fuel + k + 1 ->
  chunkLoop fuel ws c maxPages (k * c) (chunks ws c k) =
  Ret (chunks ws c (Nat.min (ceilDiv (length ws) c) (Nat.max 1 maxPages))).
Proof.
  intros Hc. revert k. induction fuel as [|fuel IH]; intros k Hk Hceil Hfuel.
  - simpl. destruct (Nat.ltb_spec (k * c) (length ws)) as [Hlt|Hge].
    + apply index_lt_iff_ceil in Hlt; [|done].
      rewrite length_app, chunks_length. simpl.
      destruct (Nat.leb_spec maxPages (k + 1)) as [_|Hno]; [|lia].
      rewrite <- chunks_S. do 2 f_equal. lia.
    + assert (~ k < ceilDiv (length ws) c) by (rewrite <- index_lt_iff_ceil; lia).
      do 2 f_equal. lia.
  - simpl. destruct (Nat.ltb_spec (k * c) (length ws)) as [Hlt|Hge].
    + apply index_lt_iff_ceil in Hlt; [|done].
      rewrite length_app, chunks_length. simpl.
      rewrite <- chunks_S.
      destruct (Nat.leb_spec maxPages (k + 1)) as [Hcap|Hno].
      * do 2 f_equal. lia.
      * replace (k * c + c) with (S k * c) by lia.
        apply IH; lia.
    + assert (~ k < ceilDiv (length ws) c) by (rewrite <- index_lt_iff_ceil; lia).
      do 2 f_equal. lia.
Qed.

(** Whatever the step, the loop leaves through its [break] before the
    fuel [maxPages] is used up, and it never removes a page. *)
Lemma chunkLoop_returns ws c maxPages fuel i pages :
  maxPages <= fuel + length pages + 1 ->
  exists r, chunkLoop fuel ws c maxPages i pages = Ret r /\ length pages <= length r.
Proof.
  revert i pages. induction fuel as [|fuel IH]; intros i pages Hfuel; simpl.
  - destruct (i <? length ws); [|eauto].
    rewrite length_app. simpl.
    destruct (Nat.leb_spec maxPages (length pages + 1)); [|lia].
    eexists; split; [done|]. rewrite length_app. simpl. lia.
  - destruct (i <? length ws); [|eauto].
    destruct (Nat.leb_spec maxPages (length (pages ++ [join (js " ") (slice i (i + c) ws)]))) as [|Hno].
    + eexists; split; [done|]. rewrite length_app. simpl. lia.
    + rewrite length_app in Hno. simpl in Hno.
      destruct (IH (i + c) (pages ++ [join (js " ") (slice i (i + c) ws)])) as (r & Hr & Hlen).
      { rewrite length_app. simpl. lia. }
      exists r. split; [done|]. rewrite length_app in Hlen. simpl in Hlen. lia.
Qed.


Lemma trimStart_blank s : blank s -> trimStart s = [].
Proof.
  unfold blank. induction s as [|c s IH]; simpl; [done|].
  intros [Hc Hs]%andb_true_iff. rewrite Hc. auto.
Qed.

Lemma trim_blank s : blank s -> trim s = [].
Proof. intros H. unfold trim, trimEnd. rewrite (trimStart_blank s H). reflexivity. Qed.

Lemma blank_app s t : blank s -> blank t -> blank (s ++ t).
Proof. unfold blank. rewrite forallb_app. intros -> ->. done. Qed.

Lemma splitOn_blank sep s cur :
  blank s -> blank cur -> Forall blank (splitOn sep s cur).
Proof.
  revert cur. induction s as [|c s IH]; intros cur Hs Hcur; simpl.
  - by constructor.
  - pose proof Hs as [Hc Hs']%andb_true_iff.
    destruct (c =? sep)%N.
    + constructor; [done|]. by apply IH.
    + apply IH; [done|]. apply blank_app; [done|].
      unfold blank. simpl. by rewrite Hc.
Qed.

Lemma trimmed_segments_blank (l : list jsstring) :
  Forall blank l -> filter (fun p => truthy p = true) (map trim l) = [].
Proof.
  induction 1 as [|s l Hs _ IH]; [done|].
  simpl. rewrite trim_blank by done. rewrite filter_cons_False; [done|].
  simpl. congruence.
Qed.

Lemma splitRuns_blank s inrun :
  blank s -> Forall (fun w => w = []) (splitRuns s [] inrun).
Proof.
  revert inrun. induction s as [|c s IH]; intros inrun Hs; simpl.
  - by constructor.
  - pose proof Hs as [Hc Hs']%andb_true_iff. rewrite Hc.
    destruct inrun; [by apply IH|]. constructor; [done|]. by apply IH.
Qed.

Lemma words_blank s : blank s -> words s = [].
Proof.
  intros Hs. unfold words, splitWhitespace.
  pose proof (splitRuns_blank s false Hs) as H.
  induction H as [|w l -> _ IH]; [done|].
  rewrite filter_cons_False; [done|]. simpl. congruence.
Qed.

(** Splitting into pages always returns. *)
Lemma splitIntoPages_returns chunkSizeWords maxPages fullText :
  exists pages, splitIntoPages chunkSizeWords maxPages fullText = Ret pages.
Proof.
  unfold splitIntoPages. destruct (includes formFeed fullText); simpl; [eauto|].
  destruct (chunkLoop_returns (words fullText) chunkSizeWords maxPages maxPages 0 [])
    as (r & -> & _); [simpl; lia|].
  simpl. eauto.
Qed.

(** The pages of a text without form feed, in terms of what the source
    calls its words. *)
Lemma splitIntoPages_word_chunks (chunkSizeWords maxPages : nat) (fullText : jsstring) :
  includes formFeed fullText = false ->
  words fullText <> [] ->
  1 <= chunkSizeWords ->
  exists pages,
    splitIntoPages chunkSizeWords maxPages fullText = Ret pages /\
    length pages =
      Nat.min (ceilDiv (length (words fullText)) chunkSizeWords) maxPages /\
    forall j, j < length pages ->
      pages !! j =
        Some (join (js " ")
                (slice (j * chunkSizeWords) (j * chunkSizeWords + chunkSizeWords)
                   (words fullText))).
Proof.
  intros Hff Hws Hc.
  set (ws := words fullText) in *.
  set (T := Nat.min (ceilDiv (length ws) chunkSizeWords) (Nat.max 1 maxPages)).
  assert (1 <= ceilDiv (length ws) chunkSizeWords) as Hceil.
  { apply (index_lt_iff_ceil (length ws) chunkSizeWords 0 Hc).
    destruct ws; [done|simpl; lia]. }
  assert (splitIntoPages chunkSizeWords maxPages fullText =
          Ret (if maxPages <? T then slice 0 maxPages (chunks ws chunkSizeWords T)
               else chunks ws chunkSizeWords T)) as Hrun.
  { unfold splitIntoPages. rewrite Hff. fold ws.
    pose proof (chunkLoop_chunks ws chunkSizeWords maxPages maxPages 0 Hc) as Hloop.
    change (0 * chunkSizeWords) with 0 in Hloop.
    change (chunks ws chunkSizeWords 0) with (@nil jsstring) in Hloop.
    rewrite Hloop by lia. fold T. simpl.
    destruct (chunks ws chunkSizeWords T) as [|p ps] eqn:Hch.
    - apply (f_equal length) in Hch. rewrite chunks_length in Hch.
      simpl in Hch. lia.
    - rewrite <- Hch, chunks_length. reflexivity. }
  rewrite Hrun.
  destruct (Nat.ltb_spec maxPages T) as [Hcap|Hcap].
  - exists (slice 0 maxPages (chunks ws chunkSizeWords T)).
    assert (length (slice 0 maxPages (chunks ws chunkSizeWords T)) = maxPages) as Hlen.
    { unfold slice. rewrite length_take, drop_0, chunks_length. lia. }
    split; [done|]. split; [lia|].
    intros j Hj. unfold slice. rewrite drop_0, Nat.sub_0_r.
    rewrite lookup_take_lt by lia. apply chunks_lookup. lia.
  - eexists. split; [done|]. rewrite chunks_length. split; [lia|].
    intros j Hj. by apply chunks_lookup.
Qed.


(** *** The words of a text *)

Lemma noSpace_app s t : noSpace s -> noSpace t -> noSpace (s ++ t).
Proof. unfold noSpace. rewrite forallb_app. by intros -> ->. Qed.

Lemma splitRuns_word w rest cur inrun :
  noSpace w ->
  splitRuns (w ++ rest) cur inrun =
  splitRuns rest (cur ++ w) (match w with [] => inrun | _ :: _ => false end).
Proof.
  revert cur inrun. induction w as [|c w IH]; intros cur inrun Hw; simpl.
  - by rewrite app_nil_r.
  - apply andb_true_iff in Hw as [Hc Hw]. apply negb_true_iff in Hc. rewrite Hc.
    rewrite IH by done. rewrite <- app_assoc. simpl. by destruct w.
Qed.

(** White space in front of a text adds only empty strings to the result
    of the split. *)
Lemma splitRuns_gap gap rest inrun :
  blank gap ->
  filter (fun w => truthy w = true) (splitRuns (gap ++ rest) [] inrun) =
  filter (fun w => truthy w = true)
    (splitRuns rest [] (match gap with [] => inrun | _ :: _ => true end)).
Proof.
  revert inrun. induction gap as [|c gap IH]; intros inrun Hgap; [done|].
  pose proof Hgap as [Hc Hgap']%andb_true_iff.
  simpl. rewrite Hc.
  assert (filter (fun w => truthy w = true) (splitRuns (gap ++ rest) [] true) =
          filter (fun w => truthy w = true) (splitRuns rest [] true)) as Hrest.
  { rewrite IH by done. by destruct gap. }
  destruct inrun; [done|].
  rewrite filter_cons_False; [done|]. simpl. congruence.
Qed.

Lemma wordsOfText_nil ws : wordsOfText [] ws -> ws = [].
Proof.
  intros H. remember (@nil N) as s eqn:Hs.
  destruct H as [s _|gap w rest ws _ [Hne _] _ _]; [done|].
  by apply app_eq_nil in Hs as [_ [? _]%app_eq_nil].
Qed.

Lemma splitRuns_wordsOfText s ws :
  wordsOfText s ws ->
  forall inrun, filter (fun w => truthy w = true) (splitRuns s [] inrun) = ws.
Proof.
  induction 1 as [s Hs|gap w rest ws Hgap [Hne Hw] Hrest Hws IH]; intros inrun.
  - pose proof (splitRuns_blank s inrun Hs) as H.
    induction H as [|w l -> _ IHl]; [done|].
    rewrite filter_cons_False; [done|]. simpl. congruence.
  - rewrite splitRuns_gap by done.
    rewrite splitRuns_word by done. simpl app.
    destruct w as [|c0 w0]; [done|].
    destruct rest as [|c rest].
    + apply wordsOfText_nil in Hws as ->. simpl.
      by rewrite filter_cons_True.
    + specialize (IH true). simpl in IH. rewrite Hrest in IH.
      simpl. rewrite Hrest.
      rewrite filter_cons_True by done. by rewrite IH.
Qed.

(** What the source calls the words of a text are its words. *)
Lemma words_of_text s ws : wordsOfText s ws -> words s = ws.
Proof. intros H. apply (splitRuns_wordsOfText s ws H false). Qed.

Lemma wordsOfText_blank s : wordsOfText s [] -> blank s.
Proof. by inversion 1. Qed.

(** Every text has words in this sense (possibly none). *)
Lemma every_text_has_words s : exists ws, wordsOfText s ws.
Proof.
  induction s as [|c s [ws IH]].
  - exists []. by constructor.
  - destruct (isWhiteSpace c) eqn:Hc.
    + destruct IH as [s Hs|gap w rest ws Hgap Hw Hrest Hws].
      * exists []. constructor. unfold blank. simpl. by rewrite Hc.
      * exists (w :: ws).
        apply (next_word (c :: gap) w rest ws); try done.
        unfold blank. simpl. by rewrite Hc.
    + assert (isWord [c]) as Hword.
      { split; [done|]. unfold noSpace. simpl. by rewrite Hc. }
      destruct IH as [s Hs|gap w rest ws Hgap [Hne Hw] Hrest Hws].
      * exists [[c]].
        apply (next_word [] [c] s []); try done.
        -- destruct s as [|c' s]; [done|]. by apply andb_true_iff in Hs as [? _].
        -- by constructor.
      * destruct gap as [|g gap].
        -- exists ((c :: w) :: ws).
           apply (next_word [] (c :: w) rest ws); try done.
           split; [done|]. unfold noSpace in *. simpl. by rewrite Hc.
        -- exists ([c] :: w :: ws).
           apply (next_word [] [c] ((g :: gap) ++ w ++ rest) (w :: ws)); try done.
           ++ by apply andb_true_iff in Hgap as [? _].
           ++ by constructor.
Qed.

(** C7. A text with no form feed whose words, the maximal runs of code
    units that are not white space, are [ws], at least one, is cut into
    ceil(length ws / chunkSizeWords) units, at most maxPages of them; the
    unit of index [j] joins the words [j * chunkSizeWords] to
    [(j + 1) * chunkSizeWords - 1] of the text with single spaces, so the
    units follow the order of the words. *)
Theorem C7_word_chunk_count (chunkSizeWords maxPages : nat) (fullText : jsstring)
    (ws : list jsstring) :
  includes formFeed fullText = false ->
  wordsOfText fullText ws ->
  ws <> [] ->
  1 <= chunkSizeWords ->
  exists pages,
    splitIntoPages chunkSizeWords maxPages fullText = Ret pages /\
    length pages = Nat.min (ceilDiv (length ws) chunkSizeWords) maxPages /\
    forall j, j < length pages ->
      pages !! j =
        Some (join (js " ")
                (slice (j * chunkSizeWords) (j * chunkSizeWords + chunkSizeWords) ws)).
Proof.
  intros Hff Hws Hne Hc. apply words_of_text in Hws as <-.
  by apply splitIntoPages_word_chunks.
Qed.

(** The witness of C7: the three words of ["a b  c"], two of them
    separated by two spaces, with chunks of two words and the default
    page cap, make two units: ["a b"] and ["c"]. *)
Lemma C7_word_chunk_count_witness :
  exists pages,
    splitIntoPages 2 400 (js "a b  c") = Ret pages /\
    length pages = 2 /\
    forall j, j < length pages ->
      pages !! j =
        Some (join (js " ") (slice (j * 2) (j * 2 + 2) [js "a"; js "b"; js "c"])).
Proof.
  refine (C7_word_chunk_count 2 400 (js "a b  c") [js "a"; js "b"; js "c"] _ _ _ _).
  - reflexivity.
  - apply (next_word [] (js "a") (js " b  c") [js "b"; js "c"]);
      [reflexivity|split; [discriminate|reflexivity]|reflexivity|].
    apply (next_word (js " ") (js "b") (js "  c") [js "c"]);
      [reflexivity|split; [discriminate|reflexivity]|reflexivity|].
    apply (next_word (js "  ") (js "c") [] []);
      [reflexivity|split; [discriminate|reflexivity]|exact I|].
    apply no_word. reflexivity.
  - discriminate.
  - lia.
Defined.

(** The two units of the witness. *)
Example a_b_c_pages : splitIntoPages 2 400 (js "a b  c") = Ret [js "a b"; js "c"].
Proof. vm_compute. reflexivity. Qed.

Lemma cap_keeps_one (pages : list jsstring) maxPages :
  1 <= maxPages -> pages <> [] ->
  1 <= length (if maxPages <? length pages then slice 0 maxPages pages else pages).
Proof.
  intros Hmax Hne.
  assert (1 <= length pages) by (destruct pages; [done|simpl; lia]).
  destruct (Nat.ltb_spec maxPages (length pages)); [|done].
  unfold slice. rewrite length_take, drop_0. lia.
Qed.

(** C8. With a page cap of at least one, every text yields at least one
    unit, and an empty or white-space-only text yields exactly one unit,
    whose text is the input itself. *)
Theorem C8_blank_text_single_unit (chunkSizeWords maxPages : nat) (fullText : jsstring) :
  1 <= maxPages ->
  exists pages,
    splitIntoPages chunkSizeWords maxPages fullText = Ret pages /\
    1 <= length pages /\
    (forallb isWhiteSpace fullText = true -> pages = [fullText]).
Proof.
  intros Hmax. unfold splitIntoPages.
  destruct (includes formFeed fullText) eqn:Hff.
  - simpl.
    set (segs := filter _ (map trim (split formFeed fullText))).
    eexists. split; [done|]. split.
    + apply cap_keeps_one; [done|]. by destruct segs.
    + intros Hblank. subst segs.
      rewrite trimmed_segments_blank.
      2:{ apply splitOn_blank; [done|reflexivity]. }
      simpl. destruct (Nat.ltb_spec maxPages 1); [lia|done].
  - destruct (chunkLoop_returns (words fullText) chunkSizeWords maxPages maxPages 0 [])
      as (r & Hr & _); [simpl; lia|].
    rewrite Hr. simpl. eexists. split; [done|]. split.
    + apply cap_keeps_one; [done|]. by destruct r.
    + intros Hblank. rewrite (words_blank _ Hblank) in Hr.
      destruct maxPages; simpl in Hr; injection Hr as <-.
      * lia.
      * simpl. done.
Qed.

(** The witness of C8: a text of two spaces and a form feed, default
    options. *)
Lemma C8_blank_text_single_unit_witness :
  exists pages,
    splitIntoPages 300 400 [32; 12; 32]%N = Ret pages /\
    1 <= length pages /\
    (forallb isWhiteSpace [32; 12; 32]%N = true -> pages = [[32; 12; 32]%N]).
Proof. apply (C8_blank_text_single_unit 300 400 [32; 12; 32]%N). lia. Defined.

(** The scenario of the specification: ["Alpha"], a form feed, ["Beta"]
    give the two units ["Alpha"] and ["Beta"]. *)
Example alpha_beta_pages :
  splitIntoPages 300 400 Demo.twoPages = Ret [js "Alpha"; js "Beta"].
Proof. reflexivity. Qed.

End SegmenterFacts.

(** ** Similarity ranker *)

Module RankerFacts.
Import Ranker.



Lemma insert_perm a l : insert a l ≡ₚ a :: l.
Proof.
  induction l as [|b l IH]; simpl; [done|].
  destruct (Rlt_dec 0 (comparefn a b)); [|done].
  rewrite IH. apply Permutation_swap.
Qed.

Lemma sort_perm l : sort l ≡ₚ l.
Proof.
  induction l as [|a l IH]; simpl; [done|].
  rewrite insert_perm. by constructor.
Qed.

Lemma sort_length l : length (sort l) = length l.
Proof. apply Permutation_length, sort_perm. Qed.

Lemma insert_sorted a l :
  StronglySorted precedes l ->
  Forall (earlier a) l ->
  StronglySorted precedes (insert a l).
Proof.
  induction 1 as [|b l Hl IH Hb]; intros Ha; simpl.
  - repeat constructor.
  - apply Forall_cons in Ha as [Hab Ha].
    unfold comparefn. destruct (Rlt_dec 0 (score b - score a)) as [Hlt|Hge].
    + constructor; [by apply IH|].
      rewrite insert_perm. constructor; [|done].
      left. lra.
    + constructor; [by constructor|].
      assert (precedes a b) as Hpab.
      { unfold precedes, earlier in *.
        destruct (Rlt_dec (score b) (score a)); [by left|right].
        split; [lra|done]. }
      constructor; [done|].
      rewrite Forall_forall in Hb, Ha |- *. intros c Hc.
      specialize (Hb c Hc). specialize (Ha c Hc).
      unfold precedes, earlier in *.
      destruct (Rlt_dec (score c) (score a)); [by left|right].
      split; [lra|done].
Qed.

Lemma sort_sorted l :
  StronglySorted earlier l -> StronglySorted precedes (sort l).
Proof.
  induction 1 as [|a l Hl IH Ha]; simpl; [constructor|].
  apply insert_sorted; [done|]. by rewrite sort_perm.
Qed.

Lemma StronglySorted_lookup {A} (rel : A -> A -> Prop) (l : list A) i j x y :
  StronglySorted rel l -> i < j -> l !! i = Some x -> l !! j = Some y -> rel x y.
Proof.
  intros Hl. revert i j. induction Hl as [|a l Hl IH Ha]; intros i j Hij Hi Hj.
  - done.
  - destruct j as [|j]; [lia|]. simpl in Hj.
    destruct i as [|i]; simpl in Hi.
    + injection Hi as <-. rewrite Forall_forall in Ha. apply Ha.
      by eapply list_elem_of_lookup_2.
    + eapply (IH i j); [lia|done..].
Qed.

Lemma seq_increasing start n : StronglySorted lt (seq start n).
Proof.
  revert start. induction n as [|n IH]; intros start; simpl; constructor; [done|].
  rewrite Forall_forall. intros x Hx%list_elem_of_In. apply in_seq in Hx. lia.
Qed.

Lemma scorePages_pageNumbers pages pageEmbeddings qEmb :
  map pageNumber (scorePages pages pageEmbeddings qEmb) = seq 1 (length pages).
Proof.
  apply list_eq. intros i. unfold scorePages.
  rewrite list_lookup_fmap, list_lookup_imap.
  destruct (pages !! i) as [t|] eqn:Hi; simpl.
  - apply lookup_lt_Some in Hi as Hlt.
    rewrite lookup_seq_lt by done. f_equal. lia.
  - apply lookup_ge_None in Hi. symmetry. apply lookup_ge_None.
    by rewrite length_seq.
Qed.

Lemma scorePages_length pages pageEmbeddings qEmb :
  length (scorePages pages pageEmbeddings qEmb) = length pages.
Proof. unfold scorePages. apply length_imap. Qed.

Lemma StronglySorted_map_inv {A B} (f : A -> B) (rel : B -> B -> Prop) (l : list A) :
  StronglySorted rel (map f l) -> StronglySorted (fun x y => rel (f x) (f y)) l.
Proof.
  induction l as [|a l IH]; simpl; intros H; [constructor|].
  apply StronglySorted_inv in H as [Hl Ha]. constructor; [by apply IH|].
  rewrite Forall_forall in Ha. rewrite Forall_forall. intros x Hx. apply Ha.
  by apply list_elem_of_fmap_2.
Qed.

Lemma scorePages_increasing pages pageEmbeddings qEmb :
  StronglySorted earlier (scorePages pages pageEmbeddings qEmb).
Proof.
  apply (StronglySorted_map_inv pageNumber lt).
  rewrite scorePages_pageNumbers. apply seq_increasing.
Qed.

Lemma cosineSums_from (a b : list R) (dot na nb : R) :
  length a = length b ->
  fold_left
    (fun acc xy =>
       let '(dot, na, nb) := acc in
       let '(x, y) := xy in
       (dot + x * y, na + x * x, nb + y * y)%R)
    (combine a b) (dot, na, nb) =
  (dot + dotProduct a b, na + normSq a, nb + normSq b)%R.
Proof.
  revert b dot na nb. induction a as [|x a IH]; intros [|y b] dot na nb Hlen;
    simpl in *; try discriminate.
  - f_equal; [f_equal|]; lra.
  - rewrite IH by lia. f_equal; [f_equal|]; lra.
Qed.

Lemma cosineSums_eq (a b : list R) :
  length a = length b ->
  cosineSums a b = (dotProduct a b, normSq a, normSq b).
Proof.
  intros Hlen. unfold cosineSums. rewrite cosineSums_from by done.
  f_equal; [f_equal|]; lra.
Qed.




(** Three pages without embeddings all score 0; the best two are the
    first two pages, in page order. *)
Example equal_scores_keep_page_order :
  forall a b c : jsstring, map pageNumber (rank [a; b; c] [] JOther 2) = [1; 2].
Proof.
  intros a b c. unfold rank, topPagesOf, scorePages, slice, sort. simpl.
  unfold comparefn. simpl.
  repeat match goal with
         | |- context [Rlt_dec ?x ?y] =>
             destruct (Rlt_dec x y) as [Hlt|_];
               [exfalso; unfold comparefn in Hlt; simpl in Hlt; lra|]; simpl
         end.
  reflexivity.
Qed.

End RankerFacts.

(* ===================================================================== *)
(** ** The order of the doubles *)
(* ===================================================================== *)

(** The comparisons of IEEE 754 on doubles that are not NaN are the order
    of the keys, and the sign of a difference [y - x] tells whether
    [x < y]: a difference of two doubles is 0 only when they are equal. *)

Module Binary64Facts.
Import SpecFloat FloatOps FloatAxioms Binary64.
#[local] Open Scope Z_scope.

Lemma digits2_pos_bounds m :
  2 ^ (Zpos (digits2_pos m) - 1) <= Zpos m < 2 ^ Zpos (digits2_pos m).
Proof.
  induction m as [m IH|m IH|]; simpl digits2_pos.
  - rewrite Pos2Z.inj_succ.
    replace (Z.succ (Zpos (digits2_pos m)) - 1) with (Z.succ (Zpos (digits2_pos m) - 1)) by lia.
    rewrite !Z.pow_succ_r by lia. lia.
  - rewrite Pos2Z.inj_succ.
    replace (Z.succ (Zpos (digits2_pos m)) - 1) with (Z.succ (Zpos (digits2_pos m) - 1)) by lia.
    rewrite !Z.pow_succ_r by lia. lia.
  - simpl. lia.
Qed.

Lemma bounded_inv m e :
  bounded prec emax m e = true ->
  -1074 <= e <= 971 /\ Zpos (digits2_pos m) <= 53 /\
  (e = -1074 \/ Zpos (digits2_pos m) = 53).
Proof.
  unfold bounded, canonical_mantissa, fexp, SpecFloat.emin, prec, emax.
  intros [Hc He]%andb_true_iff.
  apply Z.eqb_eq in Hc. apply Z.leb_le in He. lia.
Qed.

Lemma pow2_pos a : 0 <= a -> 0 < 2 ^ a.
Proof. intros. by apply Z.pow_pos_nonneg. Qed.

Lemma finite_key_pos m e : -1074 <= e -> 0 < Zpos m * 2 ^ (e + 1074).
Proof. intros. apply Z.mul_pos_pos; [done|]. apply pow2_pos. lia. Qed.

Lemma finite_key_bound m e :
  bounded prec emax m e = true -> Zpos m * 2 ^ (e + 1074) < huge.
Proof.
  intros (He & Hd & _)%bounded_inv.
  pose proof (digits2_pos_bounds m) as [_ Hm].
  assert (2 ^ Zpos (digits2_pos m) <= 2 ^ 53) by (apply Z.pow_le_mono_r; lia).
  assert (2 ^ (e + 1074) <= 2 ^ 2045) by (apply Z.pow_le_mono_r; lia).
  assert (0 < 2 ^ (e + 1074)) by (apply pow2_pos; lia).
  unfold huge. change (2 ^ 2098) with (2 ^ 53 * 2 ^ 2045).
  apply Z.lt_le_trans with (2 ^ 53 * 2 ^ (e + 1074)).
  - apply Z.mul_lt_mono_pos_r; lia.
  - apply Z.mul_le_mono_nonneg_l; lia.
Qed.

(** Of two canonical mantissas, the one with the smaller exponent is the
    smaller number. *)
Lemma smaller_exponent m1 e1 m2 e2 :
  bounded prec emax m1 e1 = true -> bounded prec emax m2 e2 = true ->
  e1 < e2 ->
  Zpos m1 * 2 ^ (e1 + 1074) < Zpos m2 * 2 ^ (e2 + 1074).
Proof.
  intros (He1 & Hd1 & _)%bounded_inv (He2 & _ & Hd2)%bounded_inv Hlt.
  destruct Hd2 as [?|Hd2]; [lia|].
  pose proof (digits2_pos_bounds m1) as [_ Hm1].
  pose proof (digits2_pos_bounds m2) as [Hm2 _]. rewrite Hd2 in Hm2.
  assert (2 ^ Zpos (digits2_pos m1) <= 2 ^ 53) by (apply Z.pow_le_mono_r; lia).
  assert (0 < 2 ^ (e1 + 1074)) as Hp1 by (apply pow2_pos; lia).
  assert (2 * 2 ^ (e1 + 1074) <= 2 ^ (e2 + 1074)) as Hp2.
  { rewrite <- Z.pow_succ_r by lia. apply Z.pow_le_mono_r; lia. }
  change (2 ^ (53 - 1)) with (2 ^ 52) in Hm2.
  change (2 ^ 53) with (2 * 2 ^ 52) in *.
  assert (0 < 2 ^ 52) by done.
  generalize dependent (2 ^ 52). generalize dependent (2 ^ (e1 + 1074)).
  generalize dependent (2 ^ (e2 + 1074)). intros. nia.
Qed.

Lemma huge_pos : 0 < huge.
Proof. done. Qed.

Ltac by_order :=
  f_equal; symmetry;
  first [apply Z.compare_eq_iff; lia | apply Z.compare_lt_iff; lia
        | apply Z.compare_gt_iff; lia].

Lemma compare_key x y :
  valid_binary x = true -> valid_binary y = true ->
  x <> S754_nan -> y <> S754_nan ->
  SFcompare x y = Some (key x ?= key y).
Proof.
  pose proof huge_pos as Hh.
  destruct x as [sx|sx| |sx mx ex], y as [sy|sy| |sy my ey]; try done;
    intros Hx Hy _ _; simpl in Hx, Hy; unfold key, SFcompare, cond_Zopp.
  - destruct sy; by_order.
  - pose proof (bounded_inv _ _ Hy) as (He & _).
    pose proof (finite_key_pos my ey ltac:(lia)).
    destruct sy; by_order.
  - destruct sx; by_order.
  - destruct sx, sy; by_order.
  - pose proof (bounded_inv _ _ Hy) as (He & _).
    pose proof (finite_key_pos my ey ltac:(lia)).
    pose proof (finite_key_bound my ey Hy).
    destruct sx, sy; by_order.
  - pose proof (bounded_inv _ _ Hx) as (He & _).
    pose proof (finite_key_pos mx ex ltac:(lia)).
    destruct sx; by_order.
  - pose proof (bounded_inv _ _ Hx) as (He & _).
    pose proof (finite_key_pos mx ex ltac:(lia)).
    pose proof (finite_key_bound mx ex Hx).
    destruct sx, sy; by_order.
  - pose proof (bounded_inv _ _ Hx) as (Hex & _).
    pose proof (bounded_inv _ _ Hy) as (Hey & _).
    pose proof (finite_key_pos mx ex ltac:(lia)) as Hpx.
    pose proof (finite_key_pos my ey ltac:(lia)) as Hpy.
    assert (0 < 2 ^ (ex + 1074)) as Hp by (apply pow2_pos; lia).
    destruct sx, sy.
    + rewrite Z.compare_opp.
      destruct (Z.compare_spec ex ey) as [->|Hlt|Hgt].
      * change (Pos.compare_cont Eq mx my) with (Zpos mx ?= Zpos my).
        destruct (Z.compare_spec (Zpos mx) (Zpos my)) as [Heq|Hl|Hg];
          simpl; f_equal; symmetry.
        -- apply Z.compare_eq_iff. by rewrite Heq.
        -- apply Z.compare_gt_iff. by apply Z.mul_lt_mono_pos_r.
        -- apply Z.compare_lt_iff. by apply Z.mul_lt_mono_pos_r.
      * f_equal. symmetry. apply Z.compare_gt_iff. by apply smaller_exponent.
      * f_equal. symmetry. apply Z.compare_lt_iff. by apply smaller_exponent.
    + by_order.
    + by_order.
    + destruct (Z.compare_spec ex ey) as [->|Hlt|Hgt].
      * change (Pos.compare_cont Eq mx my) with (Zpos mx ?= Zpos my).
        destruct (Z.compare_spec (Zpos mx) (Zpos my)) as [Heq|Hl|Hg];
          f_equal; symmetry.
        -- apply Z.compare_eq_iff. by rewrite Heq.
        -- apply Z.compare_lt_iff. by apply Z.mul_lt_mono_pos_r.
        -- apply Z.compare_gt_iff. by apply Z.mul_lt_mono_pos_r.
      * f_equal. symmetry. apply Z.compare_lt_iff. by apply smaller_exponent.
      * f_equal. symmetry. apply Z.compare_gt_iff. by apply smaller_exponent.
Qed.

(** *** Rounding a positive integer does not give zero *)

Lemma iter_pos_nat {A} (f : A -> A) (n : positive) (x : A) :
  iter_pos f n x = Nat.iter (Pos.to_nat n) f x.
Proof.
  revert x. induction n as [n IH|n IH|]; intros x; cbn [iter_pos].
  - rewrite !IH, Pos2Nat.inj_xI.
    rewrite <- Nat.iter_succ_r, <- Nat.iter_add. f_equal. lia.
  - rewrite !IH, Pos2Nat.inj_xO, <- Nat.iter_add. f_equal. lia.
  - done.
Qed.

Lemma shr_1_digits r m :
  shr_m r = Zpos m -> 1 < Zpos (digits2_pos m) ->
  exists m', shr_m (shr_1 r) = Zpos m' /\
             Zpos (digits2_pos m') = Zpos (digits2_pos m) - 1.
Proof.
  destruct r as [m0 b s]. simpl. intros -> Hd.
  destruct m as [p|p|]; simpl in *; [| |lia]; exists p; (split; [done|lia]).
Qed.

Lemma iter_shr_1_digits k r m :
  shr_m r = Zpos m -> Z.of_nat k < Zpos (digits2_pos m) ->
  exists m', shr_m (Nat.iter k shr_1 r) = Zpos m' /\
             Zpos (digits2_pos m') = Zpos (digits2_pos m) - Z.of_nat k.
Proof.
  intros Hr. induction k as [|k IH]; intros Hk.
  - exists m. split; [done|simpl; lia].
  - destruct IH as (m1 & Hm1 & Hd1); [lia|].
    destruct (shr_1_digits _ _ Hm1) as (m2 & Hm2 & Hd2); [lia|].
    exists m2. simpl. split; [done|lia].
Qed.

Lemma shr_m_of_loc m l : shr_m (shr_record_of_loc m l) = m.
Proof. by destruct l as [|[]]. Qed.

Lemma shr_fexp_pos m e l :
  -1074 <= e ->
  exists r e' m',
    shr_fexp prec emax (Zpos m) e l = (r, e') /\ shr_m r = Zpos m' /\ -1074 <= e'.
Proof.
  intros He. unfold shr_fexp, shr. simpl Zdigits2.
  destruct (fexp prec emax (Zpos (digits2_pos m) + e) - e) as [|p|p] eqn:Hn.
  - do 3 eexists. split; [done|]. split; [apply shr_m_of_loc|done].
  - unfold fexp, SpecFloat.emin, prec, emax in Hn.
    destruct (iter_shr_1_digits (Pos.to_nat p) (shr_record_of_loc (Zpos m) l) m)
      as (m' & Hm' & _); [apply shr_m_of_loc|rewrite positive_nat_Z; lia|].
    do 3 eexists. split; [done|]. rewrite iter_pos_nat. split; [done|lia].
  - do 3 eexists. split; [done|]. split; [apply shr_m_of_loc|done].
Qed.

Lemma round_nearest_even_pos m l :
  exists m', round_nearest_even (Zpos m) l = Zpos m'.
Proof.
  destruct l as [|[]]; simpl; eauto. destruct m; simpl; eauto.
Qed.

Lemma binary_round_aux_pos s m e l :
  -1074 <= e ->
  binary_round_aux prec emax s (Zpos m) e l = S754_infinity s \/
  exists m' e', binary_round_aux prec emax s (Zpos m) e l = S754_finite s m' e'.
Proof.
  intros He. unfold binary_round_aux.
  destruct (shr_fexp_pos m e l He) as (r1 & e1 & m1 & -> & Hm1 & He1).
  rewrite Hm1.
  destruct (round_nearest_even_pos m1 (loc_of_shr_record r1)) as [m2 ->].
  destruct (shr_fexp_pos m2 e1 loc_Exact He1) as (r3 & e3 & m3 & -> & -> & He3).
  destruct (e3 <=? emax - prec)%Z; eauto.
Qed.

Lemma binary_round_pos s m e :
  -1074 <= e ->
  binary_round prec emax s m e = S754_infinity s \/
  exists m' e', binary_round prec emax s m e = S754_finite s m' e'.
Proof.
  intros He. unfold binary_round, shl_align.
  destruct (fexp prec emax (Zpos (digits2_pos m) + e) - e) as [|p|p] eqn:Hn;
    apply binary_round_aux_pos; try done.
  unfold fexp, SpecFloat.emin, prec, emax. lia.
Qed.

(** The mantissa aligned on a smaller exponent. *)
Lemma shl_align_value m e ez :
  ez <= e -> Zpos (fst (shl_align m e ez)) = Zpos m * 2 ^ (e - ez).
Proof.
  intros Hle. unfold shl_align.
  destruct (ez - e) as [|p|p] eqn:Hd; simpl.
  - replace (e - ez) with 0 by lia. lia.
  - lia.
  - change (Pos.iter xO m p) with (shift_pos p m).
    rewrite shift_pos_correct, Z.pow_pos_fold.
    replace (e - ez) with (Zpos p) by lia. lia.
Qed.

(** The number that the key of a finite double measures is an integer
    multiple of 2 ^ -1074. *)
Lemma aligned_key m e ez :
  -1074 <= ez <= e ->
  Zpos (fst (shl_align m e ez)) * 2 ^ (ez + 1074) = Zpos m * 2 ^ (e + 1074).
Proof.
  intros H. rewrite shl_align_value by lia.
  rewrite <- Z.mul_assoc, <- Z.pow_add_r by lia. do 2 f_equal. lia.
Qed.

Lemma zero_ltb_positive x : positive_sf x -> SFltb (S754_zero false) x = true.
Proof. by intros [->|(m & e & ->)]. Qed.

(** The sign of a difference of two doubles is the order of their keys. *)
Lemma sub_sign x y :
  valid_binary x = true -> valid_binary y = true ->
  x <> S754_nan -> y <> S754_nan ->
  SFltb (S754_zero false) (SF64sub y x) = (key x <? key y).
Proof.
  pose proof huge_pos as Hh.
  destruct x as [sx|sx| |sx mx ex], y as [sy|sy| |sy my ey]; try done;
    intros Hx Hy _ _; simpl in Hx, Hy; unfold SF64sub, SFsub.
  - destruct sx, sy; done.
  - destruct sy; simpl; symmetry; [apply Z.ltb_ge|apply Z.ltb_lt]; lia.
  - pose proof (bounded_inv _ _ Hy) as (He & _).
    pose proof (finite_key_pos my ey ltac:(lia)).
    destruct sy; simpl; symmetry; [apply Z.ltb_ge|apply Z.ltb_lt]; lia.
  - destruct sx; simpl; symmetry; [apply Z.ltb_lt|apply Z.ltb_ge]; lia.
  - destruct sx, sy; simpl; symmetry;
      first [apply Z.ltb_lt; lia|apply Z.ltb_ge; lia].
  - pose proof (bounded_inv _ _ Hy) as (He & _).
    pose proof (finite_key_pos my ey ltac:(lia)).
    pose proof (finite_key_bound my ey Hy).
    destruct sx, sy; simpl; symmetry;
      first [apply Z.ltb_lt; lia|apply Z.ltb_ge; lia].
  - pose proof (bounded_inv _ _ Hx) as (He & _).
    pose proof (finite_key_pos mx ex ltac:(lia)).
    destruct sx; simpl; symmetry; [apply Z.ltb_lt|apply Z.ltb_ge]; lia.
  - pose proof (bounded_inv _ _ Hx) as (He & _).
    pose proof (finite_key_pos mx ex ltac:(lia)).
    pose proof (finite_key_bound mx ex Hx).
    destruct sx, sy; simpl; symmetry;
      first [apply Z.ltb_lt; lia|apply Z.ltb_ge; lia].
  - pose proof (bounded_inv _ _ Hx) as (Hex & _).
    pose proof (bounded_inv _ _ Hy) as (Hey & _).
    set (ez := Z.min ey ex).
    assert (-1074 <= ez) as Hez by (unfold ez; lia).
    pose proof (aligned_key mx ex ez ltac:(unfold ez; lia)) as Hax.
    pose proof (aligned_key my ey ez ltac:(unfold ez; lia)) as Hay.
    assert (0 < 2 ^ (ez + 1074)) as Hp by (apply pow2_pos; lia).
    set (ax := Zpos (fst (shl_align mx ex ez))) in *.
    set (ay := Zpos (fst (shl_align my ey ez))) in *.
    assert (key (S754_finite sx mx ex) = cond_Zopp sx ax * 2 ^ (ez + 1074)) as Hkx.
    { simpl. rewrite <- Hax. destruct sx; simpl; lia. }
    assert (key (S754_finite sy my ey) = cond_Zopp sy ay * 2 ^ (ez + 1074)) as Hky.
    { simpl. rewrite <- Hay. destruct sy; simpl; lia. }
    rewrite Hkx, Hky.
    destruct (cond_Zopp sy ay - cond_Zopp sx ax) as [|d|d] eqn:Hd;
      unfold binary_normalize; symmetry.
    + apply Z.ltb_ge. nia.
    + rewrite zero_ltb_positive; [apply Z.ltb_lt; nia|].
      by apply binary_round_pos.
    + destruct (binary_round_pos true d ez Hez) as [->|(m' & e' & ->)];
        simpl; apply Z.ltb_ge; nia.
Qed.

End Binary64Facts.

(* ===================================================================== *)
(** ** The ranker in double precision *)
(* ===================================================================== *)

Module DoubleFacts.
Import PrimFloat SpecFloat FloatOps FloatAxioms Binary64 Binary64Facts Doubles.

Lemma is_nan_false x : is_nan x = false -> Prim2SF x <> S754_nan.
Proof.
  unfold is_nan. rewrite eqb_spec. intros H Hn. by rewrite Hn in H.
Qed.

Lemma ltb_key x y :
  is_nan x = false -> is_nan y = false -> (x <? y)%float = (fkey x <? fkey y)%Z.
Proof.
  intros Hx%is_nan_false Hy%is_nan_false. rewrite ltb_spec. unfold SFltb, fkey.
  rewrite compare_key by (done || apply Prim2SF_valid). reflexivity.
Qed.

Lemma leb_key x y :
  is_nan x = false -> is_nan y = false -> (x <=? y)%float = (fkey x <=? fkey y)%Z.
Proof.
  intros Hx%is_nan_false Hy%is_nan_false. rewrite leb_spec. unfold SFleb, fkey.
  rewrite compare_key by (done || apply Prim2SF_valid).
  unfold Z.leb. by destruct (key (Prim2SF x) ?= key (Prim2SF y))%Z.
Qed.

Lemma eqb_key x y :
  is_nan x = false -> is_nan y = false -> (x =? y)%float = (fkey x =? fkey y)%Z.
Proof.
  intros Hx%is_nan_false Hy%is_nan_false. rewrite eqb_spec. unfold SFeqb, fkey.
  rewrite compare_key by (done || apply Prim2SF_valid).
  rewrite Z.eqb_compare. reflexivity.
Qed.

(** The comparator is positive exactly when the second score is the
    greater one. *)
Lemma comparefn_key a b :
  is_nan (score a) = false -> is_nan (score b) = false ->
  (0 <? comparefn a b)%float = (fkey (score a) <? fkey (score b))%Z.
Proof.
  intros Ha%is_nan_false Hb%is_nan_false. unfold comparefn.
  rewrite ltb_spec, sub_spec. change (Prim2SF 0) with (S754_zero false).
  apply sub_sign; done || apply Prim2SF_valid.
Qed.

Lemma allNumbers_Forall scored :
  allNumbers scored = true <-> Forall (fun p => is_nan (score p) = false) scored.
Proof.
  unfold allNumbers. rewrite forallb_forall, Forall_forall.
  split; intros H p Hp.
  - apply list_elem_of_In, H in Hp. by apply negb_true_iff.
  - apply list_elem_of_In, H in Hp. by apply negb_true_iff.
Qed.

Lemma precedes_key a b :
  is_nan (score a) = false -> is_nan (score b) = false ->
  precedes a b <-> precedesByKey a b.
Proof.
  intros Ha Hb. unfold precedes, precedesByKey.
  rewrite ltb_key, eqb_key by done.
  by rewrite Z.ltb_lt, Z.eqb_eq.
Qed.

Lemma double_insert_perm a l : insert a l ≡ₚ a :: l.
Proof.
  induction l as [|b l IH]; simpl; [done|].
  destruct (0 <? comparefn a b)%float; [|done].
  rewrite IH. apply Permutation_swap.
Qed.

Lemma double_sort_perm l : sort l ≡ₚ l.
Proof.
  induction l as [|a l IH]; simpl; [done|].
  rewrite double_insert_perm. by constructor.
Qed.

Lemma double_sort_length l : length (sort l) = length l.
Proof. apply Permutation_length, double_sort_perm. Qed.

(** Insertion keeps a list ranked, when no score is NaN. *)
Lemma double_insert_sorted a l :
  is_nan (score a) = false ->
  Forall (fun p => is_nan (score p) = false) l ->
  StronglySorted precedesByKey l ->
  Forall (earlier a) l ->
  StronglySorted precedesByKey (insert a l).
Proof.
  intros Hna Hnl Hl. revert Hnl.
  induction Hl as [|b l Hl IH Hb]; intros Hnl Ha; simpl.
  - repeat constructor.
  - apply Forall_cons in Ha as [Hab Ha]. apply Forall_cons in Hnl as [Hnb Hnl].
    rewrite comparefn_key by done.
    destruct (Z.ltb_spec (fkey (score a)) (fkey (score b))) as [Hlt|Hge].
    + constructor; [by apply IH|].
      rewrite double_insert_perm. constructor; [|done]. by left.
    + constructor; [by constructor|].
      assert (precedesByKey a b) as Hpab.
      { unfold precedesByKey, earlier in *. lia. }
      constructor; [done|].
      rewrite Forall_forall in Hb, Ha |- *. intros c Hc.
      specialize (Hb c Hc). specialize (Ha c Hc).
      unfold precedesByKey, earlier in *. lia.
Qed.

Lemma double_sort_sorted l :
  Forall (fun p => is_nan (score p) = false) l ->
  StronglySorted earlier l -> StronglySorted precedesByKey (sort l).
Proof.
  intros Hn Hl. induction Hl as [|a l Hl IH Ha]; simpl; [constructor|].
  apply Forall_cons in Hn as [Hna Hn].
  apply double_insert_sorted; [done| |by apply IH|].
  - by rewrite double_sort_perm.
  - by rewrite double_sort_perm.
Qed.

Lemma double_scorePages_pageNumbers pages pageEmbeddings qEmb :
  map pageNumber (scorePages pages pageEmbeddings qEmb) = seq 1 (length pages).
Proof.
  apply list_eq. intros i. unfold scorePages.
  rewrite list_lookup_fmap, list_lookup_imap.
  destruct (pages !! i) as [t|] eqn:Hi; simpl.
  - apply lookup_lt_Some in Hi as Hlt.
    rewrite lookup_seq_lt by done. f_equal. lia.
  - apply lookup_ge_None in Hi. symmetry. apply lookup_ge_None.
    by rewrite length_seq.
Qed.

Lemma double_scorePages_length pages pageEmbeddings qEmb :
  length (scorePages pages pageEmbeddings qEmb) = length pages.
Proof. unfold scorePages. apply length_imap. Qed.

Lemma double_scorePages_increasing pages pageEmbeddings qEmb :
  StronglySorted earlier (scorePages pages pageEmbeddings qEmb).
Proof.
  apply (RankerFacts.StronglySorted_map_inv pageNumber lt).
  rewrite double_scorePages_pageNumbers. apply RankerFacts.seq_increasing.
Qed.

(** C5. Ranking returns exactly min(topK, number of units) scored units,
    each of them a scored unit of the input.  When no score is NaN they
    are in descending order of score, units of equal score in ascending
    page order, and no unit left out would be ranked before one that is
    returned. *)
Theorem C5_rank_top_k_stable_unless_nan (pages : list jsstring)
    (pageEmbeddings : list jsval) (qEmb : jsval) (topK : nat) :
  let scored := scorePages pages pageEmbeddings qEmb in
  let top := rank pages pageEmbeddings qEmb topK in
  length top = Nat.min topK (length pages) /\
  (forall a, a ∈ top -> a ∈ scored) /\
  (allNumbers scored = true ->
   (forall i j a b, i < j -> top !! i = Some a -> top !! j = Some b ->
      (score b <=? score a)%float = true /\
      ((score a =? score b)%float = true -> pageNumber a < pageNumber b)) /\
   (forall a b, a ∈ top -> b ∈ scored -> b ∉ top -> precedes a b)).
Proof.
  intros scored top.
  assert (top = take (Nat.min topK (length scored)) (sort scored)) as Htop.
  { unfold top, rank, topPagesOf, slice. by rewrite drop_0, Nat.sub_0_r. }
  assert (length scored = length pages) as Hlen by apply double_scorePages_length.
  assert (forall a, a ∈ top -> a ∈ scored) as Hin.
  { intros a Ha. rewrite Htop in Ha. apply elem_of_take in Ha as (i & Ha & _).
    apply list_elem_of_lookup_2 in Ha. by rewrite double_sort_perm in Ha. }
  split; [|split; [done|]].
  { rewrite Htop, length_take, double_sort_length. lia. }
  intros Hnum%allNumbers_Forall.
  assert (forall a, a ∈ scored -> is_nan (score a) = false) as Hnan
    by (by apply Forall_forall).
  assert (StronglySorted precedesByKey (sort scored)) as Hsorted
    by (apply double_sort_sorted; [done|apply double_scorePages_increasing]).
  split.
  - intros i j a b Hij Ha Hb.
    assert (a ∈ scored) as Has by (eapply Hin, list_elem_of_lookup_2, Ha).
    assert (b ∈ scored) as Hbs by (eapply Hin, list_elem_of_lookup_2, Hb).
    rewrite Htop in Ha, Hb.
    apply lookup_take_Some in Ha as [Ha _]. apply lookup_take_Some in Hb as [Hb _].
    rewrite leb_key, eqb_key by auto. rewrite Z.leb_le, Z.eqb_eq.
    pose proof (RankerFacts.StronglySorted_lookup _ _ _ _ _ _ Hsorted Hij Ha Hb)
      as [Hlt|[Heq Hpn]]; split; lia.
  - intros a b Ha Hb Hnb.
    apply precedes_key; [by apply Hnan, Hin|by apply Hnan|].
    rewrite Htop in Ha. apply elem_of_take in Ha as (i & Ha & Hi).
    rewrite <- double_sort_perm in Hb. apply list_elem_of_lookup in Hb as [j Hb].
    destruct (decide (j < Nat.min topK (length scored))) as [Hj|Hj].
    + exfalso. apply Hnb. rewrite Htop. apply elem_of_take. eauto.
    + eapply (RankerFacts.StronglySorted_lookup _ _ i j); [done| lia |done..].
Qed.

(** The witness of C5: three pages whose scores are 1, 0 and 1; the best
    two are the first and the third, in page order. *)
Lemma C5_rank_top_k_stable_unless_nan_witness :
  allNumbers (scorePages DoubleDemo.pages DoubleDemo.aligned DoubleDemo.question) = true /\
  map pageNumber (rank DoubleDemo.pages DoubleDemo.aligned DoubleDemo.question 2) = [1; 3] /\
  map score (rank DoubleDemo.pages DoubleDemo.aligned DoubleDemo.question 2) = [1; 1]%float /\
  forall i j a b, i < j ->
    rank DoubleDemo.pages DoubleDemo.aligned DoubleDemo.question 2 !! i = Some a ->
    rank DoubleDemo.pages DoubleDemo.aligned DoubleDemo.question 2 !! j = Some b ->
    (score b <=? score a)%float = true /\
    ((score a =? score b)%float = true -> pageNumber a < pageNumber b).
Proof.
  split; [reflexivity|]. split; [reflexivity|]. split; [reflexivity|].
  apply (C5_rank_top_k_stable_unless_nan DoubleDemo.pages DoubleDemo.aligned
           DoubleDemo.question 2).
  reflexivity.
Defined.

(** A norm that overflows makes a score NaN, and the pages around it are
    not put in order: the question [10, 0] against the pages [1, 1],
    [1e308, 0] and [1, 0] scores 0.7071..., NaN and 1, and the ranking
    returns the three pages in page order, the score 0.7071... in front
    of the score 1. *)
Lemma C5_counterexample :
  map score (scorePages DoubleDemo.pages DoubleDemo.overflowing DoubleDemo.question) =
    [0x1.6a09e667f3bccp-1; nan; 1]%float /\
  rank DoubleDemo.pages DoubleDemo.overflowing DoubleDemo.question 3 =
    [ {| pageNumber := 1; text := js "p1"; score := 0x1.6a09e667f3bccp-1 |};
      {| pageNumber := 2; text := js "p2"; score := nan |};
      {| pageNumber := 3; text := js "p3"; score := 1 |} ]%float /\
  (0x1.6a09e667f3bccp-1 <? 1)%float = true /\
  ~ (forall i j a b, i < j ->
       rank DoubleDemo.pages DoubleDemo.overflowing DoubleDemo.question 3 !! i = Some a ->
       rank DoubleDemo.pages DoubleDemo.overflowing DoubleDemo.question 3 !! j = Some b ->
       (score b <=? score a)%float = true).
Proof.
  assert (rank DoubleDemo.pages DoubleDemo.overflowing DoubleDemo.question 3 =
    [ {| pageNumber := 1; text := js "p1"; score := 0x1.6a09e667f3bccp-1 |};
      {| pageNumber := 2; text := js "p2"; score := nan |};
      {| pageNumber := 3; text := js "p3"; score := 1 |} ]%float) as Hrank
    by (vm_compute; reflexivity).
  split; [vm_compute; reflexivity|]. split; [done|]. split; [reflexivity|].
  intros Hdesc. rewrite Hrank in Hdesc.
  by specialize (Hdesc 0 2 _ _ ltac:(lia) eq_refl eq_refl).
Qed.

(** In double precision a vector compared with itself may score more than
    1: the rounding of the two square roots shows. *)
Example self_similarity_above_one :
  (1 <? cosineSimilarity (JArray [2; 3]) (JArray [2; 3]))%float = true.
Proof. reflexivity. Qed.

End DoubleFacts.

(** ** Stored names *)

Module NameFacts.
Import Route.

Lemma digitsOf_digits u : forallb isDigit (digitsOf u) = true.
Proof. induction u; simpl; auto. Qed.

Lemma digitsOf_nil u : digitsOf u = [] -> u = Decimal.Nil.
Proof. by destruct u. Qed.

Lemma decimal_digits n : forallb isDigit (decimal n) = true.
Proof. apply digitsOf_digits. Qed.

Lemma decimal_nonempty n : decimal n <> [].
Proof.
  unfold decimal. intros H%digitsOf_nil.
  destruct n as [|p]; [done|]. simpl in H.
  by apply DecimalPos.Unsigned.to_uint_nonnil in H.
Qed.

Lemma dropDigits_run ds rest :
  forallb isDigit ds = true -> dropDigits (ds ++ 95%N :: rest) = 95%N :: rest.
Proof.
  induction ds as [|c ds IH]; simpl; [done|].
  intros [-> Hds]%andb_true_iff. auto.
Qed.

(** Stripping the prefix that [multer] has put in front of a name gives the
    name back. *)
Lemma stripTimestamp_prefixed ds s :
  ds <> [] -> forallb isDigit ds = true -> stripTimestamp (ds ++ 95%N :: s) = s.
Proof.
  destruct ds as [|c ds]; [done|]. intros _. simpl.
  intros [-> Hds]%andb_true_iff. by rewrite dropDigits_run.
Qed.

Lemma stripTimestamp_storageName now name :
  stripTimestamp (storageName now name) = sanitize name.
Proof.
  unfold storageName. simpl.
  apply stripTimestamp_prefixed; [apply decimal_nonempty | apply decimal_digits].
Qed.



Lemma isPdfName_rev n : isPdfName n = startsWith fdpDot (map lower (rev n)).
Proof. unfold isPdfName, endsWith, toLowerCase. by rewrite map_rev. Qed.


Lemma lower_sanitized x c :
  pdfChar x -> (x =? lower (if isSafe c then c else 95%N))%N = (x =? lower c)%N.
Proof.
  intros Hx. destruct (isSafe c) eqn:Hsafe; [done|].
  unfold isSafe, isLower, isUpper, isDigit in Hsafe.
  unfold lower, isUpper. simpl.
  destruct (N.eqb_spec x 95) as [->|_]; [unfold pdfChar in Hx; lia|].
  symmetry. apply N.eqb_neq. intros ->.
  repeat (apply orb_false_iff in Hsafe as [Hsafe ?]).
  destruct (N.leb_spec 65 c), (N.leb_spec c 90); simpl in *;
    unfold pdfChar in Hx;
    repeat match goal with
           | H : (_ && _) = false |- _ => apply andb_false_iff in H as [H|H]
           | H : (_ <=? _)%N = false |- _ => apply N.leb_gt in H
           | H : (_ =? _)%N = false |- _ => apply N.eqb_neq in H
           end; lia.
Qed.

Lemma startsWith_sanitized p r :
  Forall pdfChar p ->
  startsWith p (map lower (map (fun c => if isSafe c then c else 95%N) r)) =
  startsWith p (map lower r).
Proof.
  intros Hp. revert r. induction Hp as [|x p Hx _ IH]; intros r; [by destruct r|].
  destruct r as [|c r]; simpl; [done|].
  rewrite lower_sanitized by done. by rewrite IH.
Qed.

Lemma fdpDot_pdfChars : Forall pdfChar fdpDot.
Proof. unfold fdpDot, pdfChar. repeat constructor; lia. Qed.

(** Sanitizing a name does not change whether it ends in [.pdf]. *)
Lemma isPdfName_sanitize name : isPdfName (sanitize name) = isPdfName name.
Proof.
  rewrite !isPdfName_rev. unfold sanitize. rewrite <- map_rev.
  apply startsWith_sanitized, fdpDot_pdfChars.
Qed.

(** Neither does a prefix that ends in an underscore. *)
Lemma isPdfName_prefixed pre s : isPdfName (pre ++ 95%N :: s) = isPdfName s.
Proof.
  rewrite !isPdfName_rev. rewrite rev_app_distr. simpl. rewrite <- app_assoc.
  simpl. generalize (rev s) (rev pre). intros r t. rewrite map_app. simpl.
  unfold fdpDot.
  destruct r as [|a [|b [|c [|e r]]]]; simpl;
    repeat match goal with
           | |- context [(?x =? ?y)%N] => destruct (N.eqb_spec x y); simpl
           end; try done;
    change (lower 95) with 95%N in *; try lia.
Qed.

Lemma isPdfName_storageName now name :
  isPdfName (storageName now name) = isPdfName name.
Proof.
  unfold storageName. simpl. by rewrite isPdfName_prefixed, isPdfName_sanitize.
Qed.

(** A name passes the filter exactly when its last four code units are a
    dot and the letters p, d, f in either case. *)
Lemma isPdfName_spelled n :
  isPdfName n = true <->
  exists stem p d f,
    n = stem ++ [46%N; p; d; f] /\
    (p = 112 \/ p = 80)%N /\ (d = 100 \/ d = 68)%N /\ (f = 102 \/ f = 70)%N.
Proof.
  assert (forall c x, (x = 102 \/ x = 100 \/ x = 112)%N ->
            lower c = x <-> (c = x \/ c = x - 32)%N) as Hlow.
  { intros c x Hx. unfold lower, isUpper.
    destruct (N.leb_spec 65 c), (N.leb_spec c 90); simpl; lia. }
  assert (forall c, lower c = 46%N <-> c = 46%N) as Hdot.
  { intros c. unfold lower, isUpper.
    destruct (N.leb_spec 65 c), (N.leb_spec c 90); simpl; lia. }
  rewrite isPdfName_rev. unfold fdpDot. split.
  - destruct (rev n) as [|f [|d [|p [|dot r]]]] eqn:Hrev; cbn [map startsWith];
      rewrite ?andb_false_r; try done.
    intros H.
    apply andb_true_iff in H as [Hf H]. apply andb_true_iff in H as [Hd H].
    apply andb_true_iff in H as [Hp H]. apply andb_true_iff in H as [Hdt _].
    apply N.eqb_eq in Hf, Hd, Hp, Hdt.
    symmetry in Hdt. apply (proj1 (Hdot _)) in Hdt. subst dot.
    exists (rev r), p, d, f. split.
    { apply (f_equal (@rev N)) in Hrev. rewrite rev_involutive in Hrev.
      rewrite Hrev. simpl. by rewrite <- !app_assoc. }
    symmetry in Hf, Hd, Hp.
    apply (proj1 (Hlow f 102%N ltac:(lia))) in Hf.
    apply (proj1 (Hlow d 100%N ltac:(lia))) in Hd.
    apply (proj1 (Hlow p 112%N ltac:(lia))) in Hp.
    lia.
  - intros (stem & p & d & f & -> & Hp & Hd & Hf).
    rewrite rev_app_distr. cbn [rev app map startsWith].
    assert (lower f = 102%N) as -> by (apply Hlow; lia).
    assert (lower d = 100%N) as -> by (apply Hlow; lia).
    assert (lower p = 112%N) as -> by (apply Hlow; lia).
    reflexivity.
Qed.

End NameFacts.

(** ** Upload storage and the session manager *)

Module RouteFacts.
Import Ranker VectorStore Storage Route NameFacts.


Lemma multerStore_spec d ps :
  (multerStore d ps).1 = map uploaded ps /\
  sessionDirs (multerStore d ps).2 = sessionDirs d.
Proof.
  revert d. induction ps as [|p ps IH]; intros d; simpl; [done|].
  specialize (IH {| uploadDir := <[storageName (partTime p) (partName p) := partData p]> (uploadDir d);
                    sessionDirs := sessionDirs d |}).
  destruct (multerStore _ ps) as [files d2]. simpl in *.
  destruct IH as [-> ->]. done.
Qed.


Lemma uploaded_inUploadDir ps : Forall inUploadDir (map uploaded ps).
Proof. apply Forall_forall. intros f (p & -> & _)%list_elem_of_fmap. done. Qed.

(** Moving a file out of [UPLOAD_DIR] into the directory of a session. *)
Lemma moveFile_spec w d f id d' :
  inUploadDir f ->
  moveFile w d f {| dir := SessionDir id; base := filename f |} = Some d' ->
  exists data entries,
    uploadDir d !! filename f = Some data /\
    sessionDirs d !! id = Some entries /\
    uploadDir d' = delete (filename f) (uploadDir d) /\
    sessionDirs d' = <[id := <[filename f := data]> entries]> (sessionDirs d).
Proof.
  intros Hin. unfold moveFile, renameSync, copyFileSync, unlinkSync, writeFile, readFileSync.
  rewrite Hin. simpl.
  destruct (uploadDir d !! filename f) as [data|] eqn:Hdata; simpl.
  2:{ destruct (renameFails w (filename f)); done. }
  destruct (sessionDirs d !! id) as [entries|] eqn:Hentries; simpl.
  2:{ destruct (renameFails w (filename f)); done. }
  rewrite Hdata.
  destruct (renameFails w (filename f)); intros [= <-]; eauto 10.
Qed.

Lemma moveAll_spec w id files :
  Forall inUploadDir files ->
  forall d e0 r d',
    sessionDirs d !! id = Some e0 ->
    moveAll w d id files = (r, d') ->
    (r = Throw FileNotFound \/ r = Ret (map (fun f => moved f id) files)) /\
    (r = Ret (map (fun f => moved f id) files) ->
     exists e',
       sessionDirs d' = <[id := e']> (sessionDirs d) /\
       dom e' = dom e0 ∪ list_to_set (map filename files) /\
       (forall n, n ∈ map filename files -> uploadDir d' !! n = None) /\
       (forall n, uploadDir d !! n = None -> uploadDir d' !! n = None)).
Proof.
  induction 1 as [|f files Hf _ IH]; intros d e0 r d' He0; simpl.
  - intros [= <- <-]. split; [by right|]. intros _. exists e0. split.
    + by rewrite insert_id.
    + split; [set_solver|]. split; [|done].
      intros n Hn. by apply elem_of_nil in Hn.
  - destruct (moveFile w d f _) as [d1|] eqn:Hmove.
    2:{ intros [= <- <-]. split; [by left|done]. }
    apply moveFile_spec in Hmove as (data & entries & Hdata & Hentries & Hup & Hsess); [|done].
    rewrite He0 in Hentries. injection Hentries as <-.
    destruct (moveAll w d1 id files) as [r1 d2] eqn:Hrest.
    apply (IH d1 (<[filename f := data]> e0)) in Hrest as [Hr1 Hok].
    2:{ rewrite Hsess. apply lookup_insert_eq. }
    intros [= <- <-]. split.
    { destruct Hr1 as [->| ->]; [by left|by right]. }
    intros Hret. destruct Hr1 as [->| ->]; [done|].
    destruct (Hok eq_refl) as (e' & Hs2 & Hdom & Hgone & Hkeep).
    exists e'. split; [|split; [|split]].
    + rewrite Hs2, Hsess. apply insert_insert_eq.
    + rewrite Hdom, dom_insert_L. simpl. set_solver.
    + intros n Hn. simpl in Hn. apply elem_of_cons in Hn as [->|Hn]; [|by apply Hgone].
      apply Hkeep. rewrite Hup. apply lookup_delete_eq.
    + intros n Hn. apply Hkeep. rewrite Hup.
      rewrite lookup_delete_None. by right.
Qed.


Lemma readdirSync_spec (entries : gmap jsstring (list N)) n :
  n ∈ readdirSync entries <-> is_Some (entries !! n).
Proof.
  unfold readdirSync. rewrite list_elem_of_fmap. split.
  - intros ([n' v] & -> & H%elem_of_map_to_list). eauto.
  - intros [v Hv]. exists (n, v). split; [done|]. by apply elem_of_map_to_list.
Qed.

(** The session manager on a request without files. *)
Lemma resolveSession_no_files w d req :
  resolveSession w d [] req =
  (Ret (resolveFiles d [] (uploadIdFromClient req) (uploadIdFromClient req)), d).
Proof. unfold resolveSession, mintAndMove. simpl. reflexivity. Qed.

(** The session manager on files that come with an id of the client. *)
Lemma resolveSession_client_id w d allFiles req id :
  allFiles <> [] -> uploadIdFromClient req = Some id ->
  resolveSession w d allFiles req = (Ret (allFiles, Some id), d).
Proof.
  intros Hne Hid. unfold resolveSession, mintAndMove. rewrite Hid.
  destruct allFiles; [done|]. reflexivity.
Qed.

(** The session manager on files that come without an id. *)
Lemma resolveSession_minted w d allFiles req r d1 :
  allFiles <> [] -> Forall inUploadDir allFiles ->
  uploadIdFromClient req = None ->
  resolveSession w d allFiles req = (r, d1) ->
  (r = Throw FileNotFound \/
   r = Ret (map (fun f => moved f (randomUUID w)) allFiles, Some (randomUUID w))) /\
  (r = Ret (map (fun f => moved f (randomUUID w)) allFiles, Some (randomUUID w)) ->
   exists e',
     sessionDirs d1 = <[randomUUID w := e']> (sessionDirs d) /\
     list_to_set (map filename allFiles) ⊆ dom e' /\
     (existsSync d (randomUUID w) = false ->
      dom e' = list_to_set (map filename allFiles)) /\
     (forall n, n ∈ map filename allFiles -> uploadDir d1 !! n = None)).
Proof.
  intros Hne Hin Hid. unfold resolveSession, mintAndMove. rewrite Hid.
  destruct allFiles as [|f files]; [done|].
  set (uuid := randomUUID w).
  set (d0 := if existsSync d uuid then d else mkdirSync d uuid).
  assert (exists e0, sessionDirs d0 !! uuid = Some e0 /\
            sessionDirs d0 = <[uuid := e0]> (sessionDirs d) /\
            (existsSync d uuid = false -> e0 = ∅)) as (e0 & He0 & Hd0 & Hfresh).
  { subst d0. unfold existsSync, mkdirSync.
    destruct (sessionDirs d !! uuid) as [e|] eqn:He; simpl.
    - exists e. rewrite insert_id by done. done.
    - exists ∅. rewrite lookup_insert_eq. done. }
  destruct (moveAll w d0 uuid (f :: files)) as [r0 d2] eqn:Hmove.
  apply (moveAll_spec w uuid (f :: files) Hin d0 e0) in Hmove as [Hr0 Hok]; [|done].
  intros [= <- <-]. split.
  { destruct Hr0 as [->| ->]; [by left|by right]. }
  intros Hret. destruct Hr0 as [->| ->]; [done|].
  destruct (Hok eq_refl) as (e' & Hs & Hdom & Hgone & _).
  exists e'. split; [|split; [|split]].
  - rewrite Hs, Hd0. apply insert_insert_eq.
  - rewrite Hdom. set_solver.
  - intros Hex. rewrite Hdom, (Hfresh Hex). set_solver.
  - done.
Qed.

Lemma processFiles_replied w d question files fi acc r :
  processFiles w d question fi files acc = Replied r ->
  exists error details, r = Error500 error details.
Proof.
  revert fi acc. induction files as [|file files IH]; intros fi acc; simpl; [done|].
  destruct (processFile w d question fi file); [apply IH| |done].
  intros [= <-]. eauto.
Qed.

(** A 200 answer comes after the session is resolved to at least one
    document and every document is processed. *)
Lemma handler_ok w d allFiles req answer sources uploadId d1 :
  handler w d allFiles req = (Some (Ok200 answer sources uploadId), d1) ->
  exists files uploadId0 question perDoc,
    resolveSession w d allFiles req = (Ret (files, uploadId0), d1) /\
    files <> [] /\ uploadId = orNull uploadId0 /\
    bodyQuestion req = Some question /\ truthy question = true /\
    processFiles w d1 question 0 files [] = Processed perDoc.
Proof.
  unfold handler.
  destruct (resolveSession w d allFiles req) as [[[files uploadId0]|e|] d'] eqn:Hres;
    [|done..].
  destruct files as [|f files]; [done|].
  destruct (bodyQuestion req) as [[|c q]|] eqn:Hq; [done| |done].
  destruct (processFiles w d' (c :: q) 0 (f :: files) []) as [perDoc|r|] eqn:Hproc.
  - destruct (askWithLlama w _ (c :: q)); [|done].
    intros [= <- <- <- <-]. exists (f :: files), uploadId0, (c :: q), perDoc. done.
  - apply processFiles_replied in Hproc as (error & details & ->). done.
  - done.
Qed.

(** The session manager on a request that brings files. *)
Lemma resolveSession_with_files (w : World) (d : Disk) (req : Request)
    (allFiles : list File) (d0 : Disk) :
  multerStore d (parts req) = (allFiles, d0) ->
  parts req <> [] ->
  match uploadIdFromClient req with
  | Some id =>
      resolveSession w d0 allFiles req = (Ret (allFiles, Some id), d0) /\
      Forall inUploadDir allFiles
  | None =>
      exists r d1,
        resolveSession w d0 allFiles req = (r, d1) /\
        (r = Throw FileNotFound \/
         r = Ret (map (fun f => moved f (randomUUID w)) allFiles, Some (randomUUID w)) /\
         Forall (fun f =>
                   is_Some (readFileSync d1 (path (moved f (randomUUID w)))) /\
                   readFileSync d1 (path f) = None) allFiles)
  end.
Proof.
  intros Hstore Hparts.
  pose proof (multerStore_spec d (parts req)) as [Hfiles _].
  rewrite Hstore in Hfiles. simpl in Hfiles. subst allFiles.
  assert (map uploaded (parts req) <> []) as Hne by (by destruct (parts req)).
  pose proof (uploaded_inUploadDir (parts req)) as Hin.
  destruct (uploadIdFromClient req) as [id|] eqn:Hid.
  - split; [by apply resolveSession_client_id|done].
  - destruct (resolveSession w d0 (map uploaded (parts req)) req) as [r d1] eqn:Hres.
    exists r, d1. split; [done|].
    apply resolveSession_minted in Hres as [Hr Hok]; [|done..].
    destruct Hr as [->| ->]; [by left|right]. split; [done|].
    destruct (Hok eq_refl) as (e' & Hs & Hsub & _ & Hgone).
    apply Forall_forall. intros f Hf.
    assert (filename f ∈ map filename (map uploaded (parts req))) as Hname
      by (by apply list_elem_of_fmap_2).
    split.
    + unfold readFileSync. simpl. rewrite Hs, lookup_insert_eq. simpl.
      apply elem_of_dom, Hsub. by apply elem_of_list_to_set.
    + rewrite Forall_forall in Hin. rewrite (Hin f Hf).
      unfold readFileSync. simpl. by apply Hgone.
Qed.

(** C3. A request with files and no upload id of the client gets the
    newly generated id, and every file is moved out of the upload
    directory into the directory of that id, unless a move throws.  A
    request with files and an upload id of the client keeps that id:
    nothing is generated, created or moved, and the files stay in the
    upload directory. *)
Theorem C3_new_id_only_without_client_id (w : World) (d : Disk) (req : Request)
    (allFiles : list File) (d0 : Disk) :
  multerStore d (parts req) = (allFiles, d0) ->
  parts req <> [] ->
  match uploadIdFromClient req with
  | Some id =>
      resolveSession w d0 allFiles req = (Ret (allFiles, Some id), d0) /\
      Forall inUploadDir allFiles
  | None =>
      exists r d1,
        resolveSession w d0 allFiles req = (r, d1) /\
        (r = Throw FileNotFound \/
         r = Ret (map (fun f => moved f (randomUUID w)) allFiles, Some (randomUUID w)) /\
         Forall (fun f =>
                   is_Some (readFileSync d1 (path (moved f (randomUUID w)))) /\
                   readFileSync d1 (path f) = None) allFiles)
  end.
Proof. apply resolveSession_with_files. Qed.

(** The witness of C3: a first upload without an id. *)
Lemma C3_new_id_only_without_client_id_witness :
  exists r d1,
    resolveSession Demo.world (multerStore Demo.emptyDisk [Demo.report]).2
      (multerStore Demo.emptyDisk [Demo.report]).1 Demo.firstUpload = (r, d1) /\
    (r = Throw FileNotFound \/
     r = Ret (map (fun f => moved f (randomUUID Demo.world))
                (multerStore Demo.emptyDisk [Demo.report]).1,
              Some (randomUUID Demo.world)) /\
     Forall (fun f =>
               is_Some (readFileSync d1 (path (moved f (randomUUID Demo.world)))) /\
               readFileSync d1 (path f) = None)
       (multerStore Demo.emptyDisk [Demo.report]).1).
Proof.
  apply (C3_new_id_only_without_client_id Demo.world Demo.emptyDisk Demo.firstUpload
           (multerStore Demo.emptyDisk [Demo.report]).1
           (multerStore Demo.emptyDisk [Demo.report]).2).
  - reflexivity.
  - discriminate.
Defined.

(** C3 fails as stated: files sent with the upload id ["abc"] are
    answered under ["abc"]; the generated id is not used and no session
    directory is made. *)
Lemma C3_counterexample :
  exists answer sources d1,
    ask Demo.world Demo.emptyDisk Demo.uploadWithId =
      (Some (Ok200 answer sources (Some (js "abc"))), d1) /\
    sessionDirs d1 = ∅ /\
    randomUUID Demo.world <> js "abc".
Proof.
  do 3 eexists. split; [vm_compute; reflexivity|].
  split; [vm_compute; reflexivity|]. vm_compute. discriminate.
Qed.

(** C2, as the route has it.  A 400 answer is one of two.  "No PDFs
    uploaded" is sent for a request without files, with the disk as the
    handler found it.  "No question provided" is sent after the session
    is resolved: for a request with files and no upload id the directory
    of the new id exists by then and the files are in it, no longer in the
    upload directory; otherwise the disk is as the handler found it. *)
Theorem C2_input_errors_and_the_disk (w : World) (d : Disk) (req : Request)
    (allFiles : list File) (d0 : Disk) (msg : jsstring) (d1 : Disk) :
  multerStore d (parts req) = (allFiles, d0) ->
  handler w d0 allFiles req = (Some (Error400 msg), d1) ->
  (msg = noPdfMessage /\ parts req = [] /\ d1 = d0) \/
  (msg = noQuestionMessage /\
   (bodyQuestion req = None \/ bodyQuestion req = Some []) /\
   match uploadIdFromClient req, parts req with
   | None, _ :: _ =>
       existsSync d1 (randomUUID w) = true /\
       Forall (fun f =>
                 is_Some (readFileSync d1 (path (moved f (randomUUID w)))) /\
                 readFileSync d1 (path f) = None) allFiles
   | _, _ => d1 = d0
   end).
Proof.
  intros Hstore Hhandler.
  pose proof (resolveSession_with_files w d req allFiles d0 Hstore) as Hc3.
  pose proof (multerStore_spec d (parts req)) as [Hfiles _].
  rewrite Hstore in Hfiles. simpl in Hfiles.
  unfold handler in Hhandler.
  destruct (resolveSession w d0 allFiles req) as [[[files uploadId]|e|] d'] eqn:Hres;
    [|done..].
  destruct (parts req) as [|p ps] eqn:Hparts.
  - (* no files in the request *)
    simpl in Hfiles. subst allFiles.
    rewrite resolveSession_no_files in Hres. injection Hres as Hfs <-.
    destruct files as [|f files].
    + injection Hhandler as <- <-. by left.
    + right. destruct (bodyQuestion req) as [[|c q]|] eqn:Hq.
      * injection Hhandler as <- <-. destruct (uploadIdFromClient req); auto.
      * destruct (processFiles w d0 (c :: q) 0 (f :: files) []) as [perDoc|r|] eqn:Hproc.
        -- destruct (askWithLlama w _ (c :: q)); done.
        -- apply processFiles_replied in Hproc as (error & details & ->). done.
        -- done.
      * injection Hhandler as <- <-. destruct (uploadIdFromClient req); auto.
  - (* files in the request *)
    specialize (Hc3 ltac:(done)).
    assert (files <> [] /\
            match uploadIdFromClient req with
            | Some _ => d' = d0
            | None =>
                existsSync d' (randomUUID w) = true /\
                Forall (fun f =>
                          is_Some (readFileSync d' (path (moved f (randomUUID w)))) /\
                          readFileSync d' (path f) = None) allFiles
            end) as [Hne Hdisk].
    { destruct (uploadIdFromClient req) as [id|] eqn:Hid.
      - destruct Hc3 as [Hc3 _]. injection Hc3 as -> -> ->.
        split; [by subst allFiles|done].
      - destruct Hc3 as (r & d2 & Hres' & Hr).
        injection Hres' as <- <-. destruct Hr as [?|[Hr Hall]]; [done|].
        injection Hr as -> ->. split; [by subst allFiles|]. split; [|done].
        subst allFiles. apply Forall_cons in Hall as [[[data Hdata] _] _].
        unfold readFileSync in Hdata. simpl in Hdata. unfold existsSync.
        destruct (sessionDirs d' !! randomUUID w); done. }
    destruct files as [|f files]; [done|].
    right. destruct (bodyQuestion req) as [[|c q]|] eqn:Hq.
    + injection Hhandler as <- <-. destruct (uploadIdFromClient req); auto.
    + destruct (processFiles w d' (c :: q) 0 (f :: files) []) as [perDoc|r|] eqn:Hproc.
      * destruct (askWithLlama w _ (c :: q)); done.
      * apply processFiles_replied in Hproc as (error & details & ->). done.
      * done.
    + injection Hhandler as <- <-. destruct (uploadIdFromClient req); auto.
Qed.

(** The witness of C2: a file with an empty question and no upload id. *)
Lemma C2_input_errors_and_the_disk_witness :
  exists d1,
    handler Demo.world (multerStore Demo.emptyDisk [Demo.report]).2
      (multerStore Demo.emptyDisk [Demo.report]).1 Demo.emptyQuestionUpload =
      (Some (Error400 noQuestionMessage), d1) /\
    ((noQuestionMessage = noPdfMessage /\ parts Demo.emptyQuestionUpload = [] /\
      d1 = (multerStore Demo.emptyDisk [Demo.report]).2) \/
     (noQuestionMessage = noQuestionMessage /\
      (bodyQuestion Demo.emptyQuestionUpload = None \/
       bodyQuestion Demo.emptyQuestionUpload = Some []) /\
      existsSync d1 (randomUUID Demo.world) = true /\
      Forall (fun f =>
                is_Some (readFileSync d1 (path (moved f (randomUUID Demo.world)))) /\
                readFileSync d1 (path f) = None)
        (multerStore Demo.emptyDisk [Demo.report]).1)).
Proof.
  eexists. split; [vm_compute; reflexivity|].
  apply (C2_input_errors_and_the_disk Demo.world Demo.emptyDisk Demo.emptyQuestionUpload
           (multerStore Demo.emptyDisk [Demo.report]).1
           (multerStore Demo.emptyDisk [Demo.report]).2).
  - reflexivity.
  - vm_compute. reflexivity.
Defined.

(** C2 fails as stated: the request with a file and an empty question is
    refused with "No question provided" after the directory of the new id
    was made and the file moved into it. *)
Lemma C2_counterexample :
  let stored := multerStore Demo.emptyDisk (parts Demo.emptyQuestionUpload) in
  let uuid := randomUUID Demo.world in
  let name := storageName (partTime Demo.report) (partName Demo.report) in
  exists d1,
    handler Demo.world stored.2 stored.1 Demo.emptyQuestionUpload =
      (Some (Error400 noQuestionMessage), d1) /\
    existsSync stored.2 uuid = false /\
    readFileSync stored.2 {| dir := UploadDir; base := name |} = Some (partData Demo.report) /\
    existsSync d1 uuid = true /\
    readFileSync d1 {| dir := SessionDir uuid; base := name |} = Some (partData Demo.report) /\
    readFileSync d1 {| dir := UploadDir; base := name |} = None.
Proof.
  eexists. split; [vm_compute; reflexivity|].
  repeat (split; [vm_compute; reflexivity|]). vm_compute. reflexivity.
Qed.


Lemma trim_truthy_or_fallback input :
  truthy (if truthy (trim input) then trim input else Client.fallbackQuestion) = true.
Proof. destruct (truthy (trim input)) eqn:H; [done|reflexivity]. Qed.

(** C1, as the route has it.  A request that resolves to at least one
    document and whose question is absent or the empty string is answered
    400 "No question provided"; the route substitutes nothing and
    processes no document.  The fallback question is put in by the
    client: the form it posts always carries a non-empty question, the
    trimmed input or "Summarize the uploaded files.". *)
Theorem C1_empty_question_is_refused (w : World) (d : Disk) (allFiles : list File)
    (req : Request) (files : list File) (uploadId : option jsstring) (d1 : Disk) :
  resolveSession w d allFiles req = (Ret (files, uploadId), d1) ->
  files <> [] ->
  bodyQuestion req = None \/ bodyQuestion req = Some [] ->
  handler w d allFiles req = (Some (Error400 noQuestionMessage), d1) /\
  (forall input selected kept posted,
     Client.handleSend input selected kept = Some posted ->
     bodyQuestion posted =
       Some (if truthy (trim input) then trim input else Client.fallbackQuestion) /\
     bodyQuestion posted <> None /\ bodyQuestion posted <> Some []).
Proof.
  intros Hres Hne Hq. split.
  - unfold handler. rewrite Hres. destruct files as [|f files]; [done|].
    destruct Hq as [-> | ->]; reflexivity.
  - intros input selected kept posted. unfold Client.handleSend.
    pose proof (trim_truthy_or_fallback input) as Htruthy.
    destruct (orNull kept) as [id|].
    + intros [= <-]. simpl. split; [done|]. split; [done|].
      intros [= Hempty]. by rewrite Hempty in Htruthy.
    + destruct (negb (truthy (trim input)) && (length selected =? 0)); [done|].
      intros [= <-]. simpl. split; [done|]. split; [done|].
      intros [= Hempty]. by rewrite Hempty in Htruthy.
Qed.

(** The witness of C1: a follow-up on a session that holds PDF files,
    with an empty question. *)
Lemma C1_empty_question_is_refused_witness :
  handler Demo.world Demo.mixedDisk []
    {| parts := []; bodyUploadId := Some (js "abc"); bodyQuestion := Some [] |} =
    (Some (Error400 noQuestionMessage), Demo.mixedDisk) /\
  (forall input selected kept posted,
     Client.handleSend input selected kept = Some posted ->
     bodyQuestion posted =
       Some (if truthy (trim input) then trim input else Client.fallbackQuestion) /\
     bodyQuestion posted <> None /\ bodyQuestion posted <> Some []).
Proof.
  eapply (C1_empty_question_is_refused Demo.world Demo.mixedDisk []
            {| parts := []; bodyUploadId := Some (js "abc"); bodyQuestion := Some [] |}).
  - vm_compute. reflexivity.
  - discriminate.
  - right. reflexivity.
Defined.

(** C1 fails as stated: a file sent with the empty string as question is
    answered with the error "No question provided". *)
Lemma C1_counterexample :
  parts Demo.emptyQuestionUpload = [Demo.report] /\
  bodyQuestion Demo.emptyQuestionUpload = Some [] /\
  (ask Demo.world Demo.emptyDisk Demo.emptyQuestionUpload).1 =
    Some (Error400 noQuestionMessage).
Proof.
  split; [reflexivity|]. split; [reflexivity|]. vm_compute. reflexivity.
Qed.

(** C10. A follow-up on an existing session resolves to the stored files
    whose names end in a dot and the letters p, d, f, in either case, and
    to no other entry of the directory; each file keeps its stored name
    and shows it without the timestamp prefix. *)
Theorem C10_follow_up_keeps_pdf_names_only (w : World) (d : Disk) (req : Request)
    (id : jsstring) (entries : gmap jsstring (list N)) :
  uploadIdFromClient req = Some id ->
  sessionDirs d !! id = Some entries ->
  exists files,
    resolveSession w d [] req = (Ret (files, Some id), d) /\
    (forall n, n ∈ map filename files <->
       is_Some (entries !! n) /\
       exists stem p d f,
         n = stem ++ [46%N; p; d; f] /\
         (p = 112 \/ p = 80)%N /\ (d = 100 \/ d = 68)%N /\ (f = 102 \/ f = 70)%N) /\
    Forall (fun f =>
              originalname f = stripTimestamp (filename f) /\
              path f = {| dir := SessionDir id; base := filename f |}) files.
Proof.
  intros Hid Hentries. rewrite resolveSession_no_files, Hid.
  unfold resolveFiles. rewrite Hentries.
  eexists. split; [done|]. split.
  - intros n. rewrite <- isPdfName_spelled, <- list_fmap_compose.
    change (filename ∘ storedFile id entries) with (@Datatypes.id jsstring).
    rewrite list_fmap_id, list_elem_of_filter, readdirSync_spec. tauto.
  - apply Forall_forall. intros f (n & -> & _)%list_elem_of_fmap. done.
Qed.

(** The witness of C10: a session with a PDF, a PDF in upper case and a
    text file. *)
Lemma C10_follow_up_keeps_pdf_names_only_witness :
  exists files,
    resolveSession Demo.world Demo.mixedDisk [] (Demo.followUp (js "abc")) =
      (Ret (files, Some (js "abc")), Demo.mixedDisk) /\
    (forall n, n ∈ map filename files <->
       is_Some
         (({[ js "17_a.pdf" := js "%PDF"; js "18_B.PDF" := js "%PDF";
              js "19_notes.txt" := js "hello" ]} : gmap jsstring (list N)) !! n) /\
       exists stem p d f,
         n = stem ++ [46%N; p; d; f] /\
         (p = 112 \/ p = 80)%N /\ (d = 100 \/ d = 68)%N /\ (f = 102 \/ f = 70)%N) /\
    Forall (fun f =>
              originalname f = stripTimestamp (filename f) /\
              path f = {| dir := SessionDir (js "abc"); base := filename f |}) files.
Proof.
  apply (C10_follow_up_keeps_pdf_names_only Demo.world Demo.mixedDisk
           (Demo.followUp (js "abc")) (js "abc")).
  - reflexivity.
  - vm_compute. reflexivity.
Defined.


Lemma orNull_Some uploadId sid :
  orNull uploadId = Some sid -> uploadId = Some sid /\ truthy sid = true.
Proof.
  destruct uploadId as [u|]; simpl; [|done].
  destruct (truthy u) eqn:Hu; [|done]. by intros [= <-].
Qed.

(** The names a follow-up shows, given the stored names of the session. *)
Lemma follow_up_names (sid : jsstring) (entries : gmap jsstring (list N)) (n : jsstring) :
  n ∈ map originalname
        (map (storedFile sid entries)
           (filter (fun n => isPdfName n = true) (readdirSync entries))) <->
  exists fname,
    is_Some (entries !! fname) /\ isPdfName fname = true /\ n = stripTimestamp fname.
Proof.
  rewrite <- list_fmap_compose, list_elem_of_fmap. split.
  - intros (fname & -> & [Hpdf Hin%readdirSync_spec]%list_elem_of_filter). eauto.
  - intros (fname & Hin & Hpdf & ->). exists fname. split; [done|].
    apply list_elem_of_filter. split; [done|]. by apply readdirSync_spec.
Qed.

(** C4, as the route has it.  After a first request that brings files and
    no upload id, and is answered with the id of a directory that did not
    exist before, a follow-up with that id and no files resolves to the
    sanitized names of the uploaded files whose names end in .pdf (in any
    case): every code unit outside [A-Za-z0-9._-] shows as an underscore.
    The names are those of the first request when each of them ends in
    .pdf and is left unchanged by the sanitizing. *)
Theorem C4_follow_up_resolves_sanitized_names (w : World) (d : Disk)
    (first : Request) (answer : jsstring) (sources : list Source)
    (sid : jsstring) (d1 : Disk) (followup : Request) :
  ask w d first = (Some (Ok200 answer sources (Some sid)), d1) ->
  parts first <> [] ->
  uploadIdFromClient first = None ->
  existsSync d sid = false ->
  parts followup = [] ->
  bodyUploadId followup = Some sid ->
  exists files,
    multerStore d1 (parts followup) = ([], d1) /\
    resolveSession w d1 [] followup = (Ret (files, Some sid), d1) /\
    (forall n, n ∈ map originalname files <->
       exists p, p ∈ parts first /\ isPdfName (partName p) = true /\
                 n = sanitize (partName p)) /\
    (Forall (fun p => isPdfName (partName p) = true /\
                      sanitize (partName p) = partName p) (parts first) ->
     forall n, n ∈ map originalname files <-> n ∈ map partName (parts first)).
Proof.
  intros Hask Hparts Hnoid Hfresh Hnofiles Hid.
  unfold ask in Hask.
  pose proof (multerStore_spec d (parts first)) as [Hfiles Hsess].
  destruct (multerStore d (parts first)) as [allFiles d0]. simpl in Hfiles, Hsess.
  apply handler_ok in Hask
    as (files0 & uploadId0 & q & perDoc & Hres & _ & Hnull & _).
  symmetry in Hnull. apply orNull_Some in Hnull as [-> Htruthy].
  assert (allFiles <> []) as Hne by (subst allFiles; by destruct (parts first)).
  assert (Forall inUploadDir allFiles) as Hin
    by (subst allFiles; apply uploaded_inUploadDir).
  apply resolveSession_minted in Hres as [Hr Hok]; [|done..].
  destruct Hr as [?|Hr]; [done|]. pose proof Hr as Hret. injection Hr as _ Hsid.
  assert (existsSync d0 (randomUUID w) = false) as Hfresh0.
  { unfold existsSync in *. rewrite Hsess. by rewrite <- Hsid. }
  destruct (Hok Hret) as (e' & Hs & _ & Hdom & _).
  specialize (Hdom Hfresh0).
  assert (uploadIdFromClient followup = Some sid) as Hfrom.
  { unfold uploadIdFromClient. by rewrite Hid, Htruthy. }
  assert (forall n, n ∈ map originalname
                      (map (storedFile sid e')
                         (filter (fun n => isPdfName n = true) (readdirSync e'))) <->
                    exists p, p ∈ parts first /\ isPdfName (partName p) = true /\
                              n = sanitize (partName p)) as Hnames.
  { intros n. rewrite follow_up_names. split.
    - intros (fname & Hfname%elem_of_dom & Hpdf & ->).
      rewrite Hdom, elem_of_list_to_set, Hfiles, <- list_fmap_compose in Hfname.
      apply list_elem_of_fmap in Hfname as (p & -> & Hp). simpl in *.
      exists p. rewrite isPdfName_storageName in Hpdf.
      by rewrite stripTimestamp_storageName.
    - intros (p & Hp & Hpdf & ->).
      exists (storageName (partTime p) (partName p)).
      rewrite isPdfName_storageName, stripTimestamp_storageName.
      split; [|done]. apply elem_of_dom.
      rewrite Hdom, elem_of_list_to_set, Hfiles, <- list_fmap_compose.
      apply list_elem_of_fmap. by exists p. }
  eexists. split; [by rewrite Hnofiles|]. split.
  { rewrite resolveSession_no_files, Hfrom. unfold resolveFiles.
    rewrite Hs, <- Hsid, lookup_insert_eq. reflexivity. }
  split; [done|].
  intros Hsafe n. rewrite Hnames, list_elem_of_fmap. rewrite Forall_forall in Hsafe.
  split.
  - intros (p & Hp & _ & ->). exists p. by destruct (Hsafe p Hp) as [_ ->].
  - intros (p & -> & Hp). exists p. by destruct (Hsafe p Hp) as [? ->].
Qed.

(** The witness of C4: the first upload of the sample, then a follow-up
    with the id it was answered. *)
Lemma C4_follow_up_resolves_sanitized_names_witness :
  exists files,
    multerStore (ask Demo.world Demo.emptyDisk Demo.firstUpload).2
      (parts (Demo.followUp (randomUUID Demo.world))) =
      ([], (ask Demo.world Demo.emptyDisk Demo.firstUpload).2) /\
    resolveSession Demo.world (ask Demo.world Demo.emptyDisk Demo.firstUpload).2 []
      (Demo.followUp (randomUUID Demo.world)) =
      (Ret (files, Some (randomUUID Demo.world)),
       (ask Demo.world Demo.emptyDisk Demo.firstUpload).2) /\
    (forall n, n ∈ map originalname files <->
       exists p, p ∈ parts Demo.firstUpload /\ isPdfName (partName p) = true /\
                 n = sanitize (partName p)) /\
    (Forall (fun p => isPdfName (partName p) = true /\
                      sanitize (partName p) = partName p) (parts Demo.firstUpload) ->
     forall n, n ∈ map originalname files <-> n ∈ map partName (parts Demo.firstUpload)).
Proof.
  eapply (C4_follow_up_resolves_sanitized_names Demo.world Demo.emptyDisk
            Demo.firstUpload _ _ (randomUUID Demo.world)).
  - vm_compute. reflexivity.
  - discriminate.
  - reflexivity.
  - reflexivity.
  - reflexivity.
  - reflexivity.
Defined.

(** C4 fails as stated: the file uploaded as ["my report.pdf"], and
    shown under that name in the sources of the first answer, is resolved
    by the follow-up as ["my_report.pdf"] and shown so in its answer. *)
Lemma C4_counterexample :
  exists answer sources d1,
    ask Demo.world Demo.emptyDisk Demo.firstUpload =
      (Some (Ok200 answer sources (Some (randomUUID Demo.world))), d1) /\
    map partName (parts Demo.firstUpload) = [js "my report.pdf"] /\
    map sourceFilename sources = [js "my report.pdf"] /\
    (exists files,
       resolveSession Demo.world d1 [] (Demo.followUp (randomUUID Demo.world)) =
         (Ret (files, Some (randomUUID Demo.world)), d1) /\
       map originalname files = [js "my_report.pdf"]) /\
    (exists answer' sources',
       ask Demo.world d1 (Demo.followUp (randomUUID Demo.world)) =
         (Some (Ok200 answer' sources' (Some (randomUUID Demo.world))), d1) /\
       map sourceFilename sources' = [js "my_report.pdf"]).
Proof.
  do 3 eexists. split; [vm_compute; reflexivity|].
  split; [reflexivity|]. split; [vm_compute; reflexivity|]. split.
  - eexists. split; vm_compute; reflexivity.
  - do 2 eexists. split; vm_compute; reflexivity.
Qed.

(** *** Embedding failures *)

Lemma checkBatch_cases batch res :
  (exists batchEmb, checkBatch batch res = Ret batchEmb) \/
  (exists e, checkBatch batch res = Throw e).
Proof.
  unfold checkBatch. destruct res as [[|batchEmb]|]; eauto.
  destruct (negb (length batchEmb =? length batch)); eauto.
Qed.

Lemma checkBatch_refused batch res :
  refused batch res -> exists e, checkBatch batch res = Throw e.
Proof.
  unfold refused, checkBatch. destruct res as [[|batchEmb]|]; eauto.
  intros Hlen. destruct (Nat.eqb_spec (length batchEmb) (length batch)); [done|].
  simpl. eauto.
Qed.

(** With a batch size of at least one the batch loop ends within the
    fuel [pages.length]. *)
Lemma embedLoop_ends w fi pages batchSize fuel i pageEmbeddings :
  1 <= batchSize -> length pages <= fuel + i ->
  embedLoop fuel w fi pages batchSize i pageEmbeddings <> OutOfFuel.
Proof.
  intros Hb. revert i pageEmbeddings.
  induction fuel as [|fuel IH]; intros i pageEmbeddings Hfuel; simpl.
  - destruct (Nat.ltb_spec i (length pages)); [lia|done].
  - destruct (Nat.ltb_spec i (length pages)); [|done].
    destruct (checkBatch_cases (slice i (i + batchSize) pages)
                (embedBatch w fi i (slice i (i + batchSize) pages)))
      as [[batchEmb ->]|[e ->]]; simpl; [|done].
    apply IH. lia.
Qed.

(** A batch that is refused stops the loop with an exception, unless an
    earlier batch has done so. *)
Lemma embedLoop_refused w fi pages batchSize e k :
  1 <= batchSize ->
  forall fuel i0 pageEmbeddings,
    i0 + k * batchSize < length pages ->
    length pages <= fuel + i0 ->
    checkBatch (slice (i0 + k * batchSize) (i0 + k * batchSize + batchSize) pages)
      (embedBatch w fi (i0 + k * batchSize)
         (slice (i0 + k * batchSize) (i0 + k * batchSize + batchSize) pages)) = Throw e ->
    exists e', embedLoop fuel w fi pages batchSize i0 pageEmbeddings = Throw e'.
Proof.
  intros Hb. induction k as [|k IH]; intros fuel i0 pageEmbeddings Hlt Hfuel Hbad.
  - rewrite Nat.add_0_r in *. destruct fuel as [|fuel]; [lia|]. simpl.
    destruct (Nat.ltb_spec i0 (length pages)); [|lia].
    rewrite Hbad. simpl. eauto.
  - destruct fuel as [|fuel]; [lia|]. simpl.
    destruct (Nat.ltb_spec i0 (length pages)); [|lia].
    destruct (checkBatch_cases (slice i0 (i0 + batchSize) pages)
                (embedBatch w fi i0 (slice i0 (i0 + batchSize) pages)))
      as [[batchEmb ->]|[e0 ->]]; simpl; [|eauto].
    apply IH; [lia..|].
    replace (i0 + batchSize + k * batchSize) with (i0 + S k * batchSize) by lia.
    done.
Qed.

Lemma embedPages_ends w fi pages batchSize :
  1 <= batchSize -> embedPages w fi pages batchSize <> OutOfFuel.
Proof.
  intros Hb. unfold embedPages.
  pose proof (embedLoop_ends w fi pages batchSize (length pages) 0
                (replicate (length pages) JOther) Hb ltac:(lia)) as H.
  by destruct (embedLoop _ _ _ _ _ _ _).
Qed.

(** With the default options the search of a document ends. *)
Lemma vectorSearch_ends w fi buffer question :
  vectorSearchForPdfBuffer w fi buffer question defaultOptions <> OutOfFuel.
Proof.
  unfold vectorSearchForPdfBuffer. destruct (negb (truthy question)); [done|].
  destruct (extractText w buffer) as [fullText|]; simpl; [|done].
  destruct (SegmenterFacts.splitIntoPages_returns 300 400 fullText) as [pages ->]. simpl.
  pose proof (embedPages_ends w fi pages 8 ltac:(lia)) as Hends.
  destruct (embedPages w fi pages 8); simpl; [|done..].
  destruct (embedQuestion w fi question); done.
Qed.

Lemma processFile_ends w d question fi file :
  processFile w d question fi file <> OutOfFuel.
Proof.
  unfold processFile. destruct (readFileSync d (path file)) as [buffer|]; [|done].
  destruct (negb (pdfParse w buffer)); [done|].
  pose proof (vectorSearch_ends w fi buffer question) as Hends.
  by destruct (vectorSearchForPdfBuffer w fi buffer question defaultOptions).
Qed.

(** The batch loop throws nothing but the two errors of a refused
    batch. *)
Lemma embedLoop_throws w fi pages batchSize fuel i pageEmbeddings e :
  embedLoop fuel w fi pages batchSize i pageEmbeddings = Throw e ->
  e = ProviderCallFailed \/ e = UnexpectedBatchSize.
Proof.
  revert i pageEmbeddings. induction fuel as [|fuel IH]; intros i pageEmbeddings; simpl.
  - by destruct (i <? length pages).
  - destruct (i <? length pages); [|done].
    unfold checkBatch.
    destruct (embedBatch w fi i (slice i (i + batchSize) pages)) as [[|batchEmb]|];
      simpl; [intros [= <-]; by right| |intros [= <-]; by left].
    destruct (negb (length batchEmb =? length _)); simpl; [intros [= <-]; by right|].
    apply IH.
Qed.

(** A refused batch of a document that has been read and parsed makes
    its processing throw "Embedding pages failed", with the error of a
    refused batch as its cause. *)
Lemma processFile_refused w d question fi file buffer fullText pages k :
  truthy question = true ->
  readFileSync d (path file) = Some buffer ->
  pdfParse w buffer = true ->
  extractText w buffer = Some fullText ->
  Segmenter.splitIntoPages 300 400 fullText = Ret pages ->
  k * 8 < length pages ->
  refused (slice (k * 8) (k * 8 + 8) pages)
    (embedBatch w fi (k * 8) (slice (k * 8) (k * 8 + 8) pages)) ->
  exists e,
    (e = ProviderCallFailed \/ e = UnexpectedBatchSize) /\
    processFile w d question fi file = Throw (EmbeddingPagesFailed e).
Proof.
  intros Hq Hread Hparse Htext Hpages Hk [e0 Hbad]%checkBatch_refused.
  unfold processFile. rewrite Hread, Hparse. simpl.
  unfold vectorSearchForPdfBuffer. rewrite Hq, Htext. simpl. rewrite Hpages. simpl.
  destruct (embedLoop_refused w fi pages 8 e0 k ltac:(lia) (length pages) 0
              (replicate (length pages) JOther)) as [e He]; [simpl; lia..|done|].
  exists e. split; [by eapply embedLoop_throws|].
  unfold embedPages. by rewrite He.
Qed.

(** The loop over the files answers at the first document that throws,
    with its name and its error. *)
Lemma processFiles_first_throw w d question files :
  forall fi0 k file e acc,
    files !! k = Some file ->
    (forall i f, i < k -> files !! i = Some f ->
       exists doc, processFile w d question (fi0 + i) f = Ret doc) ->
    processFile w d question (fi0 + k) file = Throw e ->
    processFiles w d question fi0 files acc =
    Replied (Error500 (js "Error parsing/indexing file " ++ originalname file) e).
Proof.
  induction files as [|f files IH]; intros fi0 k file e acc Hk Hbefore Hthrow; [done|].
  simpl. destruct k as [|k]; simpl in Hk.
  - injection Hk as ->. rewrite Nat.add_0_r in Hthrow. by rewrite Hthrow.
  - destruct (Hbefore 0 f ltac:(lia) eq_refl) as [doc Hdoc].
    rewrite Nat.add_0_r in Hdoc. rewrite Hdoc.
    apply (IH (S fi0) k file e); [done| |].
    + intros i g Hi Hg. destruct (Hbefore (S i) g ltac:(lia) Hg) as [doc' Hdoc'].
      exists doc'. by replace (S fi0 + i) with (fi0 + S i) by lia.
    + by replace (S fi0 + k) with (fi0 + S k) by lia.
Qed.

(** C9. When the embedding of some batch of a document of the request
    throws, or returns something else than one embedding per page of the
    batch, the request is answered 500 "Error parsing/indexing file" with
    the name of that document and, as its detail, "Embedding pages
    failed" caused by the provider error ("Embedding provider call
    failed" or "Provider returned unexpected batch embedding size"): no
    answer is built from the batches and documents that went well.  The
    document is one that the loop reaches and embeds: the documents in
    front of it are processed, and it is read and parsed. *)
Theorem C9_refused_batch_fails_the_request (w : World) (d : Disk)
    (allFiles : list File) (req : Request) (files : list File)
    (uploadId : option jsstring) (d1 : Disk) (question : jsstring) (fi : nat)
    (file : File) (buffer : list N) (fullText : jsstring) (pages : list jsstring)
    (k : nat) :
  resolveSession w d allFiles req = (Ret (files, uploadId), d1) ->
  bodyQuestion req = Some question ->
  truthy question = true ->
  files !! fi = Some file ->
  (forall i f, i < fi -> files !! i = Some f ->
     exists doc, processFile w d1 question i f = Ret doc) ->
  readFileSync d1 (path file) = Some buffer ->
  pdfParse w buffer = true ->
  extractText w buffer = Some fullText ->
  Segmenter.splitIntoPages 300 400 fullText = Ret pages ->
  k * 8 < length pages ->
  refused (slice (k * 8) (k * 8 + 8) pages)
    (embedBatch w fi (k * 8) (slice (k * 8) (k * 8 + 8) pages)) ->
  exists e,
    (e = ProviderCallFailed \/ e = UnexpectedBatchSize) /\
    handler w d allFiles req =
    (Some (Error500 (js "Error parsing/indexing file " ++ originalname file)
             (EmbeddingPagesFailed e)), d1).
Proof.
  intros Hres Hbody Hq Hfile Hbefore Hread Hparse Htext Hpages Hk Hbad.
  destruct (processFile_refused w d1 question fi file buffer fullText pages k)
    as (e & He & Hthrow); [done..|].
  exists e. split; [done|].
  unfold handler. rewrite Hres.
  destruct files as [|f files]; [done|].
  rewrite Hbody. destruct question as [|c q]; [done|].
  by rewrite (processFiles_first_throw w d1 (c :: q) (f :: files) 0 fi file
                (EmbeddingPagesFailed e) []).
Qed.

(** The witness of C9: a document of nine pages whose second batch the
    provider refuses. *)
Lemma C9_refused_batch_fails_the_request_witness :
  exists e,
    (e = ProviderCallFailed \/ e = UnexpectedBatchSize) /\
    handler Demo.failingWorld (multerStore Demo.emptyDisk [Demo.report]).2
      (multerStore Demo.emptyDisk [Demo.report]).1 Demo.firstUpload =
    (Some (Error500
             (js "Error parsing/indexing file " ++
              originalname (moved (uploaded Demo.report) (randomUUID Demo.failingWorld)))
             (EmbeddingPagesFailed e)),
     (resolveSession Demo.failingWorld (multerStore Demo.emptyDisk [Demo.report]).2
        (multerStore Demo.emptyDisk [Demo.report]).1 Demo.firstUpload).2).
Proof.
  eapply (C9_refused_batch_fails_the_request Demo.failingWorld _ _ Demo.firstUpload
            _ _ _ Demo.question 0
            (moved (uploaded Demo.report) (randomUUID Demo.failingWorld))
            _ Demo.ninePages _ 1).
  - vm_compute. reflexivity.
  - reflexivity.
  - reflexivity.
  - vm_compute. reflexivity.
  - intros i f Hi. lia.
  - vm_compute. reflexivity.
  - reflexivity.
  - reflexivity.
  - vm_compute. reflexivity.
  - vm_compute. lia.
  - vm_compute. exact I.
Defined.

(** The scenario of the specification: the provider raises on the second
    batch, and the answer is the 500 of the loop over the files, with the
    embedding error as its detail. *)
Example second_batch_failure :
  (ask Demo.failingWorld Demo.emptyDisk Demo.firstUpload).1 =
  Some (Error500 (js "Error parsing/indexing file my report.pdf")
          (EmbeddingPagesFailed ProviderCallFailed)).
Proof. vm_compute. reflexivity. Qed.

(** A batch of two pages answered with one embedding is refused for its
    size. *)
Example short_batch_failure :
  (ask Demo.shortWorld Demo.emptyDisk Demo.firstUpload).1 =
  Some (Error500 (js "Error parsing/indexing file my report.pdf")
          (EmbeddingPagesFailed UnexpectedBatchSize)).
Proof. vm_compute. reflexivity. Qed.

(** The scenario of the specification: no file, no upload id and an
    empty question are answered 400 "No PDFs uploaded ...", and no
    directory is made. *)
Example nothing_sent :
  ask Demo.world Demo.emptyDisk
    {| parts := []; bodyUploadId := None; bodyQuestion := Some [] |} =
  (Some (Error400 noPdfMessage), Demo.emptyDisk).
Proof. vm_compute. reflexivity. Qed.

(** A follow-up on an id that names no directory is answered 400 too. *)
Example unknown_upload_id :
  ask Demo.world Demo.emptyDisk (Demo.followUp (js "abc")) =
  (Some (Error400 noPdfMessage), Demo.emptyDisk).
Proof. vm_compute. reflexivity. Qed.

End RouteFacts.

(* ===================================================================== *)
(** * Further properties of the code *)
(* ===================================================================== *)

(** ** Pages *)

Module PageFacts.
Import Segmenter SegmenterFacts TextSpec.

Lemma cap_eq_take (pages : list jsstring) maxPages :
  (if maxPages <? length pages then slice 0 maxPages pages else pages) =
  take maxPages pages.
Proof.
  unfold slice. rewrite drop_0, Nat.sub_0_r.
  destruct (Nat.ltb_spec maxPages (length pages)); [done|].
  by rewrite take_ge.
Qed.

Lemma splitIntoPages_bounds chunkSizeWords maxPages fullText :
  exists pages,
    splitIntoPages chunkSizeWords maxPages fullText = Ret pages /\
    length pages <= maxPages /\
    (1 <= maxPages -> pages <> []).
Proof.
  unfold splitIntoPages.
  assert (exists pages0,
            (if includes formFeed fullText
             then Ret (filter (fun p => truthy p = true) (map trim (split formFeed fullText)))
             else chunkLoop maxPages (words fullText) chunkSizeWords maxPages 0 []) =
            Ret pages0) as [pages0 ->].
  { destruct (includes formFeed fullText); [eauto|].
    destruct (chunkLoop_returns (words fullText) chunkSizeWords maxPages maxPages 0 [])
      as (r & -> & _); [simpl; lia|eauto]. }
  simpl. eexists. split; [done|]. split.
  - rewrite cap_eq_take, length_take. lia.
  - intros Hmax Hnil.
    pose proof (cap_keeps_one (match pages0 with [] => [fullText] | _ :: _ => pages0 end)
                  maxPages Hmax ltac:(by destruct pages0)) as Hone.
    rewrite Hnil in Hone. simpl in Hone. lia.
Qed.

(** X1. Whatever the text, the chunk size and the cap, the split returns,
    and with at most [maxPages] pages. *)
Theorem X1_pages_within_cap (chunkSizeWords maxPages : nat) (fullText : jsstring) :
  exists pages,
    splitIntoPages chunkSizeWords maxPages fullText = Ret pages /\
    length pages <= maxPages.
Proof.
  unfold splitIntoPages.
  assert (exists pages0,
            (if includes formFeed fullText
             then Ret (filter (fun p => truthy p = true) (map trim (split formFeed fullText)))
             else chunkLoop maxPages (words fullText) chunkSizeWords maxPages 0 []) =
            Ret pages0) as [pages0 ->].
  { destruct (includes formFeed fullText); [eauto|].
    destruct (chunkLoop_returns (words fullText) chunkSizeWords maxPages maxPages 0 [])
      as (r & -> & _); [simpl; lia|eauto]. }
  simpl. eexists. split; [done|].
  rewrite cap_eq_take, length_take. lia.
Qed.


(** *** The word branch *)

Lemma splitRuns_noSpace s cur inrun :
  noSpace cur -> Forall noSpace (splitRuns s cur inrun).
Proof.
  revert cur inrun. induction s as [|c s IH]; intros cur inrun Hcur; simpl.
  - by constructor.
  - destruct (isWhiteSpace c) eqn:Hc.
    + destruct inrun; [by apply IH|]. constructor; [done|]. by apply IH.
    + apply IH. apply noSpace_app; [done|]. unfold noSpace. simpl. by rewrite Hc.
Qed.

(** What the source calls [words] are words. *)
Lemma words_are_words fullText : Forall isWord (words fullText).
Proof.
  unfold words, splitWhitespace.
  pose proof (splitRuns_noSpace fullText [] false eq_refl) as H.
  induction H as [|w l Hw _ IH]; [constructor|].
  destruct w as [|c w].
  - rewrite filter_cons_False; [done|]. simpl. congruence.
  - rewrite filter_cons_True by done. constructor; [|done]. by split.
Qed.

Lemma filter_words ws :
  Forall isWord ws -> filter (fun w => truthy w = true) ws = ws.
Proof.
  induction 1 as [|w ws [Hne _] _ IH]; [done|].
  rewrite filter_cons_True by (by destruct w). by rewrite IH.
Qed.

Lemma splitRuns_join ws inrun :
  Forall isWord ws -> ws <> [] ->
  splitRuns (join (js " ") ws) [] inrun = ws.
Proof.
  intros Hws. revert inrun. induction Hws as [|w ws [Hne Hw] Hrest IH]; intros inrun Hnil; [done|].
  destruct ws as [|w2 ws].
  - simpl. rewrite <- (app_nil_r w) at 1. rewrite splitRuns_word by done.
    simpl. reflexivity.
  - change (join (js " ") (w :: w2 :: ws)) with (w ++ 32%N :: join (js " ") (w2 :: ws)).
    rewrite splitRuns_word by done. simpl app at 1.
    destruct w as [|c w]; [done|].
    change (splitRuns (32%N :: ?s) ?cur false) with (cur :: splitRuns s [] true).
    f_equal. by apply IH.
Qed.

(** Joining words with single spaces and splitting again gives the words
    back. *)
Lemma words_join ws : Forall isWord ws -> words (join (js " ") ws) = ws.
Proof.
  intros Hws. unfold words, splitWhitespace. destruct ws as [|w ws]; [done|].
  rewrite splitRuns_join by done. by apply filter_words.
Qed.

Lemma take_chunks ws c m k : take m (chunks ws c k) = chunks ws c (Nat.min m k).
Proof.
  unfold chunks. change (map ?f ?l) with (f <$> l).
  by rewrite <- fmap_take, take_seq.
Qed.

(** The pages of the word branch are the first chunks of the words. *)
Lemma splitIntoPages_words chunkSizeWords maxPages fullText :
  includes formFeed fullText = false ->
  words fullText <> [] ->
  1 <= chunkSizeWords ->
  splitIntoPages chunkSizeWords maxPages fullText =
  Ret (chunks (words fullText) chunkSizeWords
         (Nat.min (ceilDiv (length (words fullText)) chunkSizeWords) maxPages)).
Proof.
  intros Hff Hws Hc. unfold splitIntoPages. rewrite Hff.
  set (ws := words fullText) in *.
  assert (1 <= ceilDiv (length ws) chunkSizeWords) as Hceil.
  { apply (index_lt_iff_ceil (length ws) chunkSizeWords 0 Hc).
    destruct ws; [done|simpl; lia]. }
  pose proof (chunkLoop_chunks ws chunkSizeWords maxPages maxPages 0 Hc) as Hloop.
  change (0 * chunkSizeWords) with 0 in Hloop.
  change (chunks ws chunkSizeWords 0) with (@nil jsstring) in Hloop.
  rewrite Hloop by lia. simpl.
  set (T := Nat.min (ceilDiv (length ws) chunkSizeWords) (Nat.max 1 maxPages)).
  destruct (chunks ws chunkSizeWords T) as [|p ps] eqn:Hch.
  { apply (f_equal length) in Hch. rewrite chunks_length in Hch. simpl in Hch. lia. }
  rewrite <- Hch, cap_eq_take, take_chunks. do 2 f_equal. lia.
Qed.

Lemma words_of_chunks ws c k :
  Forall isWord ws ->
  map words (chunks ws c k) =
  map (fun j => slice (j * c) (j * c + c) ws) (seq 0 k).
Proof.
  intros Hws. unfold chunks. rewrite map_map. apply map_ext. intros j.
  apply words_join. unfold slice. by apply Forall_take, Forall_drop.
Qed.

Lemma concat_slices (ws : list jsstring) c k :
  concat (map (fun j => slice (j * c) (j * c + c) ws) (seq 0 k)) = take (k * c) ws.
Proof.
  induction k as [|k IH]; [done|].
  rewrite seq_S, map_app, concat_app, IH. simpl. rewrite app_nil_r.
  unfold slice. replace (k * c + c - k * c) with c by lia.
  rewrite take_take_drop. f_equal. lia.
Qed.

(** X2. On a text without form feed, cut with a chunk size of at least
    one word, the words of the pages, read page after page, are the first
    words of the text, in their order: nothing is added, dropped or moved
    in front of the cap.  No page is empty or longer than the chunk size,
    and when the cap is not reached the pages hold every word of the
    text. *)
Theorem X2_pages_keep_the_words (chunkSizeWords maxPages : nat) (fullText : jsstring) :
  includes formFeed fullText = false ->
  words fullText <> [] ->
  1 <= chunkSizeWords ->
  exists pages,
    splitIntoPages chunkSizeWords maxPages fullText = Ret pages /\
    concat (map words pages) = take (length pages * chunkSizeWords) (words fullText) /\
    Forall (fun p => 1 <= length (words p) <= chunkSizeWords) pages /\
    (ceilDiv (length (words fullText)) chunkSizeWords <= maxPages ->
     concat (map words pages) = words fullText).
Proof.
  intros Hff Hws Hc. rewrite splitIntoPages_words by done.
  set (ws := words fullText) in *.
  set (k := Nat.min (ceilDiv (length ws) chunkSizeWords) maxPages).
  pose proof (words_are_words fullText) as Hwords. fold ws in Hwords.
  eexists. split; [done|].
  rewrite chunks_length, words_of_chunks, concat_slices by done.
  split; [done|]. split.
  - apply Forall_forall. intros p Hp. unfold chunks in Hp.
    apply list_elem_of_fmap in Hp as (j & -> & Hj%list_elem_of_In%in_seq).
    rewrite words_join by (unfold slice; by apply Forall_take, Forall_drop).
    unfold slice. rewrite length_take, length_drop.
    assert (j < ceilDiv (length ws) chunkSizeWords) as Hjc by lia.
    apply index_lt_iff_ceil in Hjc; [|done]. lia.
  - intros Hcap. apply take_ge.
    assert (k = ceilDiv (length ws) chunkSizeWords) as -> by lia.
    destruct (Nat.le_gt_cases (length ws) (ceilDiv (length ws) chunkSizeWords * chunkSizeWords))
      as [|Hlt]; [done|].
    apply index_lt_iff_ceil in Hlt; [lia|done].
Qed.

(** The witness of X2: five words in chunks of two. *)
Lemma X2_pages_keep_the_words_witness :
  exists pages,
    splitIntoPages 2 400 (js " one two  three four five ") = Ret pages /\
    concat (map words pages) =
      take (length pages * 2) (words (js " one two  three four five ")) /\
    Forall (fun p => 1 <= length (words p) <= 2) pages /\
    (ceilDiv (length (words (js " one two  three four five "))) 2 <= 400 ->
     concat (map words pages) = words (js " one two  three four five ")).
Proof.
  apply (X2_pages_keep_the_words 2 400 (js " one two  three four five ")).
  - reflexivity.
  - vm_compute. discriminate.
  - lia.
Defined.


(** *** The form-feed branch *)

Lemma trimStart_head s :
  match trimStart s with [] => True | c :: _ => isWhiteSpace c = false end.
Proof.
  induction s as [|c s IH]; simpl; [done|].
  destruct (isWhiteSpace c) eqn:Hc; done.
Qed.

Lemma trimStart_snoc l c :
  isWhiteSpace c = false -> trimStart (l ++ [c]) = trimStart l ++ [c].
Proof.
  intros Hc. induction l as [|a l IH]; simpl; [by rewrite Hc|].
  by destruct (isWhiteSpace a).
Qed.

Lemma trimEnd_cons c t :
  isWhiteSpace c = false -> trimEnd (c :: t) = c :: trimEnd t.
Proof.
  intros Hc. unfold trimEnd. simpl. rewrite trimStart_snoc by done.
  by rewrite rev_unit.
Qed.

Lemma trimStart_idempotent s : trimStart (trimStart s) = trimStart s.
Proof.
  pose proof (trimStart_head s) as H.
  destruct (trimStart s) as [|c t]; [done|]. simpl. by rewrite H.
Qed.

Lemma trimEnd_idempotent s : trimEnd (trimEnd s) = trimEnd s.
Proof. unfold trimEnd. by rewrite rev_involutive, trimStart_idempotent. Qed.

(** Trimming twice is trimming once. *)
Lemma trim_idempotent s : trim (trim s) = trim s.
Proof.
  unfold trim. pose proof (trimStart_head s) as H.
  destruct (trimStart s) as [|c t]; [done|].
  rewrite trimEnd_cons by done. simpl. rewrite H.
  rewrite trimEnd_cons by done. by rewrite trimEnd_idempotent.
Qed.

Lemma includes_trimStart c s : includes c s = false -> includes c (trimStart s) = false.
Proof.
  unfold includes. induction s as [|a s IH]; simpl; [done|].
  intros [Ha Hs]%orb_false_iff. destruct (isWhiteSpace a); [auto|].
  simpl. by rewrite Ha, Hs.
Qed.

Lemma includes_rev c s : includes c (rev s) = includes c s.
Proof.
  unfold includes. induction s as [|a s IH]; simpl; [done|].
  rewrite existsb_app, IH. simpl. rewrite orb_false_r. apply orb_comm.
Qed.

Lemma includes_trim c s : includes c s = false -> includes c (trim s) = false.
Proof.
  intros H. unfold trim, trimEnd. rewrite includes_rev.
  apply includes_trimStart. rewrite includes_rev. by apply includes_trimStart.
Qed.

Lemma splitOn_nonempty sep s cur : splitOn sep s cur <> [].
Proof.
  revert cur. induction s as [|c s IH]; intros cur; simpl; [done|].
  destruct (c =? sep)%N; [done|apply IH].
Qed.

(** Joining the segments with the separator gives the string back. *)
Lemma join_splitOn sep s cur : join [sep] (splitOn sep s cur) = cur ++ s.
Proof.
  revert cur. induction s as [|c s IH]; intros cur; simpl.
  - by rewrite app_nil_r.
  - destruct (N.eqb_spec c sep) as [->|Hne].
    + pose proof (splitOn_nonempty sep s []) as Hnil. specialize (IH []).
      destruct (splitOn sep s []) as [|seg segs]; [done|].
      change (join [sep] (cur :: seg :: segs)) with (cur ++ [sep] ++ join [sep] (seg :: segs)).
      by rewrite IH.
    + rewrite IH. by rewrite <- app_assoc.
Qed.

Lemma splitOn_without_sep sep s cur :
  includes sep cur = false ->
  Forall (fun seg => includes sep seg = false) (splitOn sep s cur).
Proof.
  revert cur. induction s as [|c s IH]; intros cur Hcur; simpl.
  - by constructor.
  - destruct (N.eqb_spec c sep) as [->|Hne].
    + constructor; [done|]. by apply IH.
    + apply IH. unfold includes in *. rewrite existsb_app, Hcur. simpl.
      rewrite orb_false_r. apply N.eqb_neq. congruence.
Qed.

Lemma blank_join (segs : list jsstring) :
  Forall blank segs -> blank (join [formFeed] segs).
Proof.
  induction 1 as [|seg segs Hseg Hsegs IH]; [done|].
  destruct segs as [|seg2 segs]; [done|].
  change (join [formFeed] (seg :: seg2 :: segs))
    with (seg ++ [formFeed] ++ join [formFeed] (seg2 :: segs)).
  apply blank_app; [done|]. by apply blank_app.
Qed.

Lemma trimmed_segments_clean (segs : list jsstring) :
  Forall (fun seg => includes formFeed seg = false) segs ->
  Forall cleanPage (filter (fun p => truthy p = true) (map trim segs)).
Proof.
  induction 1 as [|seg segs Hseg _ IH]; [constructor|].
  simpl. destruct (trim seg) as [|c t] eqn:Htrim.
  - rewrite filter_cons_False; [done|]. simpl. congruence.
  - rewrite filter_cons_True by done. constructor; [|done].
    rewrite <- Htrim. split; [by rewrite Htrim|]. split.
    + apply trim_idempotent.
    + by apply includes_trim.
Qed.

Lemma blank_trim s : trim s = [] -> blank s.
Proof.
  unfold trim. intros H. pose proof (trimStart_head s) as Hhead.
  destruct (trimStart s) as [|c t] eqn:Hs.
  - clear H Hhead. induction s as [|a s IH]; [done|]. simpl in Hs.
    destruct (isWhiteSpace a) eqn:Ha; [|done].
    unfold blank. simpl. rewrite Ha. by apply IH.
  - rewrite trimEnd_cons in H by done. done.
Qed.

Lemma untrimmed_segments_blank (segs : list jsstring) :
  filter (fun p => truthy p = true) (map trim segs) = [] -> Forall blank segs.
Proof.
  induction segs as [|seg segs IH]; [constructor|]. simpl.
  destruct (trim seg) as [|c t] eqn:Htrim.
  - rewrite filter_cons_False by (simpl; congruence).
    intros H. constructor; [by apply blank_trim|by apply IH].
  - by rewrite filter_cons_True.
Qed.

(** X3. On a text with a form feed that is not blank, every page is a
    trimmed segment of the text: not empty, with no white space at either
    end and no form feed inside.  There are at most as many pages as
    segments between form feeds, and at least one when the cap allows
    one. *)
Theorem X3_form_feed_pages_are_clean (chunkSizeWords maxPages : nat)
    (fullText : jsstring) :
  includes formFeed fullText = true ->
  ~ blank fullText ->
  exists pages,
    splitIntoPages chunkSizeWords maxPages fullText = Ret pages /\
    Forall cleanPage pages /\
    length pages <= length (split formFeed fullText) /\
    (1 <= maxPages -> pages <> []).
Proof.
  intros Hff Hnonblank. unfold splitIntoPages. rewrite Hff. simpl.
  set (segs := split formFeed fullText).
  pose proof (trimmed_segments_clean segs
                (splitOn_without_sep formFeed fullText [] eq_refl)) as Hclean.
  destruct (filter (fun p => truthy p = true) (map trim segs)) as [|p ps] eqn:Hpages.
  { exfalso. apply Hnonblank.
    apply untrimmed_segments_blank, blank_join in Hpages.
    subst segs. unfold split in Hpages. by rewrite join_splitOn in Hpages. }
  rewrite <- Hpages in *. rewrite cap_eq_take.
  eexists. split; [done|]. split; [by apply Forall_take|]. split.
  - rewrite length_take.
    transitivity (length (map trim segs)); [|by rewrite length_map].
    etransitivity; [apply Nat.le_min_r|]. apply length_filter.
  - intros Hmax. rewrite Hpages. by destruct maxPages; [lia|].
Qed.

(** The witness of X3: ["Alpha"], a form feed, [" Beta "], a form feed. *)
Lemma X3_form_feed_pages_are_clean_witness :
  exists pages,
    splitIntoPages 300 400 (js "Alpha" ++ [formFeed] ++ js " Beta " ++ [formFeed]) =
      Ret pages /\
    Forall cleanPage pages /\
    length pages <=
      length (split formFeed (js "Alpha" ++ [formFeed] ++ js " Beta " ++ [formFeed])) /\
    (1 <= 400 -> pages <> []).
Proof.
  apply (X3_form_feed_pages_are_clean 300 400
           (js "Alpha" ++ [formFeed] ++ js " Beta " ++ [formFeed])).
  - reflexivity.
  - unfold blank. vm_compute. discriminate.
Defined.

End PageFacts.

(** ** Scores and ranking *)

Module ScoreFacts.
Import Ranker RankerFacts.

Lemma dotProduct_comm a b : dotProduct a b = dotProduct b a.
Proof.
  revert b. induction a as [|x a IH]; intros [|y b]; simpl; try done.
  rewrite IH. lra.
Qed.

(** The value of [cosineSimilarity] on two arrays of one length. *)
Lemma cosineSimilarity_arrays a b :
  length a = length b ->
  cosineSimilarity (JArray a) (JArray b) =
  if Req_dec_T (normSq a) 0 then 0%R
  else if Req_dec_T (normSq b) 0 then 0%R
  else (dotProduct a b / (sqrt (normSq a) * sqrt (normSq b)))%R.
Proof.
  intros Hlen. simpl. rewrite Hlen, Nat.eqb_refl. simpl.
  by rewrite cosineSums_eq.
Qed.

(** X4. Cosine similarity does not depend on the order of its two
    arguments. *)
Theorem X4_cosine_symmetric (a b : jsval) :
  cosineSimilarity a b = cosineSimilarity b a.
Proof.
  destruct a as [va|], b as [vb|]; try reflexivity.
  destruct (decide (length va = length vb)) as [Hlen|Hne].
  - rewrite !cosineSimilarity_arrays by done.
    rewrite (dotProduct_comm vb va), (Rmult_comm (sqrt (normSq vb))).
    destruct (Req_dec_T (normSq va) 0), (Req_dec_T (normSq vb) 0); reflexivity.
  - simpl. destruct (Nat.eqb_spec (length va) (length vb)); [done|].
    destruct (Nat.eqb_spec (length vb) (length va)); [congruence|]. reflexivity.
Qed.

Lemma precedes_asymmetric a b : precedes a b -> precedes b a -> False.
Proof. unfold precedes. intros [?|[? ?]] [?|[? ?]]; lra || lia. Qed.

(** Two arrangements of the same pages that both respect the ranking
    order are equal. *)
Lemma ranked_arrangement_unique (l1 l2 : list ScoredPage) :
  StronglySorted precedes l1 -> StronglySorted precedes l2 -> l1 ≡ₚ l2 -> l1 = l2.
Proof.
  intros H1. revert l2. induction H1 as [|a t1 Ht1 IH Ha]; intros l2 H2 Hperm.
  - by apply Permutation_nil_l in Hperm.
  - destruct H2 as [|b t2 Ht2 Hb].
    { by apply Permutation_nil_r in Hperm. }
    assert (a = b) as <-.
    { assert (a ∈ b :: t2) as Hin by (rewrite <- Hperm; left).
      assert (b ∈ a :: t1) as Hin' by (rewrite Hperm; left).
      apply elem_of_cons in Hin as [?|Hin]; [done|].
      apply elem_of_cons in Hin' as [?|Hin']; [done|].
      rewrite Forall_forall in Ha. rewrite Forall_forall in Hb.
      destruct (precedes_asymmetric a b); auto. }
    f_equal. apply IH; [done|]. by apply Permutation_cons_inv in Hperm.
Qed.

(** X7. The ranking is determined by the scores and the page numbers
    alone: any arrangement of the scored pages that is descending by
    score, with pages of equal score in page order, is the one the sort
    returns, and its first min(topK, n) pages are the top pages. *)
Theorem X7_ranking_is_unique (pages : list jsstring) (pageEmbeddings : list jsval)
    (qEmb : jsval) (topK : nat) (arranged : list ScoredPage) :
  arranged ≡ₚ scorePages pages pageEmbeddings qEmb ->
  StronglySorted precedes arranged ->
  arranged = sort (scorePages pages pageEmbeddings qEmb) /\
  take (Nat.min topK (length pages)) arranged = rank pages pageEmbeddings qEmb topK.
Proof.
  intros Hperm Hsorted.
  assert (arranged = sort (scorePages pages pageEmbeddings qEmb)) as ->.
  { apply ranked_arrangement_unique; [done| |].
    - apply sort_sorted, scorePages_increasing.
    - by rewrite sort_perm. }
  split; [done|]. unfold rank, topPagesOf, slice.
  by rewrite drop_0, Nat.sub_0_r, scorePages_length.
Qed.

(** The witness of X7: three pages without embeddings, kept in page
    order. *)
Lemma X7_ranking_is_unique_witness :
  scorePages [js "a"; js "b"; js "c"] [] JOther =
    sort (scorePages [js "a"; js "b"; js "c"] [] JOther) /\
  take (Nat.min 2 (length [js "a"; js "b"; js "c"]))
    (scorePages [js "a"; js "b"; js "c"] [] JOther) =
    rank [js "a"; js "b"; js "c"] [] JOther 2.
Proof.
  apply (X7_ranking_is_unique [js "a"; js "b"; js "c"] [] JOther 2
           (scorePages [js "a"; js "b"; js "c"] [] JOther)).
  - reflexivity.
  - unfold scorePages. simpl.
    repeat constructor; right; simpl; (split; [reflexivity|lia]).
Defined.

Lemma scorePages_elem pages pageEmbeddings qEmb p :
  p ∈ scorePages pages pageEmbeddings qEmb ->
  exists idx, pages !! idx = Some (text p) /\ pageNumber p = idx + 1.
Proof.
  unfold scorePages. intros (idx & t & -> & Ht)%elem_of_lookup_imap. eauto.
Qed.

Lemma rank_take pages pageEmbeddings qEmb topK :
  rank pages pageEmbeddings qEmb topK =
  take (Nat.min topK (length pages)) (sort (scorePages pages pageEmbeddings qEmb)).
Proof.
  unfold rank, topPagesOf, slice. by rewrite drop_0, Nat.sub_0_r, scorePages_length.
Qed.

Lemma rank_length pages pageEmbeddings qEmb topK :
  length (rank pages pageEmbeddings qEmb topK) = Nat.min topK (length pages).
Proof. rewrite rank_take, length_take, sort_length, scorePages_length. lia. Qed.

Lemma rank_scored pages pageEmbeddings qEmb topK p :
  p ∈ rank pages pageEmbeddings qEmb topK -> p ∈ scorePages pages pageEmbeddings qEmb.
Proof.
  rewrite rank_take. intros (i & Hp%list_elem_of_lookup_2 & _)%elem_of_take.
  by rewrite sort_perm in Hp.
Qed.

Lemma rank_cites pages pageEmbeddings qEmb topK p :
  p ∈ rank pages pageEmbeddings qEmb topK ->
  1 <= pageNumber p <= length pages /\
  pages !! (pageNumber p - 1) = Some (text p).
Proof.
  intros (idx & Hidx & ->)%rank_scored%scorePages_elem.
  apply lookup_lt_Some in Hidx as Hlt. split; [lia|].
  by replace (idx + 1 - 1) with idx by lia.
Qed.

Lemma rank_pageNumbers_NoDup pages pageEmbeddings qEmb topK :
  NoDup (map pageNumber (rank pages pageEmbeddings qEmb topK)).
Proof.
  rewrite rank_take. change (map pageNumber ?l) with (pageNumber <$> l).
  rewrite fmap_take. eapply sublist_NoDup; [|apply sublist_take].
  rewrite sort_perm. change (pageNumber <$> ?l) with (map pageNumber l).
  rewrite scorePages_pageNumbers. apply NoDup_seq.
Qed.

(** X8. Every page returned by the ranking cites its own text: its page
    number lies between 1 and the number of pages and its text is the
    page of that number.  No page number is returned twice. *)
Theorem X8_top_pages_cite_their_text (pages : list jsstring)
    (pageEmbeddings : list jsval) (qEmb : jsval) (topK : nat) :
  (forall p, p ∈ rank pages pageEmbeddings qEmb topK ->
     1 <= pageNumber p <= length pages /\
     pages !! (pageNumber p - 1) = Some (text p)) /\
  NoDup (map pageNumber (rank pages pageEmbeddings qEmb topK)).
Proof.
  split; [intros p; apply rank_cites|apply rank_pageNumbers_NoDup].
Qed.

End ScoreFacts.

(** ** The embedding of the pages *)

Module EmbedFacts.
Import Ranker VectorStore RouteFacts.

Lemma storeBatch_length pageEmbeddings i batchEmb :
  length (storeBatch pageEmbeddings i batchEmb) = length pageEmbeddings.
Proof.
  revert pageEmbeddings i. induction batchEmb as [|e rest IH]; intros pe i; simpl; [done|].
  by rewrite IH, length_insert.
Qed.

Lemma storeBatch_outside pageEmbeddings i batchEmb j :
  j < i \/ i + length batchEmb <= j ->
  storeBatch pageEmbeddings i batchEmb !! j = pageEmbeddings !! j.
Proof.
  revert pageEmbeddings i. induction batchEmb as [|e rest IH]; intros pe i Hj; simpl; [done|].
  simpl in Hj. rewrite IH by lia. apply list_lookup_insert_ne. lia.
Qed.

Lemma storeBatch_inside pageEmbeddings i batchEmb o :
  i + length batchEmb <= length pageEmbeddings ->
  o < length batchEmb ->
  storeBatch pageEmbeddings i batchEmb !! (i + o) = batchEmb !! o.
Proof.
  revert pageEmbeddings i o. induction batchEmb as [|e rest IH]; intros pe i o Hfit Ho;
    simpl in *; [lia|].
  destruct o as [|o].
  - rewrite Nat.add_0_r, storeBatch_outside by lia.
    apply list_lookup_insert_eq. lia.
  - replace (i + S o) with (S i + o) by lia. apply IH; [|lia].
    rewrite length_insert. lia.
Qed.

Lemma checkBatch_Ret batch res batchEmb :
  checkBatch batch res = Ret batchEmb ->
  res = Some (ArrayOf batchEmb) /\ length batchEmb = length batch.
Proof.
  unfold checkBatch. destruct res as [[|l]|]; try done.
  destruct (Nat.eqb_spec (length l) (length batch)); simpl; [|done].
  by intros [= <-].
Qed.

Lemma slice_length {A} (l : list A) i b :
  length (slice i (i + b) l) = Nat.min b (length l - i).
Proof. unfold slice. rewrite length_take, length_drop. f_equal. lia. Qed.

(** The loop, entered after [k0] batches with the slots in front of
    [k0 * batchSize] filled. *)
Lemma embedLoop_aligned w fi pages batchSize :
  1 <= batchSize ->
  forall fuel k0 pageEmbeddings result,
    length pageEmbeddings = length pages ->
    embedLoop fuel w fi pages batchSize (k0 * batchSize) pageEmbeddings = Ret result ->
    length result = length pages /\
    (forall j, j < k0 * batchSize -> result !! j = pageEmbeddings !! j) /\
    (forall k o, k0 <= k -> o < batchSize -> k * batchSize + o < length pages ->
       exists batchEmb,
         embedBatch w fi (k * batchSize)
           (slice (k * batchSize) (k * batchSize + batchSize) pages) =
           Some (ArrayOf batchEmb) /\
         length batchEmb =
           length (slice (k * batchSize) (k * batchSize + batchSize) pages) /\
         result !! (k * batchSize + o) = batchEmb !! o).
Proof.
  intros Hb. induction fuel as [|fuel IH]; intros k0 pe result Hlen; simpl.
  - destruct (Nat.ltb_spec (k0 * batchSize) (length pages)); [done|].
    intros [= <-]. split; [done|]. split; [done|]. intros k o ? ? ?. nia.
  - destruct (Nat.ltb_spec (k0 * batchSize) (length pages)) as [Hin|Hout].
    2:{ intros [= <-]. split; [done|]. split; [done|]. intros k o ? ? ?. nia. }
    set (i := k0 * batchSize) in *.
    destruct (checkBatch (slice i (i + batchSize) pages)
                (embedBatch w fi i (slice i (i + batchSize) pages)))
      as [batchEmb|e|] eqn:Hcheck; simpl; [|done..].
    apply checkBatch_Ret in Hcheck as [Hres Hsize].
    pose proof (slice_length pages i batchSize) as Hslice.
    replace (i + batchSize) with (S k0 * batchSize) by (subst i; lia).
    intros Hrec. apply IH in Hrec as (Hlen' & Hbefore & Hafter).
    2:{ by rewrite storeBatch_length. }
    split; [done|]. split.
    + intros j Hj. rewrite Hbefore by lia. apply storeBatch_outside. lia.
    + intros k o Hk Ho Hlt.
      destruct (decide (k = k0)) as [->|Hne]; [|apply Hafter; lia].
      exists batchEmb. fold i. split; [done|]. split; [done|].
      rewrite Hbefore by (subst i; lia).
      apply storeBatch_inside; lia.
Qed.

(** X9. When the embedding of the pages returns, it returns one slot per
    page, and the slot of page [k * batchSize + o] holds entry [o] of what
    the provider returned for the batch of offset [k * batchSize], which
    had one entry per page of the batch: pages and embeddings stay
    aligned. *)
Theorem X9_embeddings_aligned_with_pages (w : World) (fi : nat)
    (pages : list jsstring) (batchSize : nat) (pageEmbeddings : list jsval) :
  1 <= batchSize ->
  embedPages w fi pages batchSize = Ret pageEmbeddings ->
  length pageEmbeddings = length pages /\
  (forall k o, o < batchSize -> k * batchSize + o < length pages ->
     exists batchEmb,
       embedBatch w fi (k * batchSize)
         (slice (k * batchSize) (k * batchSize + batchSize) pages) =
         Some (ArrayOf batchEmb) /\
       length batchEmb =
         length (slice (k * batchSize) (k * batchSize + batchSize) pages) /\
       pageEmbeddings !! (k * batchSize + o) = batchEmb !! o).
Proof.
  intros Hb. unfold embedPages.
  destruct (embedLoop (length pages) w fi pages batchSize 0
              (replicate (length pages) JOther)) as [r|e|] eqn:Hloop; simpl; [|done..].
  intros [= <-].
  apply (embedLoop_aligned w fi pages batchSize Hb (length pages) 0) in Hloop
    as (Hlen & _ & Hslots); [|by rewrite length_replicate].
  split; [done|]. intros k o Ho Hlt. apply Hslots; [lia|done..].
Qed.

(** The witness of X9: the two pages of the sample, in one batch. *)
Lemma X9_embeddings_aligned_with_pages_witness :
  length [JArray [1%R]; JArray [1%R]] = length [js "Alpha"; js "Beta"] /\
  (forall k o, o < 8 -> k * 8 + o < length [js "Alpha"; js "Beta"] ->
     exists batchEmb,
       embedBatch Demo.world 0 (k * 8)
         (slice (k * 8) (k * 8 + 8) [js "Alpha"; js "Beta"]) =
         Some (ArrayOf batchEmb) /\
       length batchEmb = length (slice (k * 8) (k * 8 + 8) [js "Alpha"; js "Beta"]) /\
       [JArray [1%R]; JArray [1%R]] !! (k * 8 + o) = batchEmb !! o).
Proof.
  apply (X9_embeddings_aligned_with_pages Demo.world 0 [js "Alpha"; js "Beta"] 8).
  - lia.
  - reflexivity.
Defined.

Lemma checkBatch_accepted batch res :
  ~ refused batch res -> exists batchEmb, checkBatch batch res = Ret batchEmb.
Proof.
  unfold refused, checkBatch. destruct res as [[|l]|]; try tauto.
  intros Hlen. destruct (Nat.eqb_spec (length l) (length batch)); simpl; [eauto|done].
Qed.

Lemma embedLoop_accepted w fi pages batchSize :
  1 <= batchSize ->
  (forall k, k * batchSize < length pages ->
     ~ refused (slice (k * batchSize) (k * batchSize + batchSize) pages)
         (embedBatch w fi (k * batchSize)
            (slice (k * batchSize) (k * batchSize + batchSize) pages))) ->
  forall fuel k0 pageEmbeddings,
    length pages <= fuel + k0 * batchSize ->
    exists result,
      embedLoop fuel w fi pages batchSize (k0 * batchSize) pageEmbeddings = Ret result.
Proof.
  intros Hb Hok. induction fuel as [|fuel IH]; intros k0 pe Hfuel; simpl.
  - destruct (Nat.ltb_spec (k0 * batchSize) (length pages)); [lia|eauto].
  - destruct (Nat.ltb_spec (k0 * batchSize) (length pages)) as [Hin|]; [|eauto].
    destruct (checkBatch_accepted _ _ (Hok k0 Hin)) as [batchEmb ->]. simpl.
    replace (k0 * batchSize + batchSize) with (S k0 * batchSize) by lia.
    apply IH. lia.
Qed.

(** X10. With a batch size of at least one, the embedding of the pages
    returns exactly when the provider fails on none of the batches of
    offsets 0, batchSize, 2 * batchSize, ... below the number of pages;
    otherwise it throws "Embedding pages failed". *)
Theorem X10_embedding_returns_iff_no_batch_refused (w : World) (fi : nat)
    (pages : list jsstring) (batchSize : nat) :
  1 <= batchSize ->
  ((exists pageEmbeddings, embedPages w fi pages batchSize = Ret pageEmbeddings) <->
   (forall k, k * batchSize < length pages ->
      ~ refused (slice (k * batchSize) (k * batchSize + batchSize) pages)
          (embedBatch w fi (k * batchSize)
             (slice (k * batchSize) (k * batchSize + batchSize) pages)))) /\
  ((exists pageEmbeddings, embedPages w fi pages batchSize = Ret pageEmbeddings) \/
   (exists e, embedPages w fi pages batchSize = Throw (EmbeddingPagesFailed e))).
Proof.
  intros Hb. split; [split|].
  - intros [r Hr] k Hk Hbad.
    apply checkBatch_refused in Hbad as [e Hbad].
    destruct (embedLoop_refused w fi pages batchSize e k Hb (length pages) 0
                (replicate (length pages) JOther)) as [e' He']; [simpl; lia..|done|].
    unfold embedPages in Hr. by rewrite He' in Hr.
  - intros Hok.
    destruct (embedLoop_accepted w fi pages batchSize Hb Hok (length pages) 0
                (replicate (length pages) JOther)) as [r Hr]; [simpl; lia|].
    unfold embedPages. simpl in Hr. rewrite Hr. simpl. eauto.
  - pose proof (embedPages_ends w fi pages batchSize Hb) as Hends.
    unfold embedPages in *.
    destruct (embedLoop (length pages) w fi pages batchSize 0
                (replicate (length pages) JOther)); simpl in *; [eauto|eauto|done].
Qed.

(** The witness of X10: the sample world and the default batch size. *)
Lemma X10_embedding_returns_iff_no_batch_refused_witness :
  ((exists pageEmbeddings,
      embedPages Demo.world 0 [js "Alpha"; js "Beta"] 8 = Ret pageEmbeddings) <->
   (forall k, k * 8 < length [js "Alpha"; js "Beta"] ->
      ~ refused (slice (k * 8) (k * 8 + 8) [js "Alpha"; js "Beta"])
          (embedBatch Demo.world 0 (k * 8)
             (slice (k * 8) (k * 8 + 8) [js "Alpha"; js "Beta"])))) /\
  ((exists pageEmbeddings,
      embedPages Demo.world 0 [js "Alpha"; js "Beta"] 8 = Ret pageEmbeddings) \/
   (exists e,
      embedPages Demo.world 0 [js "Alpha"; js "Beta"] 8 =
      Throw (EmbeddingPagesFailed e))).
Proof.
  apply (X10_embedding_returns_iff_no_batch_refused Demo.world 0
           [js "Alpha"; js "Beta"] 8).
  lia.
Defined.

End EmbedFacts.

(** ** Stored names and the upload directory *)

Module StoreFacts.
Import Storage Route NameFacts RouteFacts.

Lemma sanitize_safe name : Forall (fun c => isSafe c = true) (sanitize name).
Proof.
  unfold sanitize. apply Forall_forall. intros c (a & -> & _)%list_elem_of_fmap.
  by destruct (isSafe a) eqn:Ha.
Qed.

Lemma digit_safe c : isDigit c = true -> isSafe c = true.
Proof. unfold isSafe. intros ->. by rewrite orb_true_r. Qed.

Lemma storageName_safe now name :
  Forall (fun c => isSafe c = true) (storageName now name).
Proof.
  unfold storageName. apply Forall_app. split; [|apply Forall_app; split].
  - pose proof (decimal_digits now) as H. rewrite forallb_forall in H.
    apply Forall_forall. intros c Hc%list_elem_of_In. by apply digit_safe, H.
  - by repeat constructor.
  - apply sanitize_safe.
Qed.

(** X11. A storage name is made of the characters [A-Za-z0-9._-] only and
    starts with a digit: it holds no slash and no backslash and is not a
    dot name, so it names a file of the directory it is joined to.
    Sanitizing keeps the length of a name and changes nothing when applied
    again. *)
Theorem X11_storage_names_are_safe (now : N) (name : jsstring) :
  Forall (fun c => isSafe c = true) (storageName now name) /\
  47%N ∉ storageName now name /\ 92%N ∉ storageName now name /\
  (exists c rest, storageName now name = c :: rest /\ isDigit c = true) /\
  length (sanitize name) = length name /\
  sanitize (sanitize name) = sanitize name.
Proof.
  pose proof (storageName_safe now name) as Hsafe. rewrite Forall_forall in Hsafe.
  split; [by apply Forall_forall|]. split; [|split; [|split; [|split]]].
  - intros H%Hsafe. done.
  - intros H%Hsafe. done.
  - unfold storageName. pose proof (decimal_nonempty now) as Hne.
    pose proof (decimal_digits now) as Hd.
    destruct (decimal now) as [|c ds]; [done|]. simpl in Hd.
    apply andb_true_iff in Hd as [Hc _]. exists c. eexists. split; [reflexivity|done].
  - unfold sanitize. apply length_map.
  - unfold sanitize. rewrite map_map. apply map_ext. intros c.
    by destruct (isSafe c) eqn:Hc; [rewrite Hc|].
Qed.

(** X12. The display name of a stored file is the sanitized name of the
    upload, whatever the time stamp and even when the uploaded name itself
    starts with digits and an underscore; and a stored file passes the
    .pdf filter of the follow-up exactly when the uploaded name ends in
    .pdf, in any case. *)
Theorem X12_stored_names_round_trip (now : N) (name : jsstring) :
  stripTimestamp (storageName now name) = sanitize name /\
  isPdfName (storageName now name) = isPdfName name /\
  isPdfName (stripTimestamp (storageName now name)) = isPdfName name.
Proof.
  rewrite stripTimestamp_storageName, isPdfName_storageName, isPdfName_sanitize. done.
Qed.

(** The storage names of the parts of a request. *)
Lemma multerStore_lookup ps :
  forall d n,
    n ∉ map (fun p => storageName (partTime p) (partName p)) ps ->
    uploadDir (multerStore d ps).2 !! n = uploadDir d !! n.
Proof.
  induction ps as [|p ps IH]; intros d n Hn; simpl; [done|].
  simpl in Hn. apply not_elem_of_cons in Hn as [Hne Hn].
  specialize (IH {| uploadDir := <[storageName (partTime p) (partName p) := partData p]> (uploadDir d);
                    sessionDirs := sessionDirs d |} n Hn).
  destruct (multerStore _ ps) as [files d2]. simpl in *.
  rewrite IH. by apply lookup_insert_ne.
Qed.

Lemma multerStore_stored ps :
  NoDup (map (fun p => storageName (partTime p) (partName p)) ps) ->
  forall d p, p ∈ ps ->
    uploadDir (multerStore d ps).2 !! storageName (partTime p) (partName p) =
    Some (partData p).
Proof.
  induction ps as [|q ps IH]; intros Hdup d p Hp; [by apply elem_of_nil in Hp|].
  simpl in Hdup. apply NoDup_cons in Hdup as [Hq Hdup].
  pose proof (multerStore_lookup ps
                {| uploadDir := <[storageName (partTime q) (partName q) := partData q]> (uploadDir d);
                   sessionDirs := sessionDirs d |}) as Hkeep.
  specialize (IH Hdup
                {| uploadDir := <[storageName (partTime q) (partName q) := partData q]> (uploadDir d);
                   sessionDirs := sessionDirs d |}).
  simpl. destruct (multerStore _ ps) as [files d2]. simpl in *.
  apply elem_of_cons in Hp as [->|Hp]; [|by apply IH].
  rewrite Hkeep by done. simpl. apply lookup_insert_eq.
Qed.

(** X13. When the storage names of the parts of a request are pairwise
    different, every uploaded file can be read back under its path with
    the bytes that were sent and has their length as size; files of the
    upload directory under other names and all session directories are
    left as they were. *)
Theorem X13_uploads_are_stored (d : Disk) (ps : list Part) :
  NoDup (map (fun p => storageName (partTime p) (partName p)) ps) ->
  (multerStore d ps).1 = map uploaded ps /\
  (forall p, p ∈ ps ->
     readFileSync (multerStore d ps).2 (path (uploaded p)) = Some (partData p) /\
     size (uploaded p) = length (partData p)) /\
  (forall n, n ∉ map (fun p => storageName (partTime p) (partName p)) ps ->
     uploadDir (multerStore d ps).2 !! n = uploadDir d !! n) /\
  sessionDirs (multerStore d ps).2 = sessionDirs d.
Proof.
  intros Hdup. pose proof (multerStore_spec d ps) as [Hfiles Hsess].
  split; [done|]. split; [|split; [|done]].
  - intros p Hp. split; [|done]. unfold readFileSync. simpl.
    by apply multerStore_stored.
  - intros n Hn. by apply multerStore_lookup.
Qed.

(** The witness of X13: the file of the sample. *)
Lemma X13_uploads_are_stored_witness :
  (multerStore Demo.emptyDisk [Demo.report]).1 = map uploaded [Demo.report] /\
  (forall p, p ∈ [Demo.report] ->
     readFileSync (multerStore Demo.emptyDisk [Demo.report]).2 (path (uploaded p)) =
       Some (partData p) /\
     size (uploaded p) = length (partData p)) /\
  (forall n, n ∉ map (fun p => storageName (partTime p) (partName p)) [Demo.report] ->
     uploadDir (multerStore Demo.emptyDisk [Demo.report]).2 !! n =
     uploadDir Demo.emptyDisk !! n) /\
  sessionDirs (multerStore Demo.emptyDisk [Demo.report]).2 = sessionDirs Demo.emptyDisk.
Proof.
  apply (X13_uploads_are_stored Demo.emptyDisk [Demo.report]).
  simpl. apply NoDup_singleton.
Defined.

End StoreFacts.

(** ** The session manager *)

Module SessionFacts.
Import Storage Route NameFacts RouteFacts RouteSpec.

(** What a run of the moving loop leaves alone, however it ends. *)
Lemma moveAll_frame w id files :
  Forall inUploadDir files ->
  forall d r d',
    moveAll w d id files = (r, d') ->
    (forall id', id' <> id -> sessionDirs d' !! id' = sessionDirs d !! id') /\
    (forall n, uploadDir d !! n = None -> uploadDir d' !! n = None) /\
    (forall e n, sessionDirs d !! id = Some e -> is_Some (e !! n) ->
       exists e', sessionDirs d' !! id = Some e' /\ is_Some (e' !! n)).
Proof.
  induction 1 as [|f files Hf _ IH]; intros d r d'; simpl.
  - intros [= <- <-]. eauto.
  - destruct (moveFile w d f _) as [d1|] eqn:Hmove.
    2:{ intros [= <- <-]. eauto. }
    apply moveFile_spec in Hmove as (data & entries & Hdata & Hentries & Hup & Hsess); [|done].
    destruct (moveAll w d1 id files) as [r1 d2] eqn:Hrest.
    apply IH in Hrest as (Hother & Hgone & Hkept).
    intros [= <- <-]. split; [|split].
    + intros id' Hne. rewrite Hother by done. rewrite Hsess. by apply lookup_insert_ne.
    + intros n Hn. apply Hgone. rewrite Hup. apply lookup_delete_None. by right.
    + intros e n He Hn. rewrite Hentries in He. injection He as <-.
      apply (Hkept (<[filename f := data]> entries) n).
      * rewrite Hsess. apply lookup_insert_eq.
      * rewrite lookup_insert. case_decide; [done|]. done.
Qed.

(** X14. Whatever the outcome of the session manager, also when a move
    throws half-way, the directory of every other upload id is left as it
    was, no file is added to the upload directory, and a file already in
    the directory of the new id is still there (possibly replaced by an
    upload of the same storage name). *)
Theorem X14_other_sessions_untouched (w : World) (d : Disk) (allFiles : list File)
    (req : Request) (r : comp (list File * option jsstring)) (d1 : Disk) :
  Forall inUploadDir allFiles ->
  resolveSession w d allFiles req = (r, d1) ->
  (forall id, id <> randomUUID w -> sessionDirs d1 !! id = sessionDirs d !! id) /\
  (forall n, uploadDir d !! n = None -> uploadDir d1 !! n = None) /\
  (forall e n, sessionDirs d !! randomUUID w = Some e -> is_Some (e !! n) ->
     exists e', sessionDirs d1 !! randomUUID w = Some e' /\ is_Some (e' !! n)).
Proof.
  intros Hin. unfold resolveSession, mintAndMove.
  destruct allFiles as [|f files].
  { intros [= <- <-]. eauto. }
  destruct (uploadIdFromClient req) as [id|].
  { intros [= <- <-]. eauto. }
  set (uuid := randomUUID w).
  set (d0 := if existsSync d uuid then d else mkdirSync d uuid).
  assert (uploadDir d0 = uploadDir d /\
          (forall id, id <> uuid -> sessionDirs d0 !! id = sessionDirs d !! id) /\
          (forall e, sessionDirs d !! uuid = Some e -> sessionDirs d0 !! uuid = Some e))
    as (Hup0 & Hother0 & Hsame0).
  { subst d0. unfold existsSync, mkdirSync.
    destruct (sessionDirs d !! uuid) eqn:He; simpl.
    - split; [done|]. split; [done|]. by intros e [= <-].
    - split; [done|]. split; [|done]. intros id Hne. by apply lookup_insert_ne. }
  destruct (moveAll w d0 uuid (f :: files)) as [r0 d2] eqn:Hmove.
  apply (moveAll_frame w uuid (f :: files) Hin) in Hmove as (Hother & Hgone & Hkept).
  intros [= <- <-]. split; [|split].
  - intros id Hne. rewrite Hother by done. by apply Hother0.
  - intros n Hn. apply Hgone. by rewrite Hup0.
  - intros e n He Hn. apply (Hkept e n); [by apply Hsame0|done].
Qed.

(** The witness of X14: the first upload of the sample. *)
Lemma X14_other_sessions_untouched_witness :
  let stored := multerStore Demo.emptyDisk [Demo.report] in
  let resolved := resolveSession Demo.world stored.2 stored.1 Demo.firstUpload in
  (forall id, id <> randomUUID Demo.world ->
     sessionDirs resolved.2 !! id = sessionDirs stored.2 !! id) /\
  (forall n, uploadDir stored.2 !! n = None -> uploadDir resolved.2 !! n = None) /\
  (forall e n, sessionDirs stored.2 !! randomUUID Demo.world = Some e ->
     is_Some (e !! n) ->
     exists e', sessionDirs resolved.2 !! randomUUID Demo.world = Some e' /\
                is_Some (e' !! n)).
Proof.
  apply (X14_other_sessions_untouched Demo.world
           (multerStore Demo.emptyDisk [Demo.report]).2
           (multerStore Demo.emptyDisk [Demo.report]).1 Demo.firstUpload
           (resolveSession Demo.world (multerStore Demo.emptyDisk [Demo.report]).2
              (multerStore Demo.emptyDisk [Demo.report]).1 Demo.firstUpload).1).
  - repeat constructor.
  - vm_compute. reflexivity.
Defined.

(** The handler leaves the disk as the session manager has left it. *)
Lemma handler_disk w d allFiles req :
  (handler w d allFiles req).2 = (resolveSession w d allFiles req).2.
Proof.
  unfold handler.
  destruct (resolveSession w d allFiles req) as [[[files uploadId]|e|] d1]; [|done..].
  destruct files as [|f files]; [done|].
  destruct (bodyQuestion req) as [[|c q]|]; [done| |done].
  destruct (processFiles w d1 (c :: q) 0 (f :: files) []); [|done..].
  by destruct (askWithLlama w _ (c :: q)).
Qed.

(** X15. A request handled without files, or with files and an upload id
    of the client, leaves the disk as the handler found it, whatever the
    answer; a request without file parts leaves the whole disk as it
    was. *)
Theorem X15_follow_ups_do_not_write (w : World) (d : Disk) (req : Request) :
  (forall allFiles,
     allFiles = [] \/ uploadIdFromClient req <> None ->
     (handler w d allFiles req).2 = d) /\
  (parts req = [] -> (ask w d req).2 = d).
Proof.
  assert (forall allFiles,
            allFiles = [] \/ uploadIdFromClient req <> None ->
            (handler w d allFiles req).2 = d) as Hhandler.
  { intros allFiles Hcase. rewrite handler_disk.
    destruct Hcase as [->|Hid]; [by rewrite resolveSession_no_files|].
    destruct allFiles as [|f files]; [by rewrite resolveSession_no_files|].
    destruct (uploadIdFromClient req) as [id|] eqn:Hfrom; [|done].
    by erewrite resolveSession_client_id. }
  split; [done|]. intros Hparts. unfold ask. rewrite Hparts. simpl.
  apply Hhandler. by left.
Qed.

(** What a run of the moving loop that succeeds has put into the
    directory. *)
Lemma moveAll_contents w id files :
  Forall inUploadDir files ->
  NoDup (map filename files) ->
  forall d e0 r d',
    sessionDirs d !! id = Some e0 ->
    moveAll w d id files = (Ret r, d') ->
    exists e',
      sessionDirs d' !! id = Some e' /\
      (forall f, f ∈ files -> e' !! filename f = uploadDir d !! filename f /\
                              is_Some (uploadDir d !! filename f)) /\
      (forall n, n ∉ map filename files -> e' !! n = e0 !! n).
Proof.
  induction 1 as [|f files Hf _ IH]; intros Hdup d e0 r d' He0; simpl.
  - intros [= <- <-]. exists e0. split; [done|]. split; [|done].
    intros f Hf. by apply elem_of_nil in Hf.
  - simpl in Hdup. apply NoDup_cons in Hdup as [Hfresh Hdup].
    destruct (moveFile w d f _) as [d1|] eqn:Hmove; [|done].
    apply moveFile_spec in Hmove as (data & entries & Hdata & Hentries & Hup & Hsess); [|done].
    rewrite He0 in Hentries. injection Hentries as <-.
    destruct (moveAll w d1 id files) as [r1 d2] eqn:Hrest.
    destruct r1 as [rest'| |]; simpl; [|done..].
    apply (IH Hdup d1 (<[filename f := data]> e0)) in Hrest
      as (e' & He' & Hfiles & Hothers).
    2:{ rewrite Hsess. apply lookup_insert_eq. }
    intros [= <- <-]. exists e'. split; [done|]. split.
    + intros g Hg. apply elem_of_cons in Hg as [->|Hg].
      * rewrite Hothers by done. rewrite lookup_insert_eq, Hdata. eauto.
      * destruct (Hfiles g Hg) as [Hg1 Hg2]. rewrite Hg1. rewrite Hup in Hg2 |- *.
        assert (filename g <> filename f) as Hne.
        { intros Heq. apply Hfresh. rewrite <- Heq. by apply list_elem_of_fmap_2. }
        rewrite lookup_delete_ne in Hg2 |- * by done. done.
    + intros n Hn. simpl in Hn. apply not_elem_of_cons in Hn as [Hne Hn].
      rewrite Hothers by done. by apply lookup_insert_ne.
Qed.

(** X16. After a first upload whose parts have pairwise different
    storage names and which the session manager accepts, every uploaded
    file is read from the directory of the new id with the bytes that were
    sent, and is no longer in the upload directory. *)
Theorem X16_moved_files_keep_their_bytes (w : World) (d : Disk) (req : Request)
    (files : list File) (uploadId : option jsstring) (d1 : Disk) :
  NoDup (map (fun p => storageName (partTime p) (partName p)) (parts req)) ->
  parts req <> [] ->
  uploadIdFromClient req = None ->
  resolveSession w (multerStore d (parts req)).2 (multerStore d (parts req)).1 req =
    (Ret (files, uploadId), d1) ->
  uploadId = Some (randomUUID w) /\
  files = map (fun p => moved (uploaded p) (randomUUID w)) (parts req) /\
  forall p, p ∈ parts req ->
    readFileSync d1 (path (moved (uploaded p) (randomUUID w))) = Some (partData p) /\
    readFileSync d1 (path (uploaded p)) = None.
Proof.
  intros Hdup Hparts Hid.
  pose proof (multerStore_spec d (parts req)) as [Hfiles Hsess].
  pose proof (StoreFacts.multerStore_stored (parts req) Hdup d) as Hstored.
  destruct (multerStore d (parts req)) as [allFiles d0]. simpl in *. subst allFiles.
  unfold resolveSession, mintAndMove. rewrite Hid.
  destruct (map uploaded (parts req)) as [|f0 fs0] eqn:Hmap.
  { by destruct (parts req). }
  rewrite <- Hmap. clear f0 fs0 Hmap.
  set (uuid := randomUUID w).
  set (d0' := if existsSync d0 uuid then d0 else mkdirSync d0 uuid).
  assert (uploadDir d0' = uploadDir d0 /\ exists e0, sessionDirs d0' !! uuid = Some e0)
    as [Hup0 [e0 He0]].
  { subst d0'. unfold existsSync, mkdirSync.
    destruct (sessionDirs d0 !! uuid) eqn:He; simpl; [eauto|].
    split; [done|]. rewrite lookup_insert_eq. eauto. }
  destruct (moveAll w d0' uuid (map uploaded (parts req))) as [r0 d2] eqn:Hmove.
  pose proof Hmove as Hmove'.
  apply (moveAll_spec w uuid _ (uploaded_inUploadDir (parts req)) d0' e0) in Hmove'
    as [Hr0 Hgone]; [|done].
  destruct Hr0 as [-> | ->]; [done|]. simpl.
  assert (forall d fs u, resolveFiles d fs None u = (fs, u)) as Hplain
    by (by intros ? [|] ?).
  rewrite Hplain. intros [= <- <- <-].
  apply (moveAll_contents w uuid _ (uploaded_inUploadDir (parts req))) with (e0 := e0)
    in Hmove as (e' & He' & Hcontents & _); [|by rewrite <- list_fmap_compose|done].
  destruct (Hgone eq_refl) as (_ & _ & _ & Hmovedaway & _).
  split; [done|]. split; [by rewrite <- list_fmap_compose|].
  intros p Hp. split.
  - unfold readFileSync. simpl. rewrite He'. simpl.
    destruct (Hcontents (uploaded p)) as [Hc _]; [by apply list_elem_of_fmap_2|].
    simpl in Hc. rewrite Hc, Hup0. by apply Hstored.
  - unfold readFileSync. simpl. apply Hmovedaway.
    rewrite <- list_fmap_compose. by apply (list_elem_of_fmap_2 (filename ∘ uploaded)).
Qed.

(** The witness of X16: the first upload of the sample. *)
Lemma X16_moved_files_keep_their_bytes_witness :
  Some (randomUUID Demo.world) = Some (randomUUID Demo.world) /\
  map (fun f => moved f (randomUUID Demo.world))
      (multerStore Demo.emptyDisk [Demo.report]).1 =
    map (fun p => moved (uploaded p) (randomUUID Demo.world)) (parts Demo.firstUpload) /\
  forall p, p ∈ parts Demo.firstUpload ->
    readFileSync
      (resolveSession Demo.world (multerStore Demo.emptyDisk [Demo.report]).2
         (multerStore Demo.emptyDisk [Demo.report]).1 Demo.firstUpload).2
      (path (moved (uploaded p) (randomUUID Demo.world))) = Some (partData p) /\
    readFileSync
      (resolveSession Demo.world (multerStore Demo.emptyDisk [Demo.report]).2
         (multerStore Demo.emptyDisk [Demo.report]).1 Demo.firstUpload).2
      (path (uploaded p)) = None.
Proof.
  apply (X16_moved_files_keep_their_bytes Demo.world Demo.emptyDisk Demo.firstUpload).
  - simpl. apply NoDup_singleton.
  - discriminate.
  - reflexivity.
  - vm_compute. reflexivity.
Defined.

(** X17. For a request without files whose upload id, if it sends one,
    is a session id (one path component, and not the name of a file of
    the upload directory), the session manager does not throw and does
    not change the disk, and the files it resolves are files of the disk:
    each can be read under its path, its size is the number of its bytes,
    and no stored name is resolved twice. *)
Theorem X17_resolved_files_exist (w : World) (d : Disk) (req : Request) :
  clientSessionId d req ->
  exists files uploadId,
    resolveSession w d [] req = (Ret (files, uploadId), d) /\
    Forall (fun f => exists data,
              readFileSync d (path f) = Some data /\ size f = length data) files /\
    NoDup (map filename files).
Proof.
  intros _. rewrite resolveSession_no_files. unfold resolveFiles.
  destruct (uploadIdFromClient req) as [id|]; [|by exists [], None; repeat constructor].
  destruct (sessionDirs d !! id) as [entries|] eqn:He;
    [|by exists [], (Some id); repeat constructor].
  eexists _, _. split; [done|]. split.
  - apply Forall_forall.
    intros f (n & -> & [_ [data Hn]%readdirSync_spec]%list_elem_of_filter)%list_elem_of_fmap.
    exists data. unfold readFileSync. simpl. rewrite He. simpl. rewrite Hn. done.
  - rewrite <- list_fmap_compose.
    change (filename ∘ storedFile id entries) with (@Datatypes.id jsstring).
    rewrite list_fmap_id. apply NoDup_filter. unfold readdirSync.
    apply NoDup_fst_map_to_list.
Qed.

(** The witness of X17: a follow-up on the session ["abc"], which holds
    two PDFs and a text file. *)
Lemma X17_resolved_files_exist_witness :
  exists files uploadId,
    resolveSession Demo.world Demo.mixedDisk [] (Demo.followUp (js "abc")) =
      (Ret (files, uploadId), Demo.mixedDisk) /\
    Forall (fun f => exists data,
              readFileSync Demo.mixedDisk (path f) = Some data /\
              size f = length data) files /\
    NoDup (map filename files).
Proof.
  apply (X17_resolved_files_exist Demo.world Demo.mixedDisk (Demo.followUp (js "abc"))).
  split; reflexivity.
Defined.

End SessionFacts.

(** ** The answers of the route *)

Module AnswerFacts.
Import Ranker VectorStore Storage Route NameFacts RouteFacts RouteSpec ScoreFacts.

Lemma moveAll_outcome w id files :
  forall d r d',
    moveAll w d id files = (r, d') ->
    r = Throw FileNotFound \/ exists l, r = Ret l /\ length l = length files.
Proof.
  induction files as [|f files IH]; intros d r d'; simpl.
  - intros [= <- <-]. right. by exists [].
  - destruct (moveFile w d f _) as [d1|]; [|intros [= <- <-]; by left].
    destruct (moveAll w d1 id files) as [r1 d2] eqn:Hrest.
    apply IH in Hrest as [->|(l & -> & Hlen)]; intros [= <- <-]; [by left|].
    right. eexists. split; [done|]. simpl. by rewrite Hlen.
Qed.

(** The outcomes of the session manager. *)
Lemma resolveSession_outcome w d allFiles req r d1 :
  resolveSession w d allFiles req = (r, d1) ->
  r = Throw FileNotFound \/
  exists files uploadId,
    r = Ret (files, uploadId) /\
    match allFiles with
    | [] => (files, uploadId) =
            resolveFiles d [] (uploadIdFromClient req) (uploadIdFromClient req) /\ d1 = d
    | _ :: _ =>
        files <> [] /\
        uploadId = Some (default (randomUUID w) (uploadIdFromClient req))
    end.
Proof.
  destruct allFiles as [|f fs].
  { rewrite resolveSession_no_files.
    destruct (resolveFiles d [] (uploadIdFromClient req) (uploadIdFromClient req))
      as [fs u].
    intros [= <- <-]. right. by exists fs, u. }
  unfold resolveSession, mintAndMove.
  destruct (uploadIdFromClient req) as [id|].
  { intros [= <- <-]. right. eexists _, _. split; [done|]. done. }
  destruct (moveAll w _ (randomUUID w) (f :: fs)) as [r0 d2] eqn:Hmove.
  apply moveAll_outcome in Hmove as [->|(l & -> & Hlen)]; intros [= <- <-]; [by left|].
  right. simpl. destruct l as [|g l]; [done|]. eexists _, _. split; [done|]. done.
Qed.

Lemma vectorSearch_throws w fi buffer question opts e :
  vectorSearchForPdfBuffer w fi buffer question opts = Throw e -> documentError e.
Proof.
  unfold vectorSearchForPdfBuffer. destruct (negb (truthy question)); [by intros [= <-]|].
  destruct (extractText w buffer) as [fullText|]; simpl; [|by intros [= <-]].
  destruct (PageFacts.splitIntoPages_bounds (chunkSizeWords opts) (maxPages opts) fullText)
    as (pages & -> & _). simpl.
  unfold embedPages.
  destruct (embedLoop _ _ _ _ _ _ _); simpl; [|by intros [= <-]|done].
  destruct (embedQuestion w fi question); simpl; [done|by intros [= <-]].
Qed.

Lemma processFile_throws w d question fi file e :
  processFile w d question fi file = Throw e -> documentError e.
Proof.
  unfold processFile. destruct (readFileSync d (path file)) as [buffer|]; [|by intros [= <-]].
  destruct (negb (pdfParse w buffer)); [by intros [= <-]|].
  destruct (vectorSearchForPdfBuffer w fi buffer question defaultOptions) eqn:Hsearch;
    simpl; [done| |done].
  intros [= <-]. by eapply vectorSearch_throws.
Qed.

(** What a processed document holds. *)
Lemma processFile_returns w d question fi file doc :
  processFile w d question fi file = Ret doc ->
  docFilename doc = originalname file /\
  exists pages pageEmbeddings qEmb,
    docTopPages doc = rank pages pageEmbeddings qEmb 5 /\ pages <> [].
Proof.
  unfold processFile. destruct (readFileSync d (path file)) as [buffer|]; [|done].
  destruct (negb (pdfParse w buffer)); [done|].
  unfold vectorSearchForPdfBuffer. destruct (negb (truthy question)); [done|].
  destruct (extractText w buffer) as [fullText|]; simpl; [|done].
  destruct (PageFacts.splitIntoPages_bounds 300 400 fullText) as (pages & -> & _ & Hne).
  simpl. destruct (embedPages w fi pages 8) as [pageEmbeddings| |]; simpl; [|done..].
  destruct (embedQuestion w fi question) as [qEmb|]; simpl; [|done].
  intros [= <-]. simpl. split; [done|]. exists pages, pageEmbeddings, qEmb.
  split; [done|]. apply Hne. lia.
Qed.

Lemma rank_source pages pageEmbeddings qEmb :
  pages <> [] ->
  let top := rank pages pageEmbeddings qEmb 5 in
  1 <= length top <= 5 /\
  NoDup (map pageNumber top) /\
  Forall (fun p => 1 <= pageNumber p <= length pages) top.
Proof.
  intros Hne top. split; [|split].
  - unfold top. rewrite rank_length. destruct pages; [done|]. simpl length. lia.
  - apply rank_pageNumbers_NoDup.
  - apply Forall_forall. intros p Hp. by apply rank_cites in Hp as [? _].
Qed.

Lemma processFiles_processed w d question files :
  forall fi acc perDoc,
    processFiles w d question fi files acc = Processed perDoc ->
    exists docs,
      perDoc = acc ++ docs /\
      map docFilename docs = map originalname files /\
      Forall (fun doc => wellFormedSource (sourceOf doc)) docs.
Proof.
  induction files as [|file files IH]; intros fi acc perDoc; simpl.
  - intros [= <-]. exists []. by rewrite app_nil_r.
  - destruct (processFile w d question fi file) as [doc| |] eqn:Hdoc; [|done..].
    intros (docs & -> & Hnames & Hdocs)%IH.
    apply processFile_returns in Hdoc as (Hname & pages & embs & q & Htop & Hne).
    exists (doc :: docs). split; [by rewrite <- app_assoc|]. split.
    + simpl. by rewrite Hname, Hnames.
    + constructor; [|done].
      destruct (rank_source pages embs q Hne) as (Hlen & Hdup & Hall).
      unfold wellFormedSource, sourceOf. simpl. rewrite Htop.
      rewrite length_map, map_map. simpl. split; [done|]. split; [done|].
      apply Forall_forall. intros ps (p & -> & Hp)%list_elem_of_fmap. simpl.
      rewrite Forall_forall in Hall. by apply Hall in Hp as [? _].
Qed.

Lemma processFiles_ends w d question files :
  forall fi acc, processFiles w d question fi files acc <> Unfinished.
Proof.
  induction files as [|file files IH]; intros fi acc; simpl; [done|].
  pose proof (processFile_ends w d question fi file) as Hends.
  destruct (processFile w d question fi file); [apply IH|done|done].
Qed.

Lemma processFiles_reply w d question files :
  forall fi acc r,
    processFiles w d question fi files acc = Replied r ->
    exists file e,
      file ∈ files /\ documentError e /\
      r = Error500 (js "Error parsing/indexing file " ++ originalname file) e.
Proof.
  induction files as [|file files IH]; intros fi acc r; simpl; [done|].
  destruct (processFile w d question fi file) as [doc|e|] eqn:Hdoc; [| |done].
  - intros (f & e & Hf & He & ->)%IH. exists f, e. split; [by right|done].
  - intros [= <-]. exists file, e. split; [by left|]. split; [|done].
    by eapply processFile_throws.
Qed.

(** X18. A request whose upload ids are session ids (the id that the
    client sends and, for a first upload, the generated one: one path
    component each, and not the name of a file of the upload directory)
    is answered, and in one of six ways: 200; 400 "No PDFs uploaded ...";
    400 "No question provided"; 500 "Error processing request" for a file
    that could not be moved; 500 "LLM inference failed"; or 500 "Error
    parsing/indexing file" followed by the display name of one of the
    resolved documents, with the error of that document. *)
Theorem X18_every_request_is_answered (w : World) (d : Disk) (allFiles : list File)
    (req : Request) :
  clientSessionId d req ->
  (allFiles <> [] -> uploadIdFromClient req = None -> sessionId d (randomUUID w)) ->
  exists r,
    (handler w d allFiles req).1 = Some r /\
    match r with
    | Ok200 _ _ _ => True
    | Error400 msg => msg = noPdfMessage \/ msg = noQuestionMessage
    | Error500 msg e =>
        (msg = js "Error processing request" /\ e = FileNotFound) \/
        (msg = js "LLM inference failed" /\ e = LlamaFailed) \/
        (exists files uploadId d1 file,
           resolveSession w d allFiles req = (Ret (files, uploadId), d1) /\
           file ∈ files /\ documentError e /\
           msg = js "Error parsing/indexing file " ++ originalname file)
    end.
Proof.
  intros _ _. unfold handler.
  destruct (resolveSession w d allFiles req) as [r0 d1] eqn:Hres.
  pose proof (resolveSession_outcome _ _ _ _ _ _ Hres) as [->|(files & u & -> & _)].
  { eexists. split; [done|]. by left. }
  destruct files as [|f files]; [eexists; split; [done|by left]|].
  destruct (bodyQuestion req) as [[|c q]|];
    [eexists; split; [done|by right]| |eexists; split; [done|by right]].
  pose proof (processFiles_ends w d1 (c :: q) (f :: files) 0 []) as Hends.
  destruct (processFiles w d1 (c :: q) 0 (f :: files) []) as [perDoc|r|] eqn:Hloop;
    [| |done].
  - destruct (askWithLlama w _ (c :: q)); eexists; (split; [done|]); [done|].
    right. by left.
  - apply processFiles_reply in Hloop as (file & e & Hfile & He & ->).
    eexists. split; [done|]. right. right. exists (f :: files), u, d1, file. done.
Qed.

(** The witness of X18: the first upload of one file. *)
Lemma X18_every_request_is_answered_witness :
  exists r,
    (handler Demo.world (multerStore Demo.emptyDisk [Demo.report]).2
       (multerStore Demo.emptyDisk [Demo.report]).1 Demo.firstUpload).1 = Some r /\
    match r with
    | Ok200 _ _ _ => True
    | Error400 msg => msg = noPdfMessage \/ msg = noQuestionMessage
    | Error500 msg e =>
        (msg = js "Error processing request" /\ e = FileNotFound) \/
        (msg = js "LLM inference failed" /\ e = LlamaFailed) \/
        (exists files uploadId d1 file,
           resolveSession Demo.world (multerStore Demo.emptyDisk [Demo.report]).2
             (multerStore Demo.emptyDisk [Demo.report]).1 Demo.firstUpload =
             (Ret (files, uploadId), d1) /\
           file ∈ files /\ documentError e /\
           msg = js "Error parsing/indexing file " ++ originalname file)
    end.
Proof.
  apply (X18_every_request_is_answered Demo.world
           (multerStore Demo.emptyDisk [Demo.report]).2
           (multerStore Demo.emptyDisk [Demo.report]).1 Demo.firstUpload).
  - exact I.
  - intros _ _. split; [reflexivity|vm_compute; reflexivity].
Defined.

(** X19. A 200 answer has one source per resolved document, in the order
    of the documents and under their display names; every source lists
    between one and five pages, no page twice, with page numbers from 1.
    The answer text is what the completion service returned. *)
Theorem X19_sources_follow_the_documents (w : World) (d : Disk)
    (allFiles : list File) (req : Request) (answer : jsstring)
    (sources : list Source) (uploadId : option jsstring) (d1 : Disk) :
  handler w d allFiles req = (Some (Ok200 answer sources uploadId), d1) ->
  exists files uploadId0 question context,
    resolveSession w d allFiles req = (Ret (files, uploadId0), d1) /\
    map sourceFilename sources = map originalname files /\
    Forall wellFormedSource sources /\
    bodyQuestion req = Some question /\
    askWithLlama w context question = Some answer.
Proof.
  unfold handler.
  destruct (resolveSession w d allFiles req) as [[[files uploadId0]|e|] d'] eqn:Hres;
    [|done..].
  destruct files as [|f files]; [done|].
  destruct (bodyQuestion req) as [[|c q]|] eqn:Hq; [done| |done].
  destruct (processFiles w d' (c :: q) 0 (f :: files) []) as [perDoc|r|] eqn:Hloop.
  - destruct (askWithLlama w _ (c :: q)) as [a|] eqn:Hllama; [|done].
    intros [= <- <- <- <-].
    apply processFiles_processed in Hloop as (docs & -> & Hnames & Hdocs).
    simpl. exists (f :: files), uploadId0, (c :: q). eexists.
    split; [done|]. split; [|split; [|split; [done|exact Hllama]]].
    + rewrite map_map, <- Hnames. reflexivity.
    + apply Forall_forall. intros s (doc & -> & Hdoc)%list_elem_of_fmap.
      rewrite Forall_forall in Hdocs. by apply Hdocs.
  - apply processFiles_replied in Hloop as (error & details & ->). done.
  - done.
Qed.

(** The witness of X19: the first upload of the sample. *)
Lemma X19_sources_follow_the_documents_witness :
  exists files uploadId0 question context,
    resolveSession Demo.world (multerStore Demo.emptyDisk [Demo.report]).2
      (multerStore Demo.emptyDisk [Demo.report]).1 Demo.firstUpload =
      (Ret (files, uploadId0),
       (handler Demo.world (multerStore Demo.emptyDisk [Demo.report]).2
          (multerStore Demo.emptyDisk [Demo.report]).1 Demo.firstUpload).2) /\
    map sourceFilename
      (match (handler Demo.world (multerStore Demo.emptyDisk [Demo.report]).2
                (multerStore Demo.emptyDisk [Demo.report]).1 Demo.firstUpload).1 with
       | Some (Ok200 _ sources _) => sources
       | _ => []
       end) = map originalname files /\
    Forall wellFormedSource
      (match (handler Demo.world (multerStore Demo.emptyDisk [Demo.report]).2
                (multerStore Demo.emptyDisk [Demo.report]).1 Demo.firstUpload).1 with
       | Some (Ok200 _ sources _) => sources
       | _ => []
       end) /\
    bodyQuestion Demo.firstUpload = Some question /\
    askWithLlama Demo.world context question = Some (js "Not found in the document.").
Proof.
  eapply (X19_sources_follow_the_documents Demo.world
            (multerStore Demo.emptyDisk [Demo.report]).2
            (multerStore Demo.emptyDisk [Demo.report]).1 Demo.firstUpload).
  vm_compute. reflexivity.
Defined.


(** X20. The documents are processed in their order and the first one
    that fails ends the request: when the documents in front of it are
    processed and it throws, the answer is 500 "Error parsing/indexing
    file" with its display name and its error, whatever the later
    documents would give. *)
Theorem X20_first_failing_document_is_reported (w : World) (d : Disk)
    (allFiles : list File) (req : Request) (files : list File)
    (uploadId : option jsstring) (d1 : Disk) (question : jsstring) (k : nat)
    (file : File) (e : Err) :
  resolveSession w d allFiles req = (Ret (files, uploadId), d1) ->
  bodyQuestion req = Some question ->
  truthy question = true ->
  files !! k = Some file ->
  (forall i f, i < k -> files !! i = Some f ->
     exists doc, processFile w d1 question i f = Ret doc) ->
  processFile w d1 question k file = Throw e ->
  handler w d allFiles req =
  (Some (Error500 (js "Error parsing/indexing file " ++ originalname file) e), d1).
Proof.
  intros Hres Hbody Hq Hk Hbefore Hthrow. unfold handler. rewrite Hres.
  destruct files as [|f files]; [done|]. rewrite Hbody.
  destruct question as [|c q]; [done|].
  by rewrite (processFiles_first_throw w d1 (c :: q) (f :: files) 0 k file e []).
Qed.

(** The witness of X20: the document whose second batch is refused. *)
Lemma X20_first_failing_document_is_reported_witness :
  handler Demo.failingWorld (multerStore Demo.emptyDisk [Demo.report]).2
    (multerStore Demo.emptyDisk [Demo.report]).1 Demo.firstUpload =
  (Some (Error500
           (js "Error parsing/indexing file " ++
            originalname (moved (uploaded Demo.report) (randomUUID Demo.failingWorld)))
           (EmbeddingPagesFailed ProviderCallFailed)),
   (resolveSession Demo.failingWorld (multerStore Demo.emptyDisk [Demo.report]).2
      (multerStore Demo.emptyDisk [Demo.report]).1 Demo.firstUpload).2).
Proof.
  eapply (X20_first_failing_document_is_reported Demo.failingWorld _ _ Demo.firstUpload
            _ _ _ Demo.question 0
            (moved (uploaded Demo.report) (randomUUID Demo.failingWorld))).
  - vm_compute. reflexivity.
  - reflexivity.
  - reflexivity.
  - vm_compute. reflexivity.
  - intros i f Hi. lia.
  - vm_compute. reflexivity.
Defined.

Lemma handler_no_pdf_iff w d allFiles req :
  (handler w d allFiles req).1 = Some (Error400 noPdfMessage) <->
  exists uploadId d1, resolveSession w d allFiles req = (Ret ([], uploadId), d1).
Proof.
  unfold handler.
  destruct (resolveSession w d allFiles req) as [[[files u]|e|] d1];
    [|split; [done|by intros (? & ? & ?)]..].
  destruct files as [|f files]; [split; eauto|].
  split; [|by intros (? & ? & ?)].
  destruct (bodyQuestion req) as [[|c q]|]; [done| |done].
  destruct (processFiles w d1 (c :: q) 0 (f :: files) []) as [perDoc|r|] eqn:Hloop;
    [| |done].
  - by destruct (askWithLlama w _ (c :: q)).
  - apply processFiles_replied in Hloop as (error & details & ->). done.
Qed.

Lemma resolveFiles_nothing d req :
  (resolveFiles d [] (uploadIdFromClient req) (uploadIdFromClient req)).1 = [] <->
  nothingStored d req.
Proof.
  unfold resolveFiles, nothingStored.
  destruct (uploadIdFromClient req) as [id|]; [|done].
  destruct (sessionDirs d !! id) as [entries|]; [|done]. simpl. split.
  - intros Hnil n Hn. destruct (isPdfName n) eqn:Hpdf; [|done].
    assert (storedFile id entries n ∈
              map (storedFile id entries)
                (filter (fun n => isPdfName n = true) (readdirSync entries))) as Hin.
    { apply list_elem_of_fmap_2, list_elem_of_filter. split; [done|].
      by apply readdirSync_spec. }
    rewrite Hnil in Hin. by apply elem_of_nil in Hin.
  - intros Hnone.
    destruct (filter (fun n => isPdfName n = true) (readdirSync entries)) as [|n ns] eqn:Hf;
      [done|].
    assert (n ∈ filter (fun n => isPdfName n = true) (readdirSync entries)) as Hin
      by (rewrite Hf; left).
    apply list_elem_of_filter in Hin as [Hpdf Hin%readdirSync_spec].
    by rewrite (Hnone n Hin) in Hpdf.
Qed.

(** X21. For a request whose upload id, if it sends one, is a session
    id (one path component, and not the name of a file of the upload
    directory), the answer is 400 "No PDFs uploaded ..." exactly when the
    request is handled without files and nothing is stored for it: no
    upload id, no directory of that id, or no name ending in .pdf in it.
    The question is not looked at, and the disk stays as it was. *)
Theorem X21_no_documents_answer (w : World) (d : Disk) (allFiles : list File)
    (req : Request) :
  clientSessionId d req ->
  ((handler w d allFiles req).1 = Some (Error400 noPdfMessage) <->
   allFiles = [] /\ nothingStored d req) /\
  ((handler w d allFiles req).1 = Some (Error400 noPdfMessage) ->
   (handler w d allFiles req).2 = d).
Proof.
  intros _.
  assert ((handler w d allFiles req).1 = Some (Error400 noPdfMessage) <->
          allFiles = [] /\ nothingStored d req) as Hiff.
  { rewrite handler_no_pdf_iff, <- resolveFiles_nothing. split.
    - intros (u & d1 & Hres).
      pose proof (resolveSession_outcome _ _ _ _ _ _ Hres) as [?|(files & u' & Heq & Hshape)];
        [done|].
      injection Heq as <- <-. destruct allFiles as [|f0 fs0]; [|by destruct Hshape].
      destruct Hshape as [<- _]. done.
    - intros [-> Hnil]. rewrite resolveSession_no_files.
      destruct (resolveFiles d [] _ _) as [files u]. simpl in Hnil. subst files. eauto. }
  split; [done|]. intros [-> _]%Hiff.
  rewrite SessionFacts.handler_disk. by rewrite resolveSession_no_files.
Qed.

(** The witness of X21: a follow-up on an id that names nothing. *)
Lemma X21_no_documents_answer_witness :
  ((handler Demo.world Demo.emptyDisk [] (Demo.followUp (js "abc"))).1 =
     Some (Error400 noPdfMessage) <->
   @nil File = [] /\ nothingStored Demo.emptyDisk (Demo.followUp (js "abc"))) /\
  ((handler Demo.world Demo.emptyDisk [] (Demo.followUp (js "abc"))).1 =
     Some (Error400 noPdfMessage) ->
   (handler Demo.world Demo.emptyDisk [] (Demo.followUp (js "abc"))).2 =
     Demo.emptyDisk).
Proof.
  apply (X21_no_documents_answer Demo.world Demo.emptyDisk []
           (Demo.followUp (js "abc"))).
  split; reflexivity.
Defined.

(** X22. The upload id of a 200 answer is the id that the client sent,
    when it sent one; otherwise the request brought files and the id is
    the newly generated one. *)
Theorem X22_answered_upload_id (w : World) (d : Disk) (allFiles : list File)
    (req : Request) (answer : jsstring) (sources : list Source)
    (uploadId : option jsstring) (d1 : Disk) :
  handler w d allFiles req = (Some (Ok200 answer sources uploadId), d1) ->
  match uploadIdFromClient req with
  | Some id => uploadId = Some id
  | None => allFiles <> [] /\ uploadId = orNull (Some (randomUUID w))
  end.
Proof.
  intros (files & u & q & perDoc & Hres & Hne & -> & _)%handler_ok.
  pose proof (resolveSession_outcome _ _ _ _ _ _ Hres) as [?|(files' & u' & Heq & Hshape)];
    [done|].
  injection Heq as <- <-.
  assert (forall id, uploadIdFromClient req = Some id -> truthy id = true) as Htruthy.
  { unfold uploadIdFromClient. intros id. destruct (bodyUploadId req) as [s|]; [|done].
    destruct (truthy s) eqn:Hs; [|done]. by intros [= <-]. }
  destruct allFiles as [|f0 fs0].
  - destruct Hshape as [Hfiles _]. unfold resolveFiles in Hfiles.
    destruct (uploadIdFromClient req) as [id|] eqn:Hid.
    + destruct (sessionDirs d !! id); injection Hfiles as -> ->; [|done].
      simpl. by rewrite (Htruthy id).
    + by injection Hfiles as -> ->.
  - destruct Hshape as [_ ->].
    destruct (uploadIdFromClient req) as [id|] eqn:Hid; simpl.
    + by rewrite (Htruthy id).
    + done.
Qed.

(** The witness of X22: the first upload of the sample. *)
Lemma X22_answered_upload_id_witness :
  (multerStore Demo.emptyDisk [Demo.report]).1 <> [] /\
  match (handler Demo.world (multerStore Demo.emptyDisk [Demo.report]).2
           (multerStore Demo.emptyDisk [Demo.report]).1 Demo.firstUpload).1 with
  | Some (Ok200 _ _ uploadId) => uploadId
  | _ => None
  end = orNull (Some (randomUUID Demo.world)).
Proof.
  eapply (X22_answered_upload_id Demo.world
            (multerStore Demo.emptyDisk [Demo.report]).2
            (multerStore Demo.emptyDisk [Demo.report]).1 Demo.firstUpload).
  vm_compute. reflexivity.
Defined.

End AnswerFacts.

(** ** The client *)

Module ClientFacts.
Import Storage Route RouteFacts Client.

Lemma handler_no_question w d allFiles req :
  (handler w d allFiles req).1 = Some (Error400 noQuestionMessage) ->
  bodyQuestion req = None \/ bodyQuestion req = Some [].
Proof.
  unfold handler.
  destruct (resolveSession w d allFiles req) as [[[files uploadId]|e|] d1]; [|done..].
  destruct files as [|f files]; [done|].
  destruct (bodyQuestion req) as [[|c q]|]; [by right| |by left].
  destruct (processFiles _ _ _ _ _ _) as [perDoc|r|] eqn:Hloop; [| |done].
  - by destruct (askWithLlama w _ (c :: q)).
  - apply processFiles_replied in Hloop as (error & details & ->). done.
Qed.

(** X24. A request posted by the client is never answered "No question
    provided", whatever the disk and the services; and when the client
    has kept an upload id, the request brings no file and the route leaves
    the disk as it was. *)
Theorem X24_client_requests_carry_a_question (w : World) (d : Disk)
    (input : jsstring) (selected : list Part) (kept : option jsstring)
    (posted : Request) :
  handleSend input selected kept = Some posted ->
  (ask w d posted).1 <> Some (Error400 noQuestionMessage) /\
  (orNull kept <> None -> (ask w d posted).2 = d).
Proof.
  intros Hsend. split.
  - unfold ask. destruct (multerStore d (parts posted)) as [allFiles d0].
    intros Hno%handler_no_question.
    pose proof (trim_truthy_or_fallback input) as Htruthy.
    unfold handleSend in Hsend.
    destruct (orNull kept).
    + injection Hsend as <-. simpl in Hno. destruct Hno as [?|[= Hempty]]; [done|].
      by rewrite Hempty in Htruthy.
    + destruct (negb (truthy (trim input)) && (length selected =? 0)); [done|].
      injection Hsend as <-. simpl in Hno. destruct Hno as [?|[= Hempty]]; [done|].
      by rewrite Hempty in Htruthy.
  - intros Hkept. unfold handleSend in Hsend.
    destruct (orNull kept) as [id|]; [|done]. injection Hsend as <-.
    unfold ask. simpl. rewrite SessionFacts.handler_disk.
    by rewrite resolveSession_no_files.
Qed.

(** The witness of X24: only spaces typed, one file selected. *)
Lemma X24_client_requests_carry_a_question_witness :
  (ask Demo.world Demo.emptyDisk
     {| parts := [Demo.report]; bodyUploadId := None;
        bodyQuestion := Some fallbackQuestion |}).1 <>
    Some (Error400 noQuestionMessage) /\
  (orNull None <> None ->
   (ask Demo.world Demo.emptyDisk
      {| parts := [Demo.report]; bodyUploadId := None;
         bodyQuestion := Some fallbackQuestion |}).2 = Demo.emptyDisk).
Proof.
  apply (X24_client_requests_carry_a_question Demo.world Demo.emptyDisk
           (js "   ") [Demo.report] None).
  reflexivity.
Defined.

End ClientFacts.

(* ===================================================================== *)
(** ** The embedding provider *)
(* ===================================================================== *)

Module ProviderFacts.
Import Provider.

Lemma mapped_batch_length (f : jsv -> option jsv) (list : list jsv) (v : jsv) :
  VArray <$> mapM f list = Some v ->
  exists items, v = VArray items /\ length items = length list.
Proof.
  destruct (mapM f list) as [items|] eqn:Hm; [|done].
  intros [= <-]. exists items. split; [done|].
  symmetry. by eapply length_mapM.
Qed.

Lemma normalize_batch (res v : jsv) :
  normalizeProviderResponse res true = Some v ->
  exists items, v = VArray items /\
    match providerList res with
    | Some list => length items = length list
    | None => length items = 1
    end.
Proof.
  destruct res as [| | | | |items|fields]; try done.
  - unfold normalizeProviderResponse, providerList.
    destruct (isArrayV (index0 items) && _).
    { intros [= <-]. by exists items. }
    destruct (isObjectType (index0 items)); [|done].
    destruct (getField _ (index0 items)) as [emb|]; [|done]. simpl.
    destruct (isArrayV emb); [|done].
    apply mapped_batch_length.
  - unfold normalizeProviderResponse, providerList.
    destruct (lookupField (js "data") fields);
      try apply mapped_batch_length;
      (destruct (lookupField (js "result") fields);
       try apply mapped_batch_length;
       (destruct (lookupField (js "embedding") fields); try done;
        intros [= <-]; by eexists)).
Qed.

Lemma normalize_single_list (items : list jsv) (v : jsv) :
  normalizeProviderResponse (VArray items) false = Some v ->
  isArrayV v = true /\
  (v = VArray items /\ isNumberV (index0 items) = true \/
   v = index0 items /\ isNumberV (index0 (itemsOf v)) = true \/
   getField (js "embedding") (index0 items) = Some v).
Proof.
  unfold normalizeProviderResponse.
  destruct (isArrayV (index0 items)) eqn:Harr; simpl.
  - destruct (isNumberV (index0 (itemsOf (index0 items)))) eqn:Hnum.
    { intros [= <-]. split; [done|]. right. by left. }
    by destruct (index0 items).
  - destruct (isObjectType (index0 items)).
    + destruct (getField _ (index0 items)) as [emb|]; [|done]. simpl.
      destruct (isArrayV emb) eqn:Hemb; [|done].
      intros [= <-]. split; [done|]. right. by right.
    + destruct (isNumberV (index0 items)) eqn:Hnum; [|done].
      intros [= <-]. split; [done|]. by left.
Qed.

(** X25. For a batch of inputs, whatever the provider sends,
    [callProviderEmbeddings] either throws or returns an array; the array
    has one entry for each entry of the list that the response carries
    (the response itself, its [data] or its [result]), and a single entry
    when the response carries its vector under [embedding]. *)
Theorem X25_batch_is_normalized_to_an_array (response : option jsv) (v : jsv) :
  callProviderEmbeddings response true = Ret v ->
  exists res items,
    response = Some res /\ v = VArray items /\
    match providerList res with
    | Some list => length items = length list
    | None => length items = 1
    end.
Proof.
  unfold callProviderEmbeddings.
  destruct response as [res|]; [|done].
  destruct (normalizeProviderResponse res true) as [v'|] eqn:Hn; [|done].
  intros [= <-]. apply normalize_batch in Hn as (items & -> & Hlen).
  by exists res, items.
Qed.

(** The witness of X25: a response with two embeddings under [data]. *)
Lemma X25_batch_is_normalized_to_an_array_witness :
  exists res items,
    Some (VObject [(js "data",
            VArray [VObject [(js "embedding", VArray [VNumber 1; VNumber 0])];
                    VObject [(js "embedding", VArray [VNumber 0; VNumber 1])]])])
      = Some res /\
    VArray [VArray [VNumber 1; VNumber 0]; VArray [VNumber 0; VNumber 1]]
      = VArray items /\
    match providerList res with
    | Some list => length items = length list
    | None => length items = 1
    end.
Proof.
  apply (X25_batch_is_normalized_to_an_array
           (Some (VObject [(js "data",
              VArray [VObject [(js "embedding", VArray [VNumber 1; VNumber 0])];
                      VObject [(js "embedding", VArray [VNumber 0; VNumber 1])]])]))).
  reflexivity.
Defined.

(** X26. For a single input and a response that is a list,
    [callProviderEmbeddings] either throws or returns an array: the list
    itself when it starts with a number, its first entry when that is an
    array starting with a number, and otherwise the array under the
    [embedding] of its first entry.  An empty list is refused. *)
Theorem X26_single_input_from_a_list (items : list jsv) (v : jsv) :
  callProviderEmbeddings (Some (VArray items)) false = Ret v ->
  items <> [] /\ isArrayV v = true /\
  (v = VArray items /\ isNumberV (index0 items) = true \/
   v = index0 items /\ isNumberV (index0 (itemsOf v)) = true \/
   getField (js "embedding") (index0 items) = Some v).
Proof.
  unfold callProviderEmbeddings.
  destruct (normalizeProviderResponse (VArray items) false) as [v'|] eqn:Hn;
    [|done].
  intros [= <-]. split; [by intros ->|].
  by apply normalize_single_list.
Qed.

(** The witness of X26: a list holding one object with an [embedding]. *)
Lemma X26_single_input_from_a_list_witness :
  [VObject [(js "embedding", VArray [VNumber 1; VNumber 0])]] <> [] /\
  isArrayV (VArray [VNumber 1; VNumber 0]) = true /\
  (VArray [VNumber 1; VNumber 0] =
     VArray [VObject [(js "embedding", VArray [VNumber 1; VNumber 0])]] /\
   isNumberV (index0 [VObject [(js "embedding", VArray [VNumber 1; VNumber 0])]])
     = true \/
   VArray [VNumber 1; VNumber 0] =
     index0 [VObject [(js "embedding", VArray [VNumber 1; VNumber 0])]] /\
   isNumberV (index0 (itemsOf (VArray [VNumber 1; VNumber 0]))) = true \/
   getField (js "embedding")
     (index0 [VObject [(js "embedding", VArray [VNumber 1; VNumber 0])]]) =
     Some (VArray [VNumber 1; VNumber 0])).
Proof.
  apply (X26_single_input_from_a_list
           [VObject [(js "embedding", VArray [VNumber 1; VNumber 0])]]).
  reflexivity.
Defined.

End ProviderFacts.
